(** * Interview-preparation web app: orchestration core, shallow embedding

    Sources embedded here
    - [types.ts]                       data model
    - [context/AppContext.tsx]         session store ([addMessageToTranscript],
                                       [setRoadmap], [toggleTodo])
    - [components/pages/InterviewPage.tsx]  [processStream], [getNextAiMessage],
                                       the turn-taking state machine
    - [components/pages/ResultsPage.tsx]    [fetchResults] and the render gate
    - [components/pages/SetupPage.tsx]      the form and its submit
    - [components/pages/ResumeCheckerPage.tsx]  [handleSubmit]
    - [services/geminiService.ts]      the Gemini client: the chat, the
                                       [generateEvaluation] request and
                                       [scoreResume]; the OpenAI client:
                                       the message history, the event
                                       stream of [streamNextQuestion],
                                       the evaluation prompt and
                                       [scoreResume]

    Asynchronous functions are run against an oracle that fixes what the
    remote provider answers on each attempt; React state setters become
    updates of an explicit store, and every externally visible call is
    also appended to an event log so that call order can be stated. *)

From Stdlib Require Import String Ascii List Bool Arith ZArith QArith Lia.
From Stdlib Require Import DecimalString DecimalNat DecimalZ.
Import ListNotations.

Local Close Scope Q_scope.
Local Open Scope list_scope.
Local Open Scope string_scope.
Local Open Scope nat_scope.

(* ===================================================================== *)
(** * types.ts *)
(* ===================================================================== *)

Inductive Page := setup | interview | results | dashboard | resume_checker.

Inductive InterviewType := behavioral | technical.

Record User := mkUser { name : string; goal : string }.

Inductive Speaker := ai | user.

Record TranscriptMessage := mkMsg {
  speaker : Speaker;
  text    : string;
  image   : option string   (* Base64 encoded JPEG data URL *)
}.

Inductive Level := Beginner | Intermediate | Advanced.

Record Evaluation := mkEvaluation {
  summary       : string;
  knowledge     : string;
  skills        : string;
  confidence    : string;
  communication : string;
  level         : Level
}.

Inductive ResourceType := article | video | docs | interactive.

Record Resource := mkResource {
  rtype  : ResourceType;
  rtitle : string;
  url    : string
}.

(** [Omit<RoadmapItem, 'id' | 'completed'>]: what the provider returns. *)
Record RoadmapDraft := mkDraft {
  d_title       : string;
  d_description : string;
  d_keyConcepts : list string;
  d_project     : string;
  d_resources   : list Resource
}.

Record RoadmapItem := mkItem {
  id          : string;
  title       : string;
  description : string;
  keyConcepts : list string;
  project     : string;
  resources   : list Resource;
  completed   : bool
}.

Definition Speaker_eqb (a b : Speaker) : bool :=
  match a, b with
  | ai, ai | user, user => true
  | _, _ => false
  end.

(** Template-literal rendering of the [speaker] tag. *)
Definition Speaker_toString (s : Speaker) : string :=
  match s with ai => "ai" | user => "user" end.

(* ===================================================================== *)
(** * Template literals over numbers *)
(* ===================================================================== *)

(** [`${index}`] for an array index. *)
Definition index_toString (i : nat) : string :=
  NilZero.string_of_uint (Nat.to_uint i).

(** [`${n}`] for an integral number such as [Date.now()]. *)
Definition integer_toString (z : Z) : string :=
  NilZero.string_of_int (Z.to_int z).

(* ===================================================================== *)
(** * context/AppContext.tsx *)
(* ===================================================================== *)

Module AppContext.

(** The [useState] cells of [AppProvider]. *)
Record Store := mkStore {
  page           : Page;
  user_          : option User;
  interviewTypes : list InterviewType;
  transcript     : list TranscriptMessage;
  evaluation     : option Evaluation;
  roadmap        : list RoadmapItem
}.

Definition initial : Store :=
  mkStore setup None [] [] None [].

Definition setPage (p : Page) (s : Store) : Store :=
  mkStore p (user_ s) (interviewTypes s) (transcript s) (evaluation s) (roadmap s).

Definition startInterview (n g : string) (types : list InterviewType) (s : Store) : Store :=
  mkStore interview (Some (mkUser n g)) types (transcript s) (evaluation s) (roadmap s).

(** [setTranscript(prev => [...prev, message])] *)
Definition addMessageToTranscript (m : TranscriptMessage) (s : Store) : Store :=
  mkStore (page s) (user_ s) (interviewTypes s) (transcript s ++ [m])%list
          (evaluation s) (roadmap s).

Definition setEvaluation (e : option Evaluation) (s : Store) : Store :=
  mkStore (page s) (user_ s) (interviewTypes s) (transcript s) e (roadmap s).

Definition setRoadmapState (r : list RoadmapItem) (s : Store) : Store :=
  mkStore (page s) (user_ s) (interviewTypes s) (transcript s) (evaluation s) r.

(** [`todo-${index}-${Date.now()}`] *)
Definition todo_id (index : nat) (now : Z) : string :=
  "todo-" ++ index_toString index ++ "-" ++ integer_toString now.

(** The callback of [newRoadmap.map((item, index) => ...)]. *)
Definition withId (item : RoadmapDraft) (index : nat) (now : Z) : RoadmapItem :=
  mkItem (todo_id index now)
         (d_title item) (d_description item) (d_keyConcepts item)
         (d_project item) (d_resources item)
         false.

(** [Array.prototype.map] with the index made explicit.  [Date_now i] is
    what the clock returns when the callback runs for index [i]: the
    source reads the clock once per item. *)
Fixpoint map_indexed (Date_now : nat -> Z) (index : nat)
         (newRoadmap : list RoadmapDraft) : list RoadmapItem :=
  match newRoadmap with
  | [] => []
  | item :: rest =>
      withId item index (Date_now index) :: map_indexed Date_now (S index) rest
  end.

Definition roadmapWithIds (Date_now : nat -> Z) (newRoadmap : list RoadmapDraft)
  : list RoadmapItem :=
  map_indexed Date_now 0 newRoadmap.

Definition setRoadmap (Date_now : nat -> Z) (newRoadmap : list RoadmapDraft)
           (s : Store) : Store :=
  setRoadmapState (roadmapWithIds Date_now newRoadmap) s.

(** [item.id === id ? { ...item, completed: !item.completed } : item] *)
Definition toggleItem (id0 : string) (item : RoadmapItem) : RoadmapItem :=
  if String.eqb (id item) id0 then
    mkItem (id item) (title item) (description item) (keyConcepts item)
           (project item) (resources item) (negb (completed item))
  else item.

Definition toggleTodo_list (id0 : string) (prev : list RoadmapItem) : list RoadmapItem :=
  map (toggleItem id0) prev.

Definition toggleTodo (id0 : string) (s : Store) : Store :=
  setRoadmapState (toggleTodo_list id0 (roadmap s)) s.

Definition startNewInterview (s : Store) : Store :=
  mkStore setup None [] [] None [].

End AppContext.

(* ===================================================================== *)
(** * Outcome of an awaited operation *)
(* ===================================================================== *)

(** An awaited promise either fulfils with a value or rejects; the
    rejection value is only ever logged by the callers embedded here. *)
Inductive Completion (A : Type) :=
| Fulfilled (a : A)
| Rejected.
Arguments Fulfilled {A} a.
Arguments Rejected {A}.

(** The retry constants shared by the two call sites. *)
Definition maxRetries : nat := 2.

(** [Math.pow(2, attempt) * 1000], in milliseconds. *)
Definition backoff_delay (attempt : nat) : Z := (2 ^ Z.of_nat attempt * 1000)%Z.

(* ===================================================================== *)
(** * components/pages/InterviewPage.tsx *)
(* ===================================================================== *)

Module InterviewPage.

Inductive Status := idle | listening | speaking | thinking | finished.

(** The two completion callbacks handed to [speak]. *)
Inductive Callback :=
| cb_setStatus_idle      (* () => setStatus('idle')   *)
| cb_setPage_results.    (* () => setPage('results')  *)

(** An [AsyncGenerator<string>] as the consumer sees it: finitely many
    fragments, then a normal end or an exception. *)
Inductive Stream :=
| s_done
| s_throw
| s_yield (chunkText : string) (rest : Stream).

Inductive Event :=
| ev_streamNextQuestion (message : string)
| ev_setCurrentAiResponse (s : string)
| ev_addMessageToTranscript (m : TranscriptMessage)
| ev_setStatus (st : Status)
| ev_speak (txt : string) (onEnd : Callback)
| ev_consoleError (attemptNo : nat)
| ev_delay (ms : Z).

(** Component state: the context store, the local [useState] cells, the
    flags exposed by the speech hook, and the log of calls made. *)
Record Component := mkComponent {
  store             : AppContext.Store;
  status            : Status;
  currentAiResponse : string;
  micError          : option string;
  isListening       : bool;
  isSpeaking        : bool;
  onSpeechEnd       : option Callback;
  log               : list Event
}.

Definition emit (e : Event) (c : Component) : Component :=
  mkComponent (store c) (status c) (currentAiResponse c) (micError c)
              (isListening c) (isSpeaking c) (onSpeechEnd c) (log c ++ [e])%list.

Definition setStatus (st : Status) (c : Component) : Component :=
  let c := emit (ev_setStatus st) c in
  mkComponent (store c) st (currentAiResponse c) (micError c)
              (isListening c) (isSpeaking c) (onSpeechEnd c) (log c).

Definition setCurrentAiResponse (s : string) (c : Component) : Component :=
  let c := emit (ev_setCurrentAiResponse s) c in
  mkComponent (store c) (status c) s (micError c)
              (isListening c) (isSpeaking c) (onSpeechEnd c) (log c).

Definition setMicError (e : option string) (c : Component) : Component :=
  mkComponent (store c) (status c) (currentAiResponse c) e
              (isListening c) (isSpeaking c) (onSpeechEnd c) (log c).

Definition with_store (f : AppContext.Store -> AppContext.Store) (c : Component)
  : Component :=
  mkComponent (f (store c)) (status c) (currentAiResponse c) (micError c)
              (isListening c) (isSpeaking c) (onSpeechEnd c) (log c).

Definition addMessageToTranscript (m : TranscriptMessage) (c : Component) : Component :=
  with_store (AppContext.addMessageToTranscript m)
             (emit (ev_addMessageToTranscript m) c).

Definition setPage (p : Page) (c : Component) : Component :=
  with_store (AppContext.setPage p) c.

(** The speech hook is a collaborator: [speak] starts playback, raising
    [isSpeaking] and keeping the completion callback until playback ends. *)
Definition speak (txt : string) (onEnd : Callback) (c : Component) : Component :=
  let c := emit (ev_speak txt onEnd) c in
  mkComponent (store c) (status c) (currentAiResponse c) (micError c)
              (isListening c) true (Some onEnd) (log c).

Definition set_isListening (b : bool) (c : Component) : Component :=
  mkComponent (store c) (status c) (currentAiResponse c) (micError c)
              b (isSpeaking c) (onSpeechEnd c) (log c).

Definition speech_finished (c : Component) : Component :=
  mkComponent (store c) (status c) (currentAiResponse c) (micError c)
              (isListening c) false None (log c).

Definition transcript (c : Component) : list TranscriptMessage :=
  AppContext.transcript (store c).

(** [processStream]: the [for await] loop, with [fullText] as accumulator. *)
Fixpoint processStream_from (fullText : string) (stream : Stream) (c : Component)
  : Completion string * Component :=
  match stream with
  | s_done => (Fulfilled fullText, c)
  | s_throw => (Rejected, c)
  | s_yield chunkText rest =>
      let fullText := fullText ++ chunkText in
      processStream_from fullText rest (setCurrentAiResponse fullText c)
  end.

Definition processStream (stream : Stream) (c : Component)
  : Completion string * Component :=
  processStream_from "" stream c.

Definition errorMessage : string :=
  "I'm sorry, I'm having trouble connecting right now. Let's end the interview here and you can review the results so far.".

Definition retryNotice : string :=
  "I'm having a little trouble connecting. Trying again in a moment...".

(** [getNextAiMessage].  [provider k] is the generator returned by the
    call of [aiService.streamNextQuestion] made in attempt [k] (counted
    from 0); each attempt makes exactly one such call.  The [while] loop
    is unrolled under [fuel]; [None] means the fuel ran out. *)
Fixpoint getNextAiMessage_loop (fuel : nat) (provider : nat -> Stream)
         (message : string) (attempt : nat) (c : Component) : option Component :=
  match fuel with
  | O => None
  | S fuel =>
      if (attempt <=? maxRetries)%nat then
        let c := emit (ev_streamNextQuestion message) c in
        match processStream (provider attempt) c with
        | (Fulfilled fullText, c) =>
            let c := addMessageToTranscript (mkMsg ai fullText None) c in
            let c := setCurrentAiResponse "" c in
            let c := setStatus speaking c in
            let c := speak fullText cb_setStatus_idle c in
            Some c
        | (Rejected, c) =>
            let c := emit (ev_consoleError (attempt + 1)) c in
            let attempt := attempt + 1 in
            if (maxRetries <? attempt)%nat then
              let c := addMessageToTranscript (mkMsg ai errorMessage None) c in
              let c := setCurrentAiResponse "" c in
              let c := speak errorMessage cb_setPage_results c in
              getNextAiMessage_loop fuel provider message attempt c
            else
              let delay := backoff_delay attempt in
              let c := setCurrentAiResponse retryNotice c in
              let c := emit (ev_delay delay) c in
              getNextAiMessage_loop fuel provider message attempt c
        end
      else Some c
  end.

Definition getNextAiMessage (provider : nat -> Stream) (message : string)
           (c : Component) : option Component :=
  getNextAiMessage_loop (maxRetries + 2) provider message 0 c.

(** The messages a log appends to the transcript. *)
Fixpoint appended (l : list Event) : list TranscriptMessage :=
  match l with
  | [] => []
  | ev_addMessageToTranscript m :: l => m :: appended l
  | _ :: l => appended l
  end.

(** What a stream yields and how it ends. *)
Fixpoint fragments (s : Stream) : list string :=
  match s with
  | s_yield chunkText rest => chunkText :: fragments rest
  | _ => []
  end.

Fixpoint drains (s : Stream) : bool :=
  match s with
  | s_done => true
  | s_throw => false
  | s_yield _ rest => drains rest
  end.

Fixpoint concat_all (l : list string) : string :=
  match l with
  | [] => ""
  | x :: l => x ++ concat_all l
  end.

(** The running totals a consumer sees: one per fragment. *)
Fixpoint running_from (acc : string) (l : list string) : list string :=
  match l with
  | [] => []
  | x :: l => (acc ++ x) :: running_from (acc ++ x) l
  end.

Definition running (l : list string) : list string := running_from "" l.

(** ** The turn-taking state machine

    The component's handlers and effects, driven by the events its
    collaborators can raise.  A session pairs the component state with
    the [getNextAiMessage] calls that have been started and have not yet
    settled; any of them may settle next, and a call is taken to settle
    in one step.  The speech hook is outside this file: recognition
    results are delivered only while capture is active, and the callbacks
    the hook returns are referentially stable.  The first effect also
    calls [aiService.startInterviewChat], which touches none of the state
    kept here. *)

Record Session := mkSession {
  comp     : Component;
  inflight : list string
}.

Definition last_is_user (t : list TranscriptMessage) : bool :=
  match rev t with
  | m :: _ => Speaker_eqb (speaker m) user
  | [] => false
  end.

Definition last_text (t : list TranscriptMessage) : string :=
  match rev t with
  | m :: _ => text m
  | [] => ""
  end.

Definition Status_eqb (a b : Status) : bool :=
  match a, b with
  | idle, idle | listening, listening | speaking, speaking
  | thinking, thinking | finished, finished => true
  | _, _ => false
  end.

Definition isSome {A} (o : option A) : bool :=
  match o with Some _ => true | None => false end.

(** First effect: [user && transcript.length === 0 && interviewTypes.length > 0]. *)
Definition opening_effect (c : Component) : list string :=
  if isSome (AppContext.user_ (store c))
     && (length (transcript c) =? 0)%nat
     && (0 <? length (AppContext.interviewTypes (store c)))%nat
  then ["Start the interview."] else [].

(** Second effect: [status === 'thinking' && transcript.length > 0 &&
    transcript[transcript.length-1].speaker === 'user']. *)
Definition reply_effect (c : Component) : list string :=
  if Status_eqb (status c) thinking
     && (0 <? length (transcript c))%nat
     && last_is_user (transcript c)
  then [last_text (transcript c)] else [].

(** Effects run after a render when one of their dependencies changed.
    The transcript only ever grows, so its identity changes exactly when
    its length does. *)
Definition effects_after (before after : Component) : list string :=
  ((if negb (length (transcript before) =? length (transcript after))%nat
    then opening_effect after else [])
   ++
   (if negb (Status_eqb (status before) (status after))
       || negb (length (transcript before) =? length (transcript after))%nat
    then reply_effect after else []))%list.

(** On mount every effect runs once; [status] starts as ['thinking']. *)
Definition mount (st : AppContext.Store) : Session :=
  let c := mkComponent st thinking "" None false false None [] in
  mkSession c (opening_effect c ++ reply_effect c)%list.

Definition handleUserSpeech (txt : string) (img : option string) (c : Component)
  : Component :=
  setStatus thinking (addMessageToTranscript (mkMsg user txt img) c).

Definition handleMicClick (started : bool) (c : Component) : Component :=
  let c := setMicError None c in
  if isListening c then set_isListening false c
  else set_isListening started c.

Definition handleFinishInterview (c : Component) : Component :=
  setPage results (setStatus finished c).

Definition run_callback (cb : Callback) (c : Component) : Component :=
  match cb with
  | cb_setStatus_idle => setStatus idle c
  | cb_setPage_results => setPage results c
  end.

(** [disabled={isSpeaking || status === 'thinking'}] *)
Definition mic_disabled (c : Component) : bool :=
  isSpeaking c || Status_eqb (status c) thinking.

(** [disabled={transcript.length < 2}] *)
Definition finish_disabled (c : Component) : bool :=
  (length (transcript c) <? 2)%nat.

Definition on_interview_page (c : Component) : bool :=
  match AppContext.page (store c) with interview => true | _ => false end.

Inductive Label :=
| l_aiTurn (provider : nat -> Stream)
| l_speechEnd
| l_micClick (started : bool)
| l_listeningEnd
| l_userSpeech (txt : string) (img : option string)
| l_finishClick.

Definition after_handler (before after : Component) (pending : list string)
  : Session :=
  mkSession after (pending ++ effects_after before after)%list.

Inductive step : Session -> Label -> Session -> Prop :=
| step_aiTurn c message earlier later provider c' :
    getNextAiMessage provider message c = Some c' ->
    step (mkSession c (earlier ++ message :: later)) (l_aiTurn provider)
         (after_handler c c' (earlier ++ later))
| step_speechEnd c pending cb :
    isSpeaking c = true ->
    onSpeechEnd c = Some cb ->
    step (mkSession c pending) l_speechEnd
         (after_handler c (run_callback cb (speech_finished c)) pending)
| step_micClick c pending started :
    on_interview_page c = true ->
    mic_disabled c = false ->
    step (mkSession c pending) (l_micClick started)
         (after_handler c (handleMicClick started c) pending)
| step_listeningEnd c pending :
    step (mkSession c pending) l_listeningEnd
         (after_handler c (set_isListening false c) pending)
| step_userSpeech c pending txt img :
    isListening c = true ->
    step (mkSession c pending) (l_userSpeech txt img)
         (after_handler c (handleUserSpeech txt img c) pending)
| step_finishClick c pending :
    on_interview_page c = true ->
    finish_disabled c = false ->
    step (mkSession c pending) l_finishClick
         (after_handler c (handleFinishInterview c) pending).

Inductive reachable (s0 : Session) : Session -> Prop :=
| reach_start : reachable s0 s0
| reach_step s l s' : reachable s0 s -> step s l s' -> reachable s0 s'.

(** One full exchange: an interviewer utterance answered by the candidate. *)
Definition full_exchange (t : list TranscriptMessage) : bool :=
  match t with
  | q :: r :: _ => Speaker_eqb (speaker q) ai && Speaker_eqb (speaker r) user
  | _ => false
  end.

End InterviewPage.

(* ===================================================================== *)
(** * JavaScript values and built-ins used by [scoreResume] *)
(* ===================================================================== *)

(** A number: a finite value, an infinity or NaN.  Finite doubles are
    represented by the rational they denote. *)
Inductive JSNumber :=
| Finite (q : Q)
| PosInfinity
| NegInfinity
| NaN.

(** What [JSON.parse] can return. *)
#[warnings="-register-all"]
Inductive json :=
| JNull
| JBool (b : bool)
| JNum (n : JSNumber)
| JStr (s : string)
| JArr (items : list json)
| JObj (fields : list (string * json)).

(** The own properties of a parsed JSON object, in insertion order. *)
Definition JsObject := list (string * json).

(** [obj.key]; [None] is [undefined]. *)
Fixpoint get_property (key : string) (obj : JsObject) : option json :=
  match obj with
  | [] => None
  | (k, v) :: rest => if String.eqb k key then Some v else get_property key rest
  end.

(** [obj.key = v]: overwrite in place, or add at the end. *)
Fixpoint set_property (key : string) (v : json) (obj : JsObject) : JsObject :=
  match obj with
  | [] => [(key, v)]
  | (k, w) :: rest =>
      if String.eqb k key then (k, v) :: rest
      else (k, w) :: set_property key v rest
  end.

(** [typeof v === 'number'] *)
Definition typeof_number (v : option json) : bool :=
  match v with Some (JNum _) => true | _ => false end.

Section ToString.

(** [Number.prototype.toString] is left open: no function embedded here
    inspects the digits of a number that arrived as a number. *)
Variable Number_toString : JSNumber -> string.

(** The abstract operation ToString on a parsed value; [Rejected] is a
    [TypeError].  An array joins its elements with commas, rendering
    [null] as the empty string.  An object is converted by the method
    found under [toString]: a parsed object inherits the one of
    [Object.prototype], unless it has an own property of that name, which
    is never callable in a parsed value; [valueOf] is tried next and
    never gives a primitive, so the conversion throws. *)
Fixpoint ToString (v : json) : Completion string :=
  match v with
  | JNull => Fulfilled "null"
  | JBool true => Fulfilled "true"
  | JBool false => Fulfilled "false"
  | JNum n => Fulfilled (Number_toString n)
  | JStr s => Fulfilled s
  | JArr items =>
      (fix join (l : list json) : Completion string :=
         match l with
         | [] => Fulfilled ""
         | x :: rest =>
             match (match x with JNull => Fulfilled "" | _ => ToString x end) with
             | Rejected => Rejected
             | Fulfilled here =>
                 match rest with
                 | [] => Fulfilled here
                 | _ :: _ =>
                     match join rest with
                     | Rejected => Rejected
                     | Fulfilled more => Fulfilled (here ++ "," ++ more)
                     end
                 end
             end
         end) items
  | JObj fields =>
      match get_property "toString" fields with
      | Some _ => Rejected
      | None => Fulfilled "[object Object]"
      end
  end.

Definition ToString_property (v : option json) : Completion string :=
  match v with
  | None => Fulfilled "undefined"
  | Some v => ToString v
  end.

End ToString.

(** White space that [parseInt] skips.  Strings are sequences of code
    units below 256, so of the white-space code points only these occur. *)
Definition is_whitespace (c : ascii) : bool :=
  let n := nat_of_ascii c in
  ((n =? 9) || (n =? 10) || (n =? 11) || (n =? 12) || (n =? 13)
   || (n =? 32) || (n =? 160))%nat.

Fixpoint skip_whitespace (s : string) : string :=
  match s with
  | String c rest => if is_whitespace c then skip_whitespace rest else s
  | EmptyString => s
  end.

Definition digit_value (c : ascii) : option Z :=
  let n := nat_of_ascii c in
  if ((48 <=? n) && (n <=? 57))%nat then Some (Z.of_nat (n - 48)) else None.

(** Value of the longest prefix of decimal digits; [None] when the
    prefix is empty. *)
Fixpoint digits_prefix (acc : option Z) (s : string) : option Z :=
  match s with
  | String c rest =>
      match digit_value c with
      | Some d =>
          digits_prefix
            (Some (10 * match acc with Some a => a | None => 0 end + d)%Z) rest
      | None => acc
      end
  | EmptyString => acc
  end.

(** The double nearest to a natural number, ties going to the even
    significand; [None] when that is beyond the largest double.  Up to
    [2^53] every natural number is a double.  Above, [m] has more bits
    than the 53 of a significand: the [e] lowest ones are rounded away. *)
Definition nearest_double (m : Z) : option Z :=
  if (m <? 2 ^ 53)%Z then Some m
  else if (2 ^ 1024 <=? m)%Z then None
  else
    let e := (Z.log2 m - 52)%Z in
    let q := Z.shiftr m e in
    let r := (m - Z.shiftl q e)%Z in
    let half := Z.shiftl 1 (e - 1) in
    let q := if (half <? r)%Z || ((r =? half)%Z && Z.odd q) then (q + 1)%Z else q in
    let v := Z.shiftl q e in
    if (2 ^ 1024 <=? v)%Z then None else Some v.

(** The number value of an integer: the nearest double, or an infinity.
    Negative zero is not told apart from zero. *)
Definition Number_of_integer (z : Z) : JSNumber :=
  match nearest_double (Z.abs z) with
  | Some v => Finite (inject_Z (Z.sgn z * v))
  | None => if (z <? 0)%Z then NegInfinity else PosInfinity
  end.

(** [parseInt(s, 10)]: skip white space, read an optional sign, then the
    longest run of decimal digits; NaN when there is none, and otherwise
    the number value of the integer read.  The digits are all taken into
    account, as the engines do; the language definition fixes the result
    only for integers of at most twenty significant digits. *)
Definition parseInt10 (s : string) : JSNumber :=
  let s := skip_whitespace s in
  let '(sign, s) :=
    match s with
    | String c rest =>
        if Ascii.eqb c "-" then ((-1)%Z, rest)
        else if Ascii.eqb c "+" then (1%Z, rest)
        else (1%Z, s)
    | EmptyString => (1%Z, s)
    end in
  match digits_prefix None s with
  | None => NaN
  | Some m => Number_of_integer (sign * m)
  end.

(** A number is falsy when it is zero or NaN. *)
Definition falsy_number (n : JSNumber) : bool :=
  match n with
  | Finite q => (Qnum q =? 0)%Z
  | NaN => true
  | _ => false
  end.

(** [n || 0] *)
Definition or_zero (n : JSNumber) : JSNumber :=
  if falsy_number n then Finite (inject_Z 0) else n.

(** [String.prototype.trim]: white space is removed at both ends. *)
Fixpoint trim_end (s : string) : string :=
  match s with
  | EmptyString => EmptyString
  | String c rest =>
      match trim_end rest with
      | EmptyString => if is_whitespace c then EmptyString else String c EmptyString
      | kept => String c kept
      end
  end.

Definition trim (s : string) : string := trim_end (skip_whitespace s).

(** [String.prototype.split(sep)] for a separator of one character. *)
Fixpoint split_on (sep : ascii) (s : string) : list string :=
  match s with
  | EmptyString => [""]
  | String c rest =>
      if Ascii.eqb c sep then "" :: split_on sep rest
      else match split_on sep rest with
           | h :: t => String c h :: t
           | [] => [String c ""]
           end
  end.

(** [Array.prototype.join(sep)] on strings. *)
Fixpoint join (sep : string) (l : list string) : string :=
  match l with
  | [] => ""
  | x :: rest =>
      match rest with
      | [] => x
      | _ :: _ => x ++ sep ++ join sep rest
      end
  end.

(** [s.substring(n)] *)
Fixpoint drop (n : nat) (s : string) : string :=
  match n, s with
  | O, _ => s
  | S n, String _ rest => drop n rest
  | S _, EmptyString => EmptyString
  end.

(** Truthiness of a parsed value. *)
Definition truthy (v : json) : bool :=
  match v with
  | JNull => false
  | JBool b => b
  | JNum n => negb (falsy_number n)
  | JStr s => match s with EmptyString => false | _ => true end
  | JArr _ | JObj _ => true
  end.

(** [v.key] for a value that is neither [null] nor [undefined], and a
    key that no prototype defines. *)
Definition property (key : string) (v : json) : option json :=
  match v with
  | JObj fields => get_property key fields
  | _ => None
  end.

(** [v[0]] for a value that is neither [null] nor [undefined]. *)
Definition index0 (v : json) : option json :=
  match v with
  | JArr items => nth_error items 0
  | JStr (String c _) => Some (JStr (String c ""))
  | JObj fields => get_property "0" fields
  | _ => None
  end.


(* ===================================================================== *)
(** * services/geminiService.ts *)
(* ===================================================================== *)

Module GeminiAIService.

Definition newline : string := String (ascii_of_nat 10) "".

(** [String.prototype.split(',')] *)
Fixpoint split_comma (s : string) : list string :=
  match s with
  | EmptyString => [""]
  | String c rest =>
      if Ascii.eqb c "," then "" :: split_comma rest
      else match split_comma rest with
           | h :: t => String c h :: t
           | [] => [String c ""]
           end
  end.

(** A string is truthy when it is not empty. *)
Definition truthy_string (s : string) : bool :=
  match s with EmptyString => false | _ => true end.

Record InlineData := mkInlineData { mimeType : string; data : string }.

Definition imageMarker : string :=
  "[Reference image for the user's statement above]" ++ newline.

(** The body of [transcript.forEach(msg => ...)], acting on the two
    accumulators [transcriptText] and [imageParts]. *)
Definition forEach_body (acc : string * list InlineData) (msg : TranscriptMessage)
  : string * list InlineData :=
  let '(transcriptText, imageParts) := acc in
  let transcriptText :=
    transcriptText ++ Speaker_toString (speaker msg) ++ ": " ++ text msg ++ newline in
  match speaker msg, image msg with
  | user, Some img =>
      if truthy_string img then
        match nth_error (split_comma img) 1 with
        | Some base64Data =>
            if truthy_string base64Data then
              (transcriptText ++ imageMarker,
               (imageParts ++ [mkInlineData "image/jpeg" base64Data])%list)
            else (transcriptText, imageParts)
        | None => (transcriptText, imageParts)
        end
      else (transcriptText, imageParts)
  | _, _ => (transcriptText, imageParts)
  end.

Definition collect (transcript : list TranscriptMessage) : string * list InlineData :=
  fold_left forEach_body transcript ("", []).

Definition transcriptText (transcript : list TranscriptMessage) : string :=
  fst (collect transcript).

Definition imageParts (transcript : list TranscriptMessage) : list InlineData :=
  snd (collect transcript).

Definition prompt_head : string :=
  "Based on the following interview transcript for a candidate aspiring to be a '".

Definition prompt_mid : string :=
  "', and the series of images captured while they were speaking, please evaluate their performance.
        
        Transcript:
        ".

Definition prompt_tail : string :=
  "
        
        Provide a detailed evaluation based on the candidate's answers.
        - Assess their technical knowledge and problem-solving skills from their verbal answers.
        - Assess their confidence based on both their answers and their facial expressions/body language in the images.
        - Analyze their communication style, including clarity, conciseness, use of filler words, and non-verbal cues from the images (e.g., eye contact, engagement).
        - Finally, assign a level: 'Beginner', 'Intermediate', or 'Advanced'.".

Definition evaluation_prompt (transcript : list TranscriptMessage) (goal : string)
  : string :=
  prompt_head ++ goal ++ prompt_mid ++ transcriptText transcript ++ prompt_tail.

(** [parts = [{ text: prompt }, ...imageParts]] *)
Record EvaluationRequest := mkRequest {
  prompt_text : string;
  images      : list InlineData
}.

Definition generateEvaluation_request (transcript : list TranscriptMessage)
           (goal : string) : EvaluationRequest :=
  mkRequest (evaluation_prompt transcript goal) (imageParts transcript).

(** The managed chat session; [None] is [null]. *)
Record Chat := mkChat { systemInstruction : string }.

(** [types.join(' and ')] *)
Definition interviewRounds (types : list InterviewType) : string :=
  join " and "
       (map (fun t => match t with
                      | behavioral => "behavioral"
                      | technical => "technical"
                      end) types).

Definition instruction (goal : string) (types : list InterviewType) : string :=
  "You are a friendly but professional interviewer. Your goal is to conduct a mock interview for a candidate aspiring to be a '" ++ goal ++ "'.
                The interview will cover the following rounds: " ++ interviewRounds types ++ ".
                Ask insightful questions one by one based on these topics.
                If the candidate seems to be struggling with a question, try asking a simpler follow-up question to help them demonstrate their knowledge.
                Start with an introductory question. Keep your questions concise.".

Definition startInterviewChat (goal : string) (types : list InterviewType)
           (chat : option Chat) : option Chat :=
  Some (mkChat (instruction goal types)).

(** [streamNextQuestion]: the generator throws when there is no chat,
    and otherwise yields the text of each chunk of the stream that
    [sendMessageStream] delivers for the message. *)
Definition streamNextQuestion (chat : option Chat) (message : string)
           (sendMessageStream : Chat -> string -> InterviewPage.Stream)
  : InterviewPage.Stream :=
  match chat with
  | None => InterviewPage.s_throw
  | Some chatInstance => sendMessageStream chatInstance message
  end.

(** [scoreResume], from the parsed response on.  The response schema
    asks for an object, and [payload] is that object.  [parseInt] first
    converts its argument to a string; when that throws, so does
    [scoreResume]. *)
Definition scoreResume (Number_toString : JSNumber -> string) (payload : JsObject)
  : Completion JsObject :=
  let result := payload in
  if negb (typeof_number (get_property "score" result)) then
    match ToString_property Number_toString (get_property "score" result) with
    | Fulfilled s => Fulfilled (set_property "score" (JNum (or_zero (parseInt10 s))) result)
    | Rejected => Rejected
    end
  else Fulfilled result.

End GeminiAIService.

(* ===================================================================== *)
(** * The OpenAI client *)
(* ===================================================================== *)

Module OpenAIAIService.

Inductive Role := r_system | r_user | r_assistant.

Record OpenAIMessage := mkMessage { role : Role; content : string }.

Definition dquote : string := String (ascii_of_nat 34) "".

Definition InterviewType_toString (t : InterviewType) : string :=
  match t with behavioral => "behavioral" | technical => "technical" end.

(** [types.join(' and ')] *)
Definition interviewRounds (types : list InterviewType) : string :=
  join " and " (map InterviewType_toString types).

Definition systemPrompt (goal : string) (types : list InterviewType) : string :=
  "You are a friendly but professional interviewer. Your goal is to conduct a mock interview for a candidate aspiring to be a '" ++ goal ++ "'.
        The interview will cover the following rounds: " ++ interviewRounds types ++ ".
        Ask insightful questions one by one based on these topics.
        If the candidate seems to be struggling with a question, try asking a simpler follow-up question to help them demonstrate their knowledge.
        Start with an introductory question. Keep your questions concise.".

(** [startInterviewChat]: the history becomes the system message alone. *)
Definition startInterviewChat (goal : string) (types : list InterviewType)
           (messageHistory : list OpenAIMessage) : list OpenAIMessage :=
  [mkMessage r_system (systemPrompt goal types)].

(** [transcript.map(m => `${m.speaker}: ${m.text}`).join('\n')] *)
Definition transcriptText (transcript : list TranscriptMessage) : string :=
  join GeminiAIService.newline
       (map (fun m => Speaker_toString (speaker m) ++ ": " ++ text m) transcript).

Definition evaluatorPrompt : string :=
  "You are an expert interview evaluator. Your response must be a valid JSON object only, with no additional text or explanations.".

Definition evaluation_userPrompt (transcript : list TranscriptMessage)
           (goal : string) : string :=
  "Based on the following interview transcript for a candidate aspiring to be a '" ++ goal ++ "', please evaluate their performance.
        
            Transcript:
            " ++ transcriptText transcript ++ "
            
            Return a JSON object with the following keys:
            - " ++ dquote ++ "summary" ++ dquote ++ ": A brief overall summary of the candidate performance.
            - " ++ dquote ++ "knowledge" ++ dquote ++ ": Assessment of technical knowledge.
            - " ++ dquote ++ "skills" ++ dquote ++ ": Assessment of problem-solving skills.
            - " ++ dquote ++ "confidence" ++ dquote ++ ": Assessment of confidence inferred from the answers.
            - " ++ dquote ++ "communication" ++ dquote ++ ": Feedback on communication style, including clarity, filler words, and overall fluency.
            - " ++ dquote ++ "level" ++ dquote ++ ": The overall level of the candidate: 'Beginner', 'Intermediate', or 'Advanced'.".

(** The messages [generateEvaluation] hands to [getJsonResponse]. *)
Definition generateEvaluation_messages (transcript : list TranscriptMessage)
           (goal : string) : list OpenAIMessage :=
  [mkMessage r_system evaluatorPrompt;
   mkMessage r_user (evaluation_userPrompt transcript goal)].

(** What [reader.read()] delivers, already decoded to text: chunks, then
    the end of the body or a failure. *)
Inductive Reader :=
| r_done
| r_error
| r_chunk (value : string) (rest : Reader).

(** What [fetch] resolves to. *)
Inductive FetchResult :=
| fetch_rejected
| fetch_response (ok : bool) (body : option Reader).

(** What the body of the [for] loop does with one line. *)
Inductive LineAction :=
| act_break
| act_yield (content : json)
| act_skip.

(** [json.choices[0]?.delta?.content]; [Rejected] is a [TypeError]. *)
Definition delta_content (j : json) : Completion (option json) :=
  match j with
  | JNull => Rejected
  | _ =>
      match property "choices" j with
      | None | Some JNull => Rejected
      | Some choices =>
          match index0 choices with
          | None | Some JNull => Fulfilled None
          | Some first =>
              match property "delta" first with
              | None | Some JNull => Fulfilled None
              | Some delta => Fulfilled (property "content" delta)
              end
          end
      end
  end.

Section StreamNextQuestion.

(** [JSON.parse]; [None] is a [SyntaxError]. *)
Variable JSON_parse : string -> option json.
Variable Number_toString : JSNumber -> string.

Definition on_line (line : string) : LineAction :=
  if String.prefix "data: " line then
    let data := drop 6 line in
    if String.eqb (trim data) "[DONE]" then act_break
    else
      match JSON_parse data with
      | None => act_skip
      | Some j =>
          match delta_content j with
          | Fulfilled (Some content) =>
              if truthy content then act_yield content else act_skip
          | _ => act_skip
          end
      end
  else act_skip.

(** [fullResponse += content], inside the [try]: when the conversion
    of [content] to a string throws, the [catch] logs the error and
    [fullResponse] stays as it was. *)
Definition add_content (fullResponse : string) (content : json) : string :=
  match ToString Number_toString content with
  | Fulfilled s => fullResponse ++ s
  | Rejected => fullResponse
  end.

(** [for (const line of lines)], with [fullResponse] threaded through;
    [break] leaves the rest of the lines unread.  The content is yielded
    before it is added to [fullResponse]. *)
Fixpoint for_lines (lines : list string) (fullResponse : string)
  : list json * string :=
  match lines with
  | [] => ([], fullResponse)
  | line :: rest =>
      match on_line line with
      | act_break => ([], fullResponse)
      | act_yield content =>
          let '(ys, full) := for_lines rest (add_content fullResponse content) in
          (content :: ys, full)
      | act_skip => for_lines rest fullResponse
      end
  end.

(** [while (true)] over the reader: what is yielded, and the final
    [fullResponse] unless the reader failed. *)
Fixpoint read_loop (reader : Reader) (buffer fullResponse : string)
  : list json * Completion string :=
  match reader with
  | r_done => ([], Fulfilled fullResponse)
  | r_error => ([], Rejected)
  | r_chunk value rest =>
      let buffer := buffer ++ value in
      let lines := split_on (ascii_of_nat 10) buffer in
      let buffer := last lines "" in
      let lines := removelast lines in
      let '(ys, fullResponse) := for_lines lines fullResponse in
      let '(more, outcome) := read_loop rest buffer fullResponse in
      ((ys ++ more)%list, outcome)
  end.

(** A drained generator: what it yielded, whether it returned or threw,
    the messages it sent if it got to send any, and the history it left. *)
Record Drained := mkDrained {
  yielded   : list json;
  returned  : bool;
  requested : option (list OpenAIMessage);
  history   : list OpenAIMessage
}.

Definition streamNextQuestion (message : string) (net : FetchResult)
           (messageHistory : list OpenAIMessage) : Drained :=
  if length messageHistory =? 0 then mkDrained [] false None messageHistory
  else
    let messageHistory := (messageHistory ++ [mkMessage r_user message])%list in
    match net with
    | fetch_rejected => mkDrained [] false (Some messageHistory) messageHistory
    | fetch_response ok body =>
        match ok, body with
        | true, Some reader =>
            match read_loop reader "" "" with
            | (ys, Fulfilled fullResponse) =>
                mkDrained ys true (Some messageHistory)
                  (messageHistory ++ [mkMessage r_assistant fullResponse])%list
            | (ys, Rejected) => mkDrained ys false (Some messageHistory) messageHistory
            end
        | _, _ => mkDrained [] false (Some messageHistory) messageHistory
        end
    end.

End StreamNextQuestion.


(** [scoreResume] returns what [getJsonResponse] parsed, as is. *)
Definition scoreResume (payload : JsObject) : JsObject := payload.

End OpenAIAIService.

(* ===================================================================== *)
(** * components/pages/ResultsPage.tsx *)
(* ===================================================================== *)

Module ResultsPage.

Inductive Event :=
| ev_generateEvaluation (transcript : list TranscriptMessage) (goal : string)
| ev_generateRoadmap (lvl : Level) (goal : string)
| ev_consoleError (attemptNo : nat)
| ev_delay (ms : Z).

Record Component := mkComponent {
  store          : AppContext.Store;
  isLoading      : bool;
  error          : option string;
  loadingMessage : string;
  log            : list Event
}.

(** What the provider answers in attempt [k] (counted from 0). *)
Record Provider := mkProvider {
  generateEvaluation : nat -> Completion Evaluation;
  generateRoadmap    : nat -> Completion (list RoadmapDraft)
}.

Definition emit (e : Event) (c : Component) : Component :=
  mkComponent (store c) (isLoading c) (error c) (loadingMessage c) (log c ++ [e])%list.

Definition setIsLoading (b : bool) (c : Component) : Component :=
  mkComponent (store c) b (error c) (loadingMessage c) (log c).

Definition setError (e : option string) (c : Component) : Component :=
  mkComponent (store c) (isLoading c) e (loadingMessage c) (log c).

Definition setLoadingMessage (m : string) (c : Component) : Component :=
  mkComponent (store c) (isLoading c) (error c) m (log c).

Definition with_store (f : AppContext.Store -> AppContext.Store) (c : Component)
  : Component :=
  mkComponent (f (store c)) (isLoading c) (error c) (loadingMessage c) (log c).

Definition analyzingMessage : string := "Analyzing your interview performance...".
Definition creatingMessage : string := "Creating your personalized learning roadmap...".
Definition noDataMessage : string :=
  "No interview data found. Please start a new interview.".
Definition failureMessage : string :=
  "I'm sorry, I encountered an issue while generating your results. This can happen due to a temporary connection problem. Please try starting a new interview.".

(** [`There was a temporary issue. Retrying in ${delay / 1000} seconds...`] *)
Definition retryingMessage (delay : Z) : string :=
  "There was a temporary issue. Retrying in " ++ integer_toString (delay / 1000)%Z
  ++ " seconds...".

(** On mount: [isLoading = true], no error, the first loading message. *)
Definition mount (st : AppContext.Store) : Component :=
  mkComponent st true None analyzingMessage [].

(** The [try] block of one attempt.  [transcript] and [usr] are the
    values captured by the closure when the effect ran. *)
Definition attempt_body (provider : Provider) (Date_now : nat -> Z)
           (transcript : list TranscriptMessage) (usr : User)
           (attempt : nat) (c : Component) : Completion unit * Component :=
  let c := setIsLoading true c in
  let c := setError None c in
  let c := setLoadingMessage analyzingMessage c in
  let c := emit (ev_generateEvaluation transcript (goal usr)) c in
  match generateEvaluation provider attempt with
  | Rejected => (Rejected, c)
  | Fulfilled evalResult =>
      let c := with_store (AppContext.setEvaluation (Some evalResult)) c in
      let c := setLoadingMessage creatingMessage c in
      let c := emit (ev_generateRoadmap (level evalResult) (goal usr)) c in
      match generateRoadmap provider attempt with
      | Rejected => (Rejected, c)
      | Fulfilled roadmapResult =>
          let c := with_store (AppContext.setRoadmap Date_now roadmapResult) c in
          let c := setIsLoading false c in
          (Fulfilled tt, c)
      end
  end.

(** The [while (attempt <= maxRetries)] loop, unrolled under [fuel]. *)
Fixpoint fetchResults_loop (fuel : nat) (provider : Provider) (Date_now : nat -> Z)
         (transcript : list TranscriptMessage) (usr : User)
         (attempt : nat) (c : Component) : option Component :=
  match fuel with
  | O => None
  | S fuel =>
      if (attempt <=? maxRetries)%nat then
        match attempt_body provider Date_now transcript usr attempt c with
        | (Fulfilled _, c) => Some c
        | (Rejected, c) =>
            let c := emit (ev_consoleError (attempt + 1)) c in
            let attempt := attempt + 1 in
            if (maxRetries <? attempt)%nat then
              let c := setError (Some failureMessage) c in
              let c := setIsLoading false c in
              fetchResults_loop fuel provider Date_now transcript usr attempt c
            else
              let delay := backoff_delay attempt in
              let c := setLoadingMessage (retryingMessage delay) c in
              let c := emit (ev_delay delay) c in
              fetchResults_loop fuel provider Date_now transcript usr attempt c
        end
      else Some c
  end.

Definition fetchResults (provider : Provider) (Date_now : nat -> Z) (c : Component)
  : option Component :=
  match AppContext.user_ (store c), AppContext.transcript (store c) with
  | None, _ | _, [] =>
      Some (setIsLoading false (setError (Some noDataMessage) c))
  | Some usr, (_ :: _) as transcript =>
      fetchResults_loop (maxRetries + 2) provider Date_now transcript usr 0 c
  end.

(** The effect: [if (!evaluation) fetchResults(); else setIsLoading(false)]. *)
Definition runResultsPipeline (provider : Provider) (Date_now : nat -> Z)
           (c : Component) : option Component :=
  match AppContext.evaluation (store c) with
  | None => fetchResults provider Date_now c
  | Some _ => Some (setIsLoading false c)
  end.

(** What the page renders, in the order of the early returns. *)
Inductive View :=
| v_spinner (message : string)
| v_error (message : string)
| v_nothing
| v_results (e : Evaluation) (r : list RoadmapItem).

Definition render (c : Component) : View :=
  if isLoading c then v_spinner (loadingMessage c)
  else match error c with
       | Some e => v_error e
       | None =>
           match AppContext.evaluation (store c) with
           | None => v_nothing
           | Some e => v_results e (AppContext.roadmap (store c))
           end
       end.

(** Log projections. *)
Definition is_evaluation_call (e : Event) : bool :=
  match e with ev_generateEvaluation _ _ => true | _ => false end.

Definition is_roadmap_call (e : Event) : bool :=
  match e with ev_generateRoadmap _ _ => true | _ => false end.

Definition is_provider_call (e : Event) : bool :=
  is_evaluation_call e || is_roadmap_call e.

Definition evaluation_calls (l : list Event) : nat :=
  length (filter is_evaluation_call l).

Definition roadmap_calls (l : list Event) : nat :=
  length (filter is_roadmap_call l).

(** Whether attempt [k] of the pipeline goes through. *)
Definition attempt_succeeds (provider : Provider) (k : nat) : bool :=
  match generateEvaluation provider k, generateRoadmap provider k with
  | Fulfilled _, Fulfilled _ => true
  | _, _ => false
  end.

End ResultsPage.

(* ===================================================================== *)
(** * Vocabulary of the statements *)
(* ===================================================================== *)

Definition is_digit (c : ascii) : bool :=
  let n := nat_of_ascii c in ((48 <=? n) && (n <=? 57))%nat.

Fixpoint all_digits (s : string) : bool :=
  match s with
  | EmptyString => true
  | String c rest => is_digit c && all_digits rest
  end.

(** The store after the user toggled the listed items, in order. *)
Definition after_toggles (ids : list string) (s : AppContext.Store) : AppContext.Store :=
  fold_left (fun s i => AppContext.toggleTodo i s) ids s.

(** Two items that agree on every field except, possibly, [completed]. *)
Definition same_but_completed (a b : RoadmapItem) : Prop :=
  id a = id b /\ title a = title b /\ description a = description b /\
  keyConcepts a = keyConcepts b /\ project a = project b /\
  resources a = resources b.

(** How [toggleTodo id0] may relate an item to its successor. *)
Definition toggled_as (id0 : string) (before after : RoadmapItem) : Prop :=
  if String.eqb (id before) id0
  then same_but_completed before after /\ completed after = negb (completed before)
  else after = before.

Definition matching (id0 : string) (r : list RoadmapItem) : list RoadmapItem :=
  filter (fun it => String.eqb (id it) id0) r.

(** Closed forms of the three ways an attempt of [getNextAiMessage] ends. *)
Module Turn.
Import InterviewPage.

(** The consumer's calls of [setCurrentAiResponse], one per running total. *)
Definition surface (totals : list string) (c : Component) : Component :=
  fold_left (fun c s => setCurrentAiResponse s c) totals c.

(** The state once the stream of attempt [k] has been consumed. *)
Definition consumed (provider : nat -> Stream) (message : string) (k : nat)
           (c : Component) : Component :=
  surface (running (fragments (provider k))) (emit (ev_streamNextQuestion message) c).

Definition succeeded (fullText : string) (c : Component) : Component :=
  speak fullText cb_setStatus_idle
    (setStatus speaking
       (setCurrentAiResponse ""
          (addMessageToTranscript (mkMsg ai fullText None) c))).

Definition retried (attempt : nat) (c : Component) : Component :=
  emit (ev_delay (backoff_delay attempt))
    (setCurrentAiResponse retryNotice (emit (ev_consoleError attempt) c)).

Definition exhausted (attempt : nat) (c : Component) : Component :=
  speak errorMessage cb_setPage_results
    (setCurrentAiResponse ""
       (addMessageToTranscript (mkMsg ai errorMessage None)
          (emit (ev_consoleError attempt) c))).

(** The state in which attempt [k] starts when every earlier attempt failed. *)
Fixpoint before_attempt (provider : nat -> Stream) (message : string) (k : nat)
         (c : Component) : Component :=
  match k with
  | O => c
  | S j => retried (S j) (consumed provider message j
                            (before_attempt provider message j c))
  end.

End Turn.

(** [needle] occurs in [hay]. *)
Definition contains (needle hay : string) : Prop :=
  exists before after, hay = before ++ needle ++ after.

(** The line [generateEvaluation] writes for a message. *)
Definition transcript_line (m : TranscriptMessage) : string :=
  Speaker_toString (speaker m) ++ ": " ++ text m ++ GeminiAIService.newline.

(** The order of attempts and awaited delays in a retry loop. *)
Inductive Tick :=
| tick_attempt
| tick_wait (ms : Z).

(** An attempt of a conversational turn starts with its
    [streamNextQuestion] call. *)
Fixpoint turn_timeline (l : list InterviewPage.Event) : list Tick :=
  match l with
  | [] => []
  | InterviewPage.ev_streamNextQuestion _ :: l => tick_attempt :: turn_timeline l
  | InterviewPage.ev_delay ms :: l => tick_wait ms :: turn_timeline l
  | _ :: l => turn_timeline l
  end.

(** An attempt of the results pipeline starts with its
    [generateEvaluation] call. *)
Fixpoint pipeline_timeline (l : list ResultsPage.Event) : list Tick :=
  match l with
  | [] => []
  | ResultsPage.ev_generateEvaluation _ _ :: l => tick_attempt :: pipeline_timeline l
  | ResultsPage.ev_delay ms :: l => tick_wait ms :: pipeline_timeline l
  | _ :: l => pipeline_timeline l
  end.

(** Attempts needed when attempt [k] goes through iff [ok k]: the first
    success within [maxRetries + 1] attempts, or all of them. *)
Definition attempts_needed (ok : nat -> bool) : nat :=
  if ok 0 then 1 else if ok 1 then 2 else 3.

(** The schedule of a run that needs [n] attempts: wait 2 s before the
    second attempt, 4 s before the third. *)
Definition schedule (n : nat) : list Tick :=
  firstn (2 * n - 1)
         [tick_attempt; tick_wait 2000; tick_attempt; tick_wait 4000; tick_attempt].

(** The evaluation requests found in a log all carry a non-empty transcript. *)
Definition evaluates_nonempty (l : list ResultsPage.Event) : Prop :=
  Forall (fun e => match e with
                   | ResultsPage.ev_generateEvaluation t _ => t <> []
                   | _ => True
                   end) l.

(** The latest evaluation a run of the pipeline stored: that of the last
    attempt, among the first [n], whose [generateEvaluation] fulfilled. *)
Fixpoint last_evaluation (p : ResultsPage.Provider) (n : nat)
         (start : option Evaluation) : option Evaluation :=
  match n with
  | O => start
  | S k =>
      match ResultsPage.generateEvaluation p k with
      | Fulfilled e => Some e
      | Rejected => last_evaluation p k start
      end
  end.

(** Sample data for the worked runs. *)
Module Sample.

Definition candidate : User := mkUser "Asha" "Data Analyst".

Definition opening : TranscriptMessage :=
  mkMsg ai "Tell me about a dataset you cleaned." None.

Definition reply : TranscriptMessage :=
  mkMsg user "I removed duplicate rows from a sales table."
        (Some "data:image/jpeg;base64,QUJD").

Definition evaluation0 : Evaluation :=
  mkEvaluation "Solid basics." "Knows SQL." "Structured." "Calm." "Clear." Intermediate.

Definition draft0 : RoadmapDraft :=
  mkDraft "Window functions" "Ranking and running totals." ["RANK"; "LAG"]
          "Build a cohort report." [mkResource docs "PostgreSQL manual" "https://www.postgresql.org/docs/"].

(** The store when the results page opens after one exchange. *)
Definition interviewed : AppContext.Store :=
  AppContext.mkStore results (Some candidate) [technical] [opening; reply] None [].

(** The store when the interview page opens. *)
Definition started : AppContext.Store :=
  AppContext.startInterview "Asha" "Data Analyst" [technical] AppContext.initial.

(** The store once results have been produced. *)
Definition evaluated : AppContext.Store :=
  AppContext.setEvaluation (Some evaluation0) interviewed.

Definition clock (_ : nat) : Z := 1700000000000%Z.

(** Evaluation always answers; the roadmap request always fails. *)
Definition roadmap_down : ResultsPage.Provider :=
  ResultsPage.mkProvider (fun _ => Fulfilled evaluation0) (fun _ => Rejected).

(** Both requests fail twice, then answer. *)
Definition recovers_third : ResultsPage.Provider :=
  ResultsPage.mkProvider
    (fun k => if k <? 2 then Rejected else Fulfilled evaluation0)
    (fun k => if k <? 2 then Rejected else Fulfilled [draft0]).

(** Evaluation fails once; from then on it answers while the roadmap
    request fails once more. *)
Definition staggered : ResultsPage.Provider :=
  ResultsPage.mkProvider
    (fun k => if k <? 1 then Rejected else Fulfilled evaluation0)
    (fun k => if k <? 2 then Rejected else Fulfilled [draft0]).

(** A stream that fails after one fragment, then one that completes. *)
Definition flaky_then_fine (k : nat) : InterviewPage.Stream :=
  match k with
  | O => InterviewPage.s_yield "Tell" InterviewPage.s_throw
  | _ => InterviewPage.s_yield "Tell me "
           (InterviewPage.s_yield "about "
              (InterviewPage.s_yield "yourself." InterviewPage.s_done))
  end.

(** Every stream fails at once. *)
Definition unreachable (_ : nat) : InterviewPage.Stream := InterviewPage.s_throw.

End Sample.

(** How many messages of a transcript a speaker contributed. *)
Definition spoken_by (sp : Speaker) (t : list TranscriptMessage) : nat :=
  length (filter (fun m => Speaker_eqb (speaker m) sp) t).

(** What holds in every state of an interview that started on an empty
    transcript. *)
Record turn_taking (s : InterviewPage.Session) : Prop := mk_turn_taking {
  tt_balance :
    spoken_by ai (InterviewPage.transcript (InterviewPage.comp s))
    + length (InterviewPage.inflight s)
    <= 1 + spoken_by user (InterviewPage.transcript (InterviewPage.comp s));
  tt_empty :
    InterviewPage.transcript (InterviewPage.comp s) = [] ->
    InterviewPage.status (InterviewPage.comp s) = InterviewPage.thinking
    /\ InterviewPage.isListening (InterviewPage.comp s) = false
    /\ InterviewPage.isSpeaking (InterviewPage.comp s) = false;
  tt_first :
    forall m rest,
      InterviewPage.transcript (InterviewPage.comp s) = m :: rest ->
      speaker m = ai;
  tt_second :
    forall m r rest,
      InterviewPage.transcript (InterviewPage.comp s) = m :: r :: rest ->
      speaker r = user
}.

(** Provider answers for the resume check. *)
Module Payload.

(** The rendering of numbers plays no part when the score is a string. *)
Definition any_rendering (_ : JSNumber) : string := "".

(** [{"score":"82","strengths":"...","weaknesses":"..."}] *)
Definition score_string_82 : JsObject :=
  [("score", JStr "82"); ("strengths", JStr "..."); ("weaknesses", JStr "...")].



(** [{"score":"high","strengths":"...","weaknesses":"..."}] *)
Definition score_string_high : JsObject :=
  [("score", JStr "high"); ("strengths", JStr "..."); ("weaknesses", JStr "...")].

End Payload.

(** The state left by an opening turn that ran out of attempts: the
    closing line is the only message, the status is still ['thinking'],
    capture is off and no turn is running. *)
Record stalled (s : InterviewPage.Session) : Prop := mk_stalled {
  st_transcript :
    InterviewPage.transcript (InterviewPage.comp s)
    = [mkMsg ai InterviewPage.errorMessage None];
  st_status : InterviewPage.status (InterviewPage.comp s) = InterviewPage.thinking;
  st_capture : InterviewPage.isListening (InterviewPage.comp s) = false;
  st_callback :
    InterviewPage.onSpeechEnd (InterviewPage.comp s)
    <> Some InterviewPage.cb_setStatus_idle;
  st_inflight : InterviewPage.inflight s = []
}.

(* ===================================================================== *)
(** * components/pages/SetupPage.tsx *)
(* ===================================================================== *)

Definition InterviewType_eqb (a b : InterviewType) : bool :=
  match a, b with
  | behavioral, behavioral | technical, technical => true
  | _, _ => false
  end.

Module SetupPage.

(** The [useState] cells of the form. *)
Record Form := mkForm {
  form_name     : string;
  form_goal     : string;
  selectedTypes : list InterviewType
}.

(** [prev.includes(type)] *)
Definition includes (type : InterviewType) (prev : list InterviewType) : bool :=
  existsb (InterviewType_eqb type) prev.

(** [prev.includes(type) ? prev.filter(t => t !== type) : [...prev, type]] *)
Definition toggle_selection (type : InterviewType) (prev : list InterviewType)
  : list InterviewType :=
  if includes type prev
  then filter (fun t => negb (InterviewType_eqb t type)) prev
  else (prev ++ [type])%list.

Definition handleCheckboxChange (type : InterviewType) (f : Form) : Form :=
  mkForm (form_name f) (form_goal f) (toggle_selection type (selectedTypes f)).

(** [name.trim() !== '' && goal.trim() !== '' && selectedTypes.length > 0] *)
Definition canStart (f : Form) : bool :=
  negb (String.eqb (trim (form_name f)) "")
  && negb (String.eqb (trim (form_goal f)) "")
  && (0 <? length (selectedTypes f)).

Definition handleSubmit (f : Form) (s : AppContext.Store) : AppContext.Store :=
  if canStart f
  then AppContext.startInterview (form_name f) (form_goal f) (selectedTypes f) s
  else s.

End SetupPage.

(** The selection after the listed boxes were clicked, in order. *)
Definition after_clicks (clicks : list InterviewType) (sel : list InterviewType)
  : list InterviewType :=
  fold_left (fun sel t => SetupPage.toggle_selection t sel) clicks sel.

Definition clicks_on (t : InterviewType) (clicks : list InterviewType) : nat :=
  length (filter (InterviewType_eqb t) clicks).

(** A string of white space only. *)
Fixpoint blank (s : string) : bool :=
  match s with
  | EmptyString => true
  | String c rest => is_whitespace c && blank rest
  end.

(** The texts a log hands to [speak]. *)
Fixpoint spoken (l : list InterviewPage.Event) : list string :=
  match l with
  | [] => []
  | InterviewPage.ev_speak txt _ :: l => txt :: spoken l
  | _ :: l => spoken l
  end.

(** Interviewer messages carry no image. *)
Definition no_interviewer_image (t : list TranscriptMessage) : Prop :=
  Forall (fun m => speaker m = ai -> image m = None) t.

(** An interview page on which nothing can be said any more: the
    transcript is [t], no turn is running, nothing was ever requested,
    capture and playback are off, and either the status is ['thinking']
    or the Finish button, which takes a transcript of two messages or
    more, has set it to ['finished'] and left the page. *)
Record silent (t : list TranscriptMessage) (s : InterviewPage.Session) : Prop :=
  mk_silent {
  si_transcript : InterviewPage.transcript (InterviewPage.comp s) = t;
  si_inflight : InterviewPage.inflight s = [];
  si_requests : turn_timeline (InterviewPage.log (InterviewPage.comp s)) = [];
  si_capture : InterviewPage.isListening (InterviewPage.comp s) = false;
  si_playback : InterviewPage.isSpeaking (InterviewPage.comp s) = false;
  si_blocked :
    InterviewPage.status (InterviewPage.comp s) = InterviewPage.thinking
    \/ (InterviewPage.status (InterviewPage.comp s) = InterviewPage.finished
        /\ InterviewPage.on_interview_page (InterviewPage.comp s) = false
        /\ 2 <= length t)
}.

(** A string without a comma. *)
Fixpoint comma_free (s : string) : bool :=
  match s with
  | EmptyString => true
  | String c rest => negb (Ascii.eqb c ",") && comma_free rest
  end.

(** The base64 payload [generateEvaluation] takes from a message, if any. *)
Definition image_payload (m : TranscriptMessage) : option string :=
  match speaker m, image m with
  | user, Some img =>
      if GeminiAIService.truthy_string img then
        match nth_error (GeminiAIService.split_comma img) 1 with
        | Some b => if GeminiAIService.truthy_string b then Some b else None
        | None => None
        end
      else None
  | _, _ => None
  end.

Definition payloads (t : list TranscriptMessage) : list string :=
  flat_map (fun m => match image_payload m with Some b => [b] | None => [] end) t.

(** Whether a string begins with a decimal digit. *)
Definition starts_with_digit (s : string) : bool :=
  match s with
  | String c _ => is_digit c
  | EmptyString => false
  end.

(** Vocabulary for the server-sent-event stream of the OpenAI client. *)
Section EventStream.

Variable JSON_parse : string -> option json.

Definition line_feed : ascii := ascii_of_nat 10.

(** The lines of a text that are closed by a line feed, and the open
    line after the last line feed. *)
Definition complete_lines (txt : string) : list string :=
  removelast (split_on line_feed txt).

Definition open_line (txt : string) : string :=
  last (split_on line_feed txt) "".

(** What a line contributes when it is read. *)
Definition line_yield (line : string) : list json :=
  match OpenAIAIService.on_line JSON_parse line with
  | OpenAIAIService.act_yield content => [content]
  | _ => []
  end.

Definition is_done (line : string) : bool :=
  match OpenAIAIService.on_line JSON_parse line with
  | OpenAIAIService.act_break => true
  | _ => false
  end.

(** No line after a [[DONE]] line carries content. *)
Fixpoint quiet_after_done (lines : list string) : Prop :=
  match lines with
  | [] => True
  | line :: rest =>
      if is_done line then Forall (fun l => line_yield l = []) rest
      else quiet_after_done rest
  end.

End EventStream.

(** The whole text a reader delivers. *)
Fixpoint reader_text (r : OpenAIAIService.Reader) : string :=
  match r with
  | OpenAIAIService.r_chunk value rest => value ++ reader_text rest
  | _ => ""
  end.

(** Whether a reader reaches the end of the body. *)
Fixpoint reader_ends (r : OpenAIAIService.Reader) : bool :=
  match r with
  | OpenAIAIService.r_done => true
  | OpenAIAIService.r_error => false
  | OpenAIAIService.r_chunk _ rest => reader_ends rest
  end.

(** Whether the generator gets to read the body to its end. *)
Definition delivers (net : OpenAIAIService.FetchResult) : bool :=
  match net with
  | OpenAIAIService.fetch_response true (Some reader) => reader_ends reader
  | _ => false
  end.

(** A string in which the separator does not occur. *)
Fixpoint free_of (sep : ascii) (s : string) : bool :=
  match s with
  | EmptyString => true
  | String c rest => negb (Ascii.eqb c sep) && free_of sep rest
  end.

(** The history after the listed turns, each drained in order. *)
Definition after_turns (JSON_parse : string -> option json)
           (Number_toString : JSNumber -> string)
           (turns : list (string * OpenAIAIService.FetchResult))
           (h : list OpenAIAIService.OpenAIMessage)
  : list OpenAIAIService.OpenAIMessage :=
  fold_left
    (fun h turn =>
       OpenAIAIService.history
         (OpenAIAIService.streamNextQuestion JSON_parse Number_toString
            (fst turn) (snd turn) h))
    turns h.

Definition is_user_message (m : OpenAIAIService.OpenAIMessage) : bool :=
  match OpenAIAIService.role m with
  | OpenAIAIService.r_user => true
  | _ => false
  end.

(** A parser that knows two frames of a stream, for the worked runs. *)
Definition frame_hel : string :=
  "{" ++ OpenAIAIService.dquote ++ "choices" ++ OpenAIAIService.dquote ++ ":1}".

Definition frame_lo : string :=
  "{" ++ OpenAIAIService.dquote ++ "choices" ++ OpenAIAIService.dquote ++ ":2}".

Definition delta_frame (txt : string) : json :=
  JObj [("choices", JArr [JObj [("delta", JObj [("content", JStr txt)])]])].

Definition two_frames (s : string) : option json :=
  if String.eqb s frame_hel then Some (delta_frame "Hel")
  else if String.eqb s frame_lo then Some (delta_frame "lo")
  else None.

(* ===================================================================== *)
(** * components/pages/ResumeCheckerPage.tsx *)
(* ===================================================================== *)

Module ResumeCheckerPage.

(** The [useState] cells of the page, and the number of requests made. *)
Record Component := mkComponent {
  resume         : string;
  jobDescription : string;
  result         : option JsObject;
  isLoading      : bool;
  error          : option string;
  requests       : nat
}.

(** What the provider does with a request: it answers with an object, or
    the call rejects with a value whose [message] may be missing. *)
Inductive Answer :=
| answered (payload : JsObject)
| failed (message : option string).

Definition defaultError : string :=
  "Sorry, an error occurred while analyzing. Please try again.".

(** [resume.trim() !== '' && jobDescription.trim() !== ''] *)
Definition canSubmit (c : Component) : bool :=
  negb (String.eqb (trim (resume c)) "")
  && negb (String.eqb (trim (jobDescription c)) "").

(** [err.message || "Sorry, ..."] *)
Definition error_text (message : option string) : string :=
  match message with
  | Some m => if GeminiAIService.truthy_string m then m else defaultError
  | None => defaultError
  end.

(** [handleSubmit], with [aiService] the Gemini client.
    [TypeError_message] is the [message] the engine gives the [TypeError]
    that the score coercion can throw; it may be empty. *)
Definition handleSubmit (Number_toString : JSNumber -> string)
           (TypeError_message : string) (answer : Answer)
           (c : Component) : Component :=
  if negb (canSubmit c) then c
  else
    (* setIsLoading(true); setError(null); setResult(null); *)
    let requests := S (requests c) in
    let awaited :=
      match answer with
      | answered payload =>
          match GeminiAIService.scoreResume Number_toString payload with
          | Fulfilled analysis => inl analysis
          | Rejected => inr (Some TypeError_message)
          end
      | failed message => inr message
      end in
    match awaited with
    | inl analysis =>
        mkComponent (resume c) (jobDescription c) (Some analysis) false None requests
    | inr message =>
        mkComponent (resume c) (jobDescription c)
                    None false (Some (error_text message)) requests
    end.

End ResumeCheckerPage.

(** The digit 9 written [n] times. *)
Fixpoint nines (n : nat) : string :=
  match n with
  | O => ""
  | S n => String "9" (nines n)
  end.

(** More sample data for the worked runs. *)
Module Sample2.

Definition with_roadmap : AppContext.Store :=
  AppContext.setRoadmap Sample.clock [Sample.draft0] AppContext.initial.

Definition valid_form : SetupPage.Form :=
  SetupPage.mkForm "Asha" " Data Analyst " [technical].

(** The body of a reply in two frames, closed by the [[DONE]] frame. *)
Definition body : string :=
  "data: " ++ frame_hel ++ GeminiAIService.newline ++ GeminiAIService.newline
  ++ "data: " ++ frame_lo ++ GeminiAIService.newline ++ GeminiAIService.newline
  ++ "data: [DONE]" ++ GeminiAIService.newline ++ GeminiAIService.newline.

Definition in_one_chunk : OpenAIAIService.Reader :=
  OpenAIAIService.r_chunk body OpenAIAIService.r_done.

(** The same text, cut inside the first line and inside the second. *)
Definition in_three_chunks : OpenAIAIService.Reader :=
  OpenAIAIService.r_chunk "data: {"
    (OpenAIAIService.r_chunk
       (drop 7 ("data: " ++ frame_hel) ++ GeminiAIService.newline
        ++ GeminiAIService.newline ++ "data: ")
       (OpenAIAIService.r_chunk
          (frame_lo ++ GeminiAIService.newline ++ GeminiAIService.newline
           ++ "data: [DONE]" ++ GeminiAIService.newline ++ GeminiAIService.newline)
          OpenAIAIService.r_done)).

Definition chat_started : list OpenAIAIService.OpenAIMessage :=
  OpenAIAIService.startInterviewChat "Data Analyst" [technical] [].

Definition score_of_100 : JsObject :=
  [("score", JStr " 85/100"); ("strengths", JStr "..."); ("weaknesses", JStr "...")].

(** [{"score":{},...}] and [{"score":{"toString":null},...}] *)
Definition score_plain_object : JsObject :=
  [("score", JObj []); ("strengths", JStr "..."); ("weaknesses", JStr "...")].

Definition score_own_toString : JsObject :=
  [("score", JObj [("toString", JNull)]); ("strengths", JStr "...");
   ("weaknesses", JStr "...")].

(** A store whose transcript was not cleared and ends with the
    interviewer, long enough for the Finish button. *)
Definition stale_long : AppContext.Store :=
  AppContext.mkStore interview (Some Sample.candidate) [technical]
                     [Sample.opening; Sample.reply; Sample.opening] None [].

Definition filled_in : ResumeCheckerPage.Component :=
  ResumeCheckerPage.mkComponent "Five years of SQL." "Data analyst, SQL." None false
                                None 0.

End Sample2.


(* ===================================================================== *)
(** * Properties *)
(* ===================================================================== *)

(** ** Strings *)

Lemma append_assoc (a b c : string) : (a ++ b) ++ c = a ++ (b ++ c).
Proof. induction a as [|x a IH]; simpl; [reflexivity | now rewrite IH]. Qed.

Lemma append_nil_r (a : string) : a ++ "" = a.
Proof. induction a as [|x a IH]; simpl; [reflexivity | now rewrite IH]. Qed.

Lemma string_of_uint_digits (d : Decimal.uint) :
  all_digits (NilEmpty.string_of_uint d) = true.
Proof. induction d; simpl; auto. Qed.

Lemma index_toString_digits (i : nat) : all_digits (index_toString i) = true.
Proof.
  unfold index_toString, NilZero.string_of_uint.
  destruct (Nat.to_uint i); try reflexivity; apply string_of_uint_digits.
Qed.

Lemma to_uint_not_Nil (i : nat) : Nat.to_uint i <> Decimal.Nil.
Proof.
  rewrite <- (DecimalNat.Unsigned.of_to i) at 1.
  rewrite DecimalNat.Unsigned.to_of.
  unfold Decimal.unorm. now destruct (Decimal.nzhead (Nat.to_uint i)).
Qed.

Lemma index_toString_inj (i j : nat) :
  index_toString i = index_toString j -> i = j.
Proof.
  unfold index_toString. intros E.
  apply DecimalNat.Unsigned.to_uint_inj.
  assert (H : NilZero.uint_of_string (NilZero.string_of_uint (Nat.to_uint i))
              = NilZero.uint_of_string (NilZero.string_of_uint (Nat.to_uint j)))
    by now rewrite E.
  rewrite !NilZero.usu in H by apply to_uint_not_Nil.
  congruence.
Qed.

(** A run of digits is delimited by the first character that is not one. *)
Lemma digits_then_dash_inj (a b x y : string) :
  all_digits a = true -> all_digits b = true ->
  a ++ String "-" x = b ++ String "-" y -> a = b.
Proof.
  revert b. induction a as [|c a IH]; intros [|c' b]; simpl; intros Ha Hb E.
  - reflexivity.
  - injection E as E1 _. subst c'. discriminate.
  - injection E as E1 _. subst c. discriminate.
  - apply andb_prop in Ha as [_ Ha]. apply andb_prop in Hb as [_ Hb].
    injection E as E1 E2. subst c'. f_equal. eauto.
Qed.

(** ** The roadmap store *)

Lemma todo_id_inj (i j : nat) (t t' : Z) :
  AppContext.todo_id i t = AppContext.todo_id j t' -> i = j.
Proof.
  unfold AppContext.todo_id. simpl. intros E.
  injection E as E.
  apply index_toString_inj.
  eapply digits_then_dash_inj; eauto using index_toString_digits.
Qed.

Lemma map_indexed_ids (Date_now : nat -> Z) (l : list RoadmapDraft) :
  forall k x,
    In x (map id (AppContext.map_indexed Date_now k l)) ->
    exists j, k <= j /\ x = AppContext.todo_id j (Date_now j).
Proof.
  induction l as [|d l IH]; simpl; intros k x H; [contradiction|].
  destruct H as [<- | H].
  - exists k. split; [lia | reflexivity].
  - apply IH in H as (j & Hj & ->). exists j. split; [lia | reflexivity].
Qed.

Lemma map_indexed_NoDup (Date_now : nat -> Z) (l : list RoadmapDraft) :
  forall k, NoDup (map id (AppContext.map_indexed Date_now k l)).
Proof.
  induction l as [|d l IH]; simpl; intros k; constructor.
  - intros H. apply map_indexed_ids in H as (j & Hj & E).
    apply todo_id_inj in E. lia.
  - apply IH.
Qed.

Lemma map_indexed_fresh (Date_now : nat -> Z) (l : list RoadmapDraft) :
  forall k, Forall (fun it => completed it = false)
                   (AppContext.map_indexed Date_now k l).
Proof. induction l; simpl; intros; constructor; auto. Qed.

Lemma map_indexed_length (Date_now : nat -> Z) (l : list RoadmapDraft) :
  forall k, length (AppContext.map_indexed Date_now k l) = length l.
Proof. induction l; simpl; intros; auto. Qed.

Lemma toggleItem_id (id0 : string) (it : RoadmapItem) :
  id (AppContext.toggleItem id0 it) = id it.
Proof. unfold AppContext.toggleItem. now destruct (String.eqb _ _). Qed.

Lemma toggleTodo_list_ids (id0 : string) (r : list RoadmapItem) :
  map id (AppContext.toggleTodo_list id0 r) = map id r.
Proof.
  unfold AppContext.toggleTodo_list. rewrite map_map.
  apply map_ext, toggleItem_id.
Qed.

Lemma after_toggles_ids (ids : list string) :
  forall s, map id (AppContext.roadmap (after_toggles ids s))
            = map id (AppContext.roadmap s).
Proof.
  induction ids as [|i ids IH]; simpl; intros s; [reflexivity|].
  rewrite IH. simpl. apply toggleTodo_list_ids.
Qed.

Lemma toggleTodo_list_frame (id0 : string) (r : list RoadmapItem) :
  Forall2 (toggled_as id0) r (AppContext.toggleTodo_list id0 r).
Proof.
  induction r as [|it r IH]; simpl; constructor; auto.
  unfold toggled_as, AppContext.toggleItem.
  destruct (String.eqb (id it) id0); [|reflexivity].
  simpl. unfold same_but_completed. simpl. intuition.
Qed.

Lemma NoDup_matching (id0 : string) (r : list RoadmapItem) :
  NoDup (map id r) -> length (matching id0 r) <= 1.
Proof.
  induction r as [|it r IH]; simpl; intros H; [lia|].
  inversion H as [|? ? Hnotin Hnd]; subst.
  destruct (String.eqb_spec (id it) id0) as [E|E]; simpl; auto.
  assert (matching id0 r = []) as ->; [|simpl; lia].
  unfold matching. clear IH H Hnd.
  induction r as [|x r IHr]; simpl; [reflexivity|].
  destruct (String.eqb_spec (id x) id0) as [Ex|Ex].
  - exfalso. apply Hnotin. left. congruence.
  - apply IHr. intros Hin. apply Hnotin. now right.
Qed.

(** C9.  A roadmap stored by [setRoadmap] has pairwise distinct
    identifiers and every item not completed.  After any number of
    toggles the identifiers are still the ones assigned at creation, and
    a further [toggleTodo id0] relates the roadmap item by item: an item
    whose identifier is [id0] keeps every field but [completed], which is
    negated; every other item is left as it was; at most one item carries
    [id0]; and nothing else in the store changes. *)
Theorem roadmap_ids_unique_toggle_frame :
  forall (Date_now : nat -> Z) (newRoadmap : list RoadmapDraft)
         (st : AppContext.Store) (toggles : list string) (id0 : string),
    let created := AppContext.setRoadmap Date_now newRoadmap st in
    let before := after_toggles toggles created in
    let after := AppContext.toggleTodo id0 before in
    NoDup (map id (AppContext.roadmap created)) /\
    Forall (fun it => completed it = false) (AppContext.roadmap created) /\
    length (AppContext.roadmap created) = length newRoadmap /\
    map id (AppContext.roadmap before) = map id (AppContext.roadmap created) /\
    Forall2 (toggled_as id0) (AppContext.roadmap before) (AppContext.roadmap after) /\
    length (matching id0 (AppContext.roadmap before)) <= 1 /\
    AppContext.transcript after = AppContext.transcript before /\
    AppContext.evaluation after = AppContext.evaluation before.
Proof.
  intros Date_now newRoadmap st toggles id0 created before after.
  assert (Hnd : NoDup (map id (AppContext.roadmap created)))
    by apply map_indexed_NoDup.
  assert (Hids : map id (AppContext.roadmap before)
                 = map id (AppContext.roadmap created))
    by apply after_toggles_ids.
  repeat split.
  - exact Hnd.
  - apply map_indexed_fresh.
  - apply map_indexed_length.
  - exact Hids.
  - apply toggleTodo_list_frame.
  - apply NoDup_matching. now rewrite Hids.
Qed.

(** Two items, created in the same millisecond; the second one is toggled. *)
Example roadmap_toggle_example :
  let drafts := [mkDraft "SQL" "joins" ["join"] "p1" [];
                 mkDraft "Stats" "tests" ["t-test"] "p2" []] in
  let created := AppContext.setRoadmap (fun _ => 1700000000000%Z) drafts
                                       AppContext.initial in
  map id (AppContext.roadmap created) = ["todo-0-1700000000000"; "todo-1-1700000000000"]
  /\ map completed (AppContext.roadmap
                      (AppContext.toggleTodo "todo-1-1700000000000" created))
     = [false; true].
Proof. vm_compute. split; reflexivity. Qed.

(** ** The streaming consumer and the conversational retry loop *)

Section Interview.
Import InterviewPage Turn.

Lemma processStream_from_spec (stream : Stream) :
  forall acc c,
    processStream_from acc stream c
    = (if drains stream then Fulfilled (acc ++ concat_all (fragments stream))
       else Rejected,
       surface (running_from acc (fragments stream)) c).
Proof.
  induction stream as [| |chunk rest IH]; intros acc c; simpl.
  - now rewrite append_nil_r.
  - reflexivity.
  - rewrite IH. now rewrite append_assoc.
Qed.

Lemma processStream_spec (stream : Stream) (c : Component) :
  processStream stream c
  = (if drains stream then Fulfilled (concat_all (fragments stream)) else Rejected,
     surface (running (fragments stream)) c).
Proof. unfold processStream. now rewrite processStream_from_spec. Qed.

Lemma surface_log (totals : list string) :
  forall c, log (surface totals c)
            = (log c ++ map ev_setCurrentAiResponse totals)%list.
Proof.
  induction totals as [|s l IH]; intros c; simpl.
  - now rewrite app_nil_r.
  - rewrite IH. simpl. now rewrite <- app_assoc.
Qed.

Lemma surface_store (totals : list string) :
  forall c, store (surface totals c) = store c.
Proof. induction totals as [|s l IH]; intros c; simpl; [|rewrite IH]; reflexivity. Qed.

Lemma surface_flags (totals : list string) :
  forall c, status (surface totals c) = status c
            /\ isListening (surface totals c) = isListening c
            /\ isSpeaking (surface totals c) = isSpeaking c
            /\ onSpeechEnd (surface totals c) = onSpeechEnd c.
Proof.
  induction totals as [|s l IH]; intros c; simpl; [tauto|].
  destruct (IH (setCurrentAiResponse s c)) as (-> & -> & -> & ->). tauto.
Qed.

Variable provider : nat -> Stream.
Variable message : string.

Lemma loop_success (fuel attempt : nat) (c : Component) :
  attempt <= maxRetries ->
  drains (provider attempt) = true ->
  getNextAiMessage_loop (S fuel) provider message attempt c
  = Some (succeeded (concat_all (fragments (provider attempt)))
                    (consumed provider message attempt c)).
Proof.
  intros Hle Hd. cbn [getNextAiMessage_loop].
  apply Nat.leb_le in Hle. rewrite Hle.
  rewrite processStream_spec, Hd. reflexivity.
Qed.

Lemma loop_retry (fuel attempt : nat) (c : Component) :
  attempt < maxRetries ->
  drains (provider attempt) = false ->
  getNextAiMessage_loop (S fuel) provider message attempt c
  = getNextAiMessage_loop fuel provider message (S attempt)
      (retried (S attempt) (consumed provider message attempt c)).
Proof.
  intros Hlt Hd. cbn [getNextAiMessage_loop].
  assert (Hle : (attempt <=? maxRetries) = true) by (apply Nat.leb_le; lia).
  rewrite Hle, processStream_spec, Hd.
  assert (Hn : (maxRetries <? attempt + 1) = false) by (apply Nat.ltb_ge; lia).
  rewrite Hn. replace (attempt + 1) with (S attempt) by lia. reflexivity.
Qed.

Lemma loop_exhausted (fuel : nat) (c : Component) :
  drains (provider maxRetries) = false ->
  getNextAiMessage_loop (S (S fuel)) provider message maxRetries c
  = Some (exhausted (S maxRetries) (consumed provider message maxRetries c)).
Proof.
  intros Hd. cbn [getNextAiMessage_loop].
  rewrite processStream_spec, Hd. reflexivity.
Qed.

End Interview.

Section InterviewTurn.
Import InterviewPage Turn.

Variable provider : nat -> Stream.
Variable message : string.

Lemma getNextAiMessage_first_success (c : Component) (k : nat) :
  k <= maxRetries ->
  (forall j, j < k -> drains (provider j) = false) ->
  drains (provider k) = true ->
  getNextAiMessage provider message c
  = Some (succeeded (concat_all (fragments (provider k)))
            (consumed provider message k (before_attempt provider message k c))).
Proof.
  unfold getNextAiMessage, maxRetries. intros Hk Hfail Hok.
  destruct k as [|[|[|k]]]; try lia; cbn [Nat.add].
  - now rewrite loop_success by (unfold maxRetries; auto).
  - rewrite loop_retry by (unfold maxRetries; auto).
    now rewrite loop_success by (unfold maxRetries; auto).
  - rewrite loop_retry by (unfold maxRetries; auto).
    rewrite loop_retry by (unfold maxRetries; auto).
    now rewrite loop_success by (unfold maxRetries; auto).
Qed.

Lemma getNextAiMessage_all_fail (c : Component) :
  (forall j, j <= maxRetries -> drains (provider j) = false) ->
  getNextAiMessage provider message c
  = Some (exhausted (S maxRetries)
            (consumed provider message maxRetries
               (before_attempt provider message maxRetries c))).
Proof.
  unfold getNextAiMessage. intros Hfail.
  change (maxRetries + 2) with 4.
  rewrite loop_retry by (try apply Hfail; unfold maxRetries; lia).
  rewrite loop_retry by (try apply Hfail; unfold maxRetries; lia).
  change 2 with maxRetries at 1.
  rewrite (loop_exhausted provider message 0) by (apply Hfail; lia).
  reflexivity.
Qed.

(** Every run of the loop ends in one of the two closed forms. *)
Lemma getNextAiMessage_cases (c : Component) :
  (exists k, k <= maxRetries
             /\ (forall j, j < k -> drains (provider j) = false)
             /\ drains (provider k) = true
             /\ getNextAiMessage provider message c
                = Some (succeeded (concat_all (fragments (provider k)))
                          (consumed provider message k
                             (before_attempt provider message k c))))
  \/ ((forall j, j <= maxRetries -> drains (provider j) = false)
      /\ getNextAiMessage provider message c
         = Some (exhausted (S maxRetries)
                   (consumed provider message maxRetries
                      (before_attempt provider message maxRetries c)))).
Proof.
  destruct (drains (provider 0)) eqn:H0.
  { left. exists 0.
    assert (Hf : forall j, j < 0 -> drains (provider j) = false)
      by (intros j Hj; lia).
    split; [unfold maxRetries; lia|]. split; [exact Hf|]. split; [exact H0|].
    apply getNextAiMessage_first_success; auto. unfold maxRetries; lia. }
  destruct (drains (provider 1)) eqn:H1.
  { left. exists 1.
    assert (Hf : forall j, j < 1 -> drains (provider j) = false)
      by (intros [|j] Hj; [exact H0 | lia]).
    split; [unfold maxRetries; lia|]. split; [exact Hf|]. split; [exact H1|].
    apply getNextAiMessage_first_success; auto. unfold maxRetries; lia. }
  destruct (drains (provider 2)) eqn:H2.
  { left. exists 2.
    assert (Hf : forall j, j < 2 -> drains (provider j) = false)
      by (intros [|[|j]] Hj; [exact H0 | exact H1 | lia]).
    split; [unfold maxRetries; lia|]. split; [exact Hf|]. split; [exact H2|].
    apply getNextAiMessage_first_success; auto. }
  right.
  assert (Hf : forall j, j <= maxRetries -> drains (provider j) = false)
    by (unfold maxRetries; intros [|[|[|j]]] Hj; auto; lia).
  split; [exact Hf | now apply getNextAiMessage_all_fail].
Qed.

Lemma consumed_log (k : nat) (c : Component) :
  log (consumed provider message k c)
  = (log c ++ ev_streamNextQuestion message
       :: map ev_setCurrentAiResponse (running (fragments (provider k))))%list.
Proof.
  unfold consumed. rewrite surface_log. simpl. now rewrite <- app_assoc.
Qed.

Lemma consumed_store (k : nat) (c : Component) :
  store (consumed provider message k c) = store c.
Proof. unfold consumed. now rewrite surface_store. Qed.

Lemma before_attempt_store (k : nat) (c : Component) :
  store (before_attempt provider message k c) = store c.
Proof.
  induction k as [|k IH]; simpl; [reflexivity|].
  now rewrite consumed_store.
Qed.

End InterviewTurn.

Lemma appended_app (l1 l2 : list InterviewPage.Event) :
  InterviewPage.appended (l1 ++ l2)
  = (InterviewPage.appended l1 ++ InterviewPage.appended l2)%list.
Proof.
  induction l1 as [|e l1 IH]; simpl; [reflexivity|].
  destruct e; simpl; now rewrite IH.
Qed.

Lemma appended_surfacing (l : list string) :
  InterviewPage.appended (map InterviewPage.ev_setCurrentAiResponse l) = [].
Proof. induction l; simpl; auto. Qed.

Lemma before_attempt_appended provider message (k : nat) (c : InterviewPage.Component) :
  InterviewPage.appended (InterviewPage.log (Turn.before_attempt provider message k c))
  = InterviewPage.appended (InterviewPage.log c).
Proof.
  induction k as [|k IH]; simpl; [reflexivity|].
  rewrite !appended_app, consumed_log, appended_app. simpl.
  rewrite appended_surfacing, IH. now rewrite !app_nil_r.
Qed.

Lemma running_from_spec (l : list string) :
  forall acc,
    InterviewPage.running_from acc l
    = map (fun n => acc ++ InterviewPage.concat_all (firstn (S n) l))%string
          (seq 0 (length l)).
Proof.
  induction l as [|x l IH]; intros acc; [reflexivity|].
  cbn [InterviewPage.running_from length seq map].
  f_equal.
  - simpl. now rewrite append_nil_r.
  - rewrite IH, <- seq_shift, map_map. apply map_ext. intros n.
    cbn [firstn InterviewPage.concat_all]. now rewrite append_assoc.
Qed.

(** C1.  When attempt [k] is the first whose stream drains without an
    exception, [getNextAiMessage] returns, and: [processStream] on that
    stream returns the concatenation of its fragments in arrival order;
    it calls [setCurrentAiResponse] once per fragment, the [n]-th call
    carrying the concatenation of the first [n] fragments; the calls the
    turn makes from that attempt on are exactly the request, those
    surfacing calls, and then the append, the reset, the status change
    and [speak]; and over the whole turn the transcript gains exactly one
    message, spoken by ['ai'], whose text is that concatenation. *)
Theorem streamed_turn_accumulates_in_order :
  forall (provider : nat -> InterviewPage.Stream) (message : string)
         (c : InterviewPage.Component) (k : nat),
    k <= maxRetries ->
    (forall j, j < k -> InterviewPage.drains (provider j) = false) ->
    InterviewPage.drains (provider k) = true ->
    let fs := InterviewPage.fragments (provider k) in
    let fullText := InterviewPage.concat_all fs in
    let utterance := mkMsg ai fullText None in
    exists c0 c',
      InterviewPage.getNextAiMessage provider message c = Some c' /\
      InterviewPage.transcript c0 = InterviewPage.transcript c /\
      InterviewPage.appended (InterviewPage.log c0)
        = InterviewPage.appended (InterviewPage.log c) /\
      fst (InterviewPage.processStream (provider k)
             (InterviewPage.emit (InterviewPage.ev_streamNextQuestion message) c0))
        = Fulfilled fullText /\
      InterviewPage.running fs
        = map (fun n => InterviewPage.concat_all (firstn (S n) fs))
              (seq 0 (length fs)) /\
      InterviewPage.log c'
        = (InterviewPage.log c0
           ++ [InterviewPage.ev_streamNextQuestion message]
           ++ map InterviewPage.ev_setCurrentAiResponse (InterviewPage.running fs)
           ++ [InterviewPage.ev_addMessageToTranscript utterance;
               InterviewPage.ev_setCurrentAiResponse "";
               InterviewPage.ev_setStatus InterviewPage.speaking;
               InterviewPage.ev_speak fullText InterviewPage.cb_setStatus_idle])%list /\
      InterviewPage.transcript c'
        = (InterviewPage.transcript c ++ [utterance])%list /\
      InterviewPage.appended (InterviewPage.log c')
        = (InterviewPage.appended (InterviewPage.log c) ++ [utterance])%list.
Proof.
  intros provider message c k Hk Hfail Hok. cbv zeta.
  exists (Turn.before_attempt provider message k c).
  eexists. split;
    [exact (getNextAiMessage_first_success provider message c k Hk Hfail Hok)|].
  assert (Hlog :
    InterviewPage.log
      (Turn.succeeded (InterviewPage.concat_all (InterviewPage.fragments (provider k)))
         (Turn.consumed provider message k
            (Turn.before_attempt provider message k c)))
    = (InterviewPage.log (Turn.before_attempt provider message k c)
       ++ [InterviewPage.ev_streamNextQuestion message]
       ++ map InterviewPage.ev_setCurrentAiResponse
              (InterviewPage.running (InterviewPage.fragments (provider k)))
       ++ [InterviewPage.ev_addMessageToTranscript
             (mkMsg ai (InterviewPage.concat_all
                          (InterviewPage.fragments (provider k))) None);
           InterviewPage.ev_setCurrentAiResponse "";
           InterviewPage.ev_setStatus InterviewPage.speaking;
           InterviewPage.ev_speak
             (InterviewPage.concat_all (InterviewPage.fragments (provider k)))
             InterviewPage.cb_setStatus_idle])%list).
  { cbn -[Turn.consumed Turn.before_attempt InterviewPage.concat_all].
    rewrite consumed_log.
    cbn [app]. rewrite <- !app_assoc. reflexivity. }
  repeat split.
  - unfold InterviewPage.transcript. now rewrite before_attempt_store.
  - apply before_attempt_appended.
  - rewrite processStream_spec, Hok. reflexivity.
  - unfold InterviewPage.running.
    apply (running_from_spec (InterviewPage.fragments (provider k)) "").
  - exact Hlog.
  - unfold InterviewPage.transcript.
    cbn -[Turn.consumed Turn.before_attempt InterviewPage.concat_all].
    now rewrite consumed_store, before_attempt_store.
  - rewrite Hlog, !appended_app, before_attempt_appended, appended_surfacing.
    reflexivity.
Qed.

(** ** The results pipeline *)

(** Unrolls a run of the pipeline along the provider's answers. *)
Ltac pipeline_simpl :=
  cbn -[backoff_delay ResultsPage.retryingMessage AppContext.setRoadmap
        ResultsPage.attempt_body];
  unfold ResultsPage.attempt_body;
  cbn -[backoff_delay ResultsPage.retryingMessage AppContext.setRoadmap
        ResultsPage.attempt_body].

Ltac pipeline_run :=
  pipeline_simpl;
  repeat
    (match goal with
     | |- context [ResultsPage.generateEvaluation ?p ?k] =>
         destruct (ResultsPage.generateEvaluation p k) eqn:?
     | |- context [ResultsPage.generateRoadmap ?p ?k] =>
         destruct (ResultsPage.generateRoadmap p k) eqn:?
     end;
     pipeline_simpl).

Lemma fetchResults_loop_total (p : ResultsPage.Provider) (Date_now : nat -> Z)
      (t : list TranscriptMessage) (usr : User) (c : ResultsPage.Component) :
  exists c', ResultsPage.fetchResults_loop (maxRetries + 2) p Date_now t usr 0 c
             = Some c'.
Proof. pipeline_run; eexists; reflexivity. Qed.

Lemma runResultsPipeline_total (p : ResultsPage.Provider) (Date_now : nat -> Z)
      (c : ResultsPage.Component) :
  exists c', ResultsPage.runResultsPipeline p Date_now c = Some c'.
Proof.
  unfold ResultsPage.runResultsPipeline, ResultsPage.fetchResults.
  destruct (AppContext.evaluation _); [eexists; reflexivity|].
  destruct (AppContext.user_ _); [|eexists; reflexivity].
  destruct (AppContext.transcript _); [eexists; reflexivity|].
  apply fetchResults_loop_total.
Qed.

(** Brings the recorded answers of the provider into every hypothesis. *)
Ltac use_answers :=
  repeat match goal with
         | E : ?x = _, H : context [match ?x with _ => _ end] |- _ =>
             rewrite E in H
         end.

(** C4.  When the store already holds an evaluation, running the
    pipeline returns at once: the log of provider calls is unchanged, so
    neither [generateEvaluation] nor [generateRoadmap] is called, and the
    store, with its evaluation and roadmap, is the one before; only the
    loading flag is cleared. *)
Theorem pipeline_rerun_is_noop :
  forall (p : ResultsPage.Provider) (Date_now : nat -> Z)
         (c : ResultsPage.Component) (e : Evaluation),
    AppContext.evaluation (ResultsPage.store c) = Some e ->
    exists c',
      ResultsPage.runResultsPipeline p Date_now c = Some c' /\
      ResultsPage.log c' = ResultsPage.log c /\
      filter ResultsPage.is_provider_call (ResultsPage.log c')
        = filter ResultsPage.is_provider_call (ResultsPage.log c) /\
      ResultsPage.store c' = ResultsPage.store c /\
      AppContext.evaluation (ResultsPage.store c') = Some e /\
      AppContext.roadmap (ResultsPage.store c')
        = AppContext.roadmap (ResultsPage.store c) /\
      ResultsPage.error c' = ResultsPage.error c /\
      ResultsPage.isLoading c' = false.
Proof.
  intros p Date_now c e He.
  unfold ResultsPage.runResultsPipeline. rewrite He.
  eexists. split; [reflexivity|]. simpl. auto 10.
Qed.

(** C7.  Every [generateEvaluation] request the pipeline issues carries
    a non-empty transcript.  If the pipeline is entered without a user
    or with an empty transcript, it returns at once with the message that
    asks for a new interview, the loading flag cleared, no provider call
    made and the store untouched. *)
Theorem pipeline_requires_transcript_and_user :
  forall (p : ResultsPage.Provider) (Date_now : nat -> Z) (st : AppContext.Store),
    exists c',
      ResultsPage.runResultsPipeline p Date_now (ResultsPage.mount st) = Some c' /\
      evaluates_nonempty (ResultsPage.log c') /\
      (AppContext.evaluation st = None ->
       AppContext.user_ st = None \/ AppContext.transcript st = [] ->
       ResultsPage.log c' = [] /\
       ResultsPage.error c' = Some ResultsPage.noDataMessage /\
       ResultsPage.isLoading c' = false /\
       ResultsPage.render c' = ResultsPage.v_error ResultsPage.noDataMessage /\
       ResultsPage.store c' = st).
Proof.
  intros p Date_now st.
  unfold ResultsPage.runResultsPipeline, ResultsPage.fetchResults,
    ResultsPage.mount, evaluates_nonempty.
  cbn [ResultsPage.store].
  destruct (AppContext.evaluation st) as [e|] eqn:He.
  { eexists. split; [reflexivity|]. split; [constructor | discriminate]. }
  destruct (AppContext.user_ st) as [usr|] eqn:Hu.
  2:{ eexists. split; [reflexivity|]. split; [constructor|].
      intros _ _. cbn. auto. }
  destruct (AppContext.transcript st) as [|m t] eqn:Ht.
  { eexists. split; [reflexivity|]. split; [constructor|].
    intros _ _. cbn. auto. }
  pipeline_run;
    (eexists; split; [reflexivity|]; split;
     [repeat constructor; discriminate
     | intros _ [H|H]; discriminate]).
Qed.

(** C3, as the code has it.  When none of the three attempts goes
    through, the pipeline returns with the fixed failure message and the
    loading flag cleared, so the page renders that message and nothing
    else, and the roadmap in the store is the one before.  The evaluation
    in the store is the answer of the last attempt whose
    [generateEvaluation] fulfilled; it stays unset only when that request
    failed in every attempt. *)
Theorem pipeline_exhausted_shows_failure :
  forall (p : ResultsPage.Provider) (Date_now : nat -> Z)
         (c : ResultsPage.Component) (usr : User),
    AppContext.user_ (ResultsPage.store c) = Some usr ->
    AppContext.transcript (ResultsPage.store c) <> [] ->
    AppContext.evaluation (ResultsPage.store c) = None ->
    (forall k, k <= maxRetries -> ResultsPage.attempt_succeeds p k = false) ->
    exists c',
      ResultsPage.runResultsPipeline p Date_now c = Some c' /\
      ResultsPage.error c' = Some ResultsPage.failureMessage /\
      ResultsPage.isLoading c' = false /\
      ResultsPage.render c' = ResultsPage.v_error ResultsPage.failureMessage /\
      AppContext.roadmap (ResultsPage.store c')
        = AppContext.roadmap (ResultsPage.store c) /\
      AppContext.evaluation (ResultsPage.store c')
        = last_evaluation p (maxRetries + 1) None.
Proof.
  intros p Date_now c usr Hu Ht He Hfail.
  pose proof (Hfail 0 ltac:(unfold maxRetries; lia)) as F0.
  pose proof (Hfail 1 ltac:(unfold maxRetries; lia)) as F1.
  pose proof (Hfail 2 ltac:(unfold maxRetries; lia)) as F2.
  unfold ResultsPage.attempt_succeeds in F0, F1, F2. clear Hfail.
  unfold ResultsPage.runResultsPipeline, ResultsPage.fetchResults.
  rewrite He, Hu.
  destruct (AppContext.transcript (ResultsPage.store c)) as [|m t];
    [congruence|].
  pipeline_run; use_answers; try discriminate;
    (eexists; split; [reflexivity|]);
    cbn; repeat split; auto.
Qed.

(** The claim of C3 fails on this run: the roadmap request fails in all
    three attempts after the evaluation request fulfilled, the run ends
    with the failure message, and the store holds the evaluation; a page
    mounted on that store then renders it next to an empty roadmap. *)
Lemma pipeline_keeps_evaluation_after_roadmap_failure :
  exists c',
    ResultsPage.runResultsPipeline Sample.roadmap_down Sample.clock
      (ResultsPage.mount Sample.interviewed) = Some c' /\
    ResultsPage.error c' = Some ResultsPage.failureMessage /\
    AppContext.evaluation (ResultsPage.store c') = Some Sample.evaluation0 /\
    AppContext.evaluation (ResultsPage.store c') <> None /\
    option_map ResultsPage.render
      (ResultsPage.runResultsPipeline Sample.roadmap_down Sample.clock
         (ResultsPage.mount (ResultsPage.store c')))
    = Some (ResultsPage.v_results Sample.evaluation0 []).
Proof.
  eexists. split; [vm_compute; reflexivity|].
  cbn. repeat split. discriminate.
Qed.

(** ** The retry schedule *)

Lemma turn_timeline_app (l1 l2 : list InterviewPage.Event) :
  turn_timeline (l1 ++ l2) = (turn_timeline l1 ++ turn_timeline l2)%list.
Proof.
  induction l1 as [|e l1 IH]; simpl; [reflexivity|].
  destruct e; simpl; now rewrite IH.
Qed.

Lemma turn_timeline_surfacing (l : list string) :
  turn_timeline (map InterviewPage.ev_setCurrentAiResponse l) = [].
Proof. induction l; simpl; auto. Qed.

Lemma consumed_extends provider message (k : nat) (c : InterviewPage.Component) :
  exists new,
    InterviewPage.log (Turn.consumed provider message k c)
    = (InterviewPage.log c ++ new)%list
    /\ turn_timeline new = [tick_attempt].
Proof.
  eexists. split; [apply consumed_log|].
  simpl. now rewrite turn_timeline_surfacing.
Qed.

Lemma before_attempt_extends provider message (k : nat) (c : InterviewPage.Component) :
  exists new,
    InterviewPage.log (Turn.before_attempt provider message k c)
    = (InterviewPage.log c ++ new)%list
    /\ turn_timeline new
       = flat_map (fun j => [tick_attempt; tick_wait (backoff_delay j)]) (seq 1 k).
Proof.
  induction k as [|k IH].
  - exists []. simpl. now rewrite app_nil_r.
  - destruct IH as (new & Hlog & Htl).
    destruct (consumed_extends provider message k
                (Turn.before_attempt provider message k c)) as (mid & Hmid & Hmt).
    exists (new ++ mid ++ [InterviewPage.ev_consoleError (S k);
                           InterviewPage.ev_setCurrentAiResponse InterviewPage.retryNotice;
                           InterviewPage.ev_delay (backoff_delay (S k))])%list.
    split.
    + cbn [Turn.before_attempt]. unfold Turn.retried.
      cbn -[Turn.consumed Turn.before_attempt backoff_delay].
      rewrite Hmid, Hlog. now rewrite <- !app_assoc.
    + rewrite !turn_timeline_app, Htl, Hmt.
      rewrite seq_S, flat_map_app. cbn -[backoff_delay].
      rewrite <- ?app_assoc. reflexivity.
Qed.

Lemma attempts_needed_bounds (ok : nat -> bool) :
  1 <= attempts_needed ok <= maxRetries + 1.
Proof.
  unfold attempts_needed, maxRetries.
  destruct (ok 0), (ok 1); lia.
Qed.

Lemma turn_schedule provider message (c : InterviewPage.Component) :
  exists c' new,
    InterviewPage.getNextAiMessage provider message c = Some c' /\
    InterviewPage.log c' = (InterviewPage.log c ++ new)%list /\
    turn_timeline new
    = schedule (attempts_needed (fun k => InterviewPage.drains (provider k))).
Proof.
  destruct (getNextAiMessage_cases provider message c)
    as [(k & Hk & Hfail & Hok & Hrun) | (Hfail & Hrun)].
  - destruct (before_attempt_extends provider message k c) as (pre & Hpre & Hpt).
    destruct (consumed_extends provider message k
                (Turn.before_attempt provider message k c)) as (mid & Hmid & Hmt).
    eexists. eexists. split; [exact Hrun|]. split.
    + cbn -[Turn.consumed Turn.before_attempt InterviewPage.concat_all].
      rewrite Hmid, Hpre, <- !app_assoc. reflexivity.
    + rewrite !turn_timeline_app, Hpt, Hmt.
      unfold attempts_needed, maxRetries in *.
      destruct k as [|[|[|k]]]; try lia.
      * now rewrite Hok.
      * rewrite (Hfail 0), Hok by lia. reflexivity.
      * rewrite (Hfail 0), (Hfail 1) by lia. reflexivity.
  - destruct (before_attempt_extends provider message maxRetries c)
      as (pre & Hpre & Hpt).
    destruct (consumed_extends provider message maxRetries
                (Turn.before_attempt provider message maxRetries c))
      as (mid & Hmid & Hmt).
    eexists. eexists. split; [exact Hrun|]. split.
    + cbn -[Turn.consumed Turn.before_attempt].
      rewrite Hmid, Hpre, <- !app_assoc. reflexivity.
    + rewrite !turn_timeline_app, Hpt, Hmt.
      unfold attempts_needed.
      rewrite (Hfail 0), (Hfail 1) by (unfold maxRetries; lia). reflexivity.
Qed.

Lemma pipeline_schedule (p : ResultsPage.Provider) (Date_now : nat -> Z)
      (c : ResultsPage.Component) (usr : User) :
  AppContext.user_ (ResultsPage.store c) = Some usr ->
  AppContext.transcript (ResultsPage.store c) <> [] ->
  AppContext.evaluation (ResultsPage.store c) = None ->
  exists c' new,
    ResultsPage.runResultsPipeline p Date_now c = Some c' /\
    ResultsPage.log c' = (ResultsPage.log c ++ new)%list /\
    pipeline_timeline new = schedule (attempts_needed (ResultsPage.attempt_succeeds p)) /\
    ResultsPage.evaluation_calls new = attempts_needed (ResultsPage.attempt_succeeds p) /\
    ResultsPage.roadmap_calls new <= ResultsPage.evaluation_calls new.
Proof.
  intros Hu Ht He.
  unfold ResultsPage.runResultsPipeline, ResultsPage.fetchResults.
  rewrite He, Hu.
  destruct (AppContext.transcript (ResultsPage.store c)) as [|m t];
    [congruence|].
  unfold attempts_needed, ResultsPage.attempt_succeeds.
  pipeline_run;
    (eexists; eexists; split; [reflexivity|]; split;
     [cbn; rewrite <- ?app_assoc; cbn [app]; reflexivity
     | cbn; repeat split; lia]).
Qed.

(** C2, as the code has it.  Both retry loops return, and the calls they
    add to the log follow one schedule: an attempt, and for as long as
    the attempt fails and fewer than three were made, a wait and another
    attempt, the waits being 2000 ms and then 4000 ms.  The first attempt
    that goes through is the last one.  In a conversational turn an
    attempt is one [streamNextQuestion] call with the draining of its
    stream.  In the results pipeline an attempt is the pair of requests:
    it starts with [generateEvaluation], and it goes through only when
    [generateRoadmap] fulfils as well, so [generateEvaluation] is called
    once per attempt and [generateRoadmap] at most as often. *)
Theorem retry_schedule_of_both_loops :
  (forall provider message (c : InterviewPage.Component),
      exists c' new,
        InterviewPage.getNextAiMessage provider message c = Some c' /\
        InterviewPage.log c' = (InterviewPage.log c ++ new)%list /\
        turn_timeline new
        = schedule (attempts_needed (fun k => InterviewPage.drains (provider k))))
  /\
  (forall p Date_now (c : ResultsPage.Component) usr,
      AppContext.user_ (ResultsPage.store c) = Some usr ->
      AppContext.transcript (ResultsPage.store c) <> [] ->
      AppContext.evaluation (ResultsPage.store c) = None ->
      exists c' new,
        ResultsPage.runResultsPipeline p Date_now c = Some c' /\
        ResultsPage.log c' = (ResultsPage.log c ++ new)%list /\
        pipeline_timeline new
        = schedule (attempts_needed (ResultsPage.attempt_succeeds p)) /\
        ResultsPage.evaluation_calls new
        = attempts_needed (ResultsPage.attempt_succeeds p) /\
        ResultsPage.roadmap_calls new <= ResultsPage.evaluation_calls new)
  /\
  (forall ok, 1 <= attempts_needed ok <= 3)
  /\
  (forall ok k, k <= maxRetries -> (forall j, j < k -> ok j = false) -> ok k = true ->
                attempts_needed ok = k + 1)
  /\
  (forall ok, ok 0 = false -> ok 1 = false ->
              schedule (attempts_needed ok)
              = [tick_attempt; tick_wait 2000; tick_attempt; tick_wait 4000;
                 tick_attempt]).
Proof.
  split; [exact turn_schedule|].
  split; [exact pipeline_schedule|].
  split; [exact attempts_needed_bounds|].
  split.
  - intros ok k Hk Hfail Hok. unfold attempts_needed, maxRetries in *.
    destruct k as [|[|[|k]]]; try lia.
    + now rewrite Hok.
    + now rewrite (Hfail 0), Hok by lia.
    + now rewrite (Hfail 0), (Hfail 1) by lia.
  - intros ok H0 H1. unfold attempts_needed. now rewrite H0, H1.
Qed.

(** The claim of C2 fails on these runs of the results pipeline.  In the
    first the [generateEvaluation] request fulfils at once, and it is made
    again in the second and in the third attempt, because the roadmap
    request of the same attempt failed.  In the second the roadmap
    request is first made in the second attempt of the loop, fails, and
    is made again after a wait of 4000 ms, not 2000 ms. *)
Lemma evaluation_is_requested_again_after_success :
  ResultsPage.generateEvaluation Sample.roadmap_down 0 = Fulfilled Sample.evaluation0 /\
  (exists c',
    ResultsPage.runResultsPipeline Sample.roadmap_down Sample.clock
      (ResultsPage.mount Sample.interviewed) = Some c' /\
    ResultsPage.log c'
    = [ResultsPage.ev_generateEvaluation [Sample.opening; Sample.reply] "Data Analyst";
       ResultsPage.ev_generateRoadmap Intermediate "Data Analyst";
       ResultsPage.ev_consoleError 1;
       ResultsPage.ev_delay 2000;
       ResultsPage.ev_generateEvaluation [Sample.opening; Sample.reply] "Data Analyst";
       ResultsPage.ev_generateRoadmap Intermediate "Data Analyst";
       ResultsPage.ev_consoleError 2;
       ResultsPage.ev_delay 4000;
       ResultsPage.ev_generateEvaluation [Sample.opening; Sample.reply] "Data Analyst";
       ResultsPage.ev_generateRoadmap Intermediate "Data Analyst";
       ResultsPage.ev_consoleError 3] /\
    ResultsPage.evaluation_calls (ResultsPage.log c') = 3 /\
    ~ ResultsPage.evaluation_calls (ResultsPage.log c') <= 1) /\
  (exists c',
    ResultsPage.runResultsPipeline Sample.staggered Sample.clock
      (ResultsPage.mount Sample.interviewed) = Some c' /\
    ResultsPage.log c'
    = [ResultsPage.ev_generateEvaluation [Sample.opening; Sample.reply] "Data Analyst";
       ResultsPage.ev_consoleError 1;
       ResultsPage.ev_delay 2000;
       ResultsPage.ev_generateEvaluation [Sample.opening; Sample.reply] "Data Analyst";
       ResultsPage.ev_generateRoadmap Intermediate "Data Analyst";
       ResultsPage.ev_consoleError 2;
       ResultsPage.ev_delay 4000;
       ResultsPage.ev_generateEvaluation [Sample.opening; Sample.reply] "Data Analyst";
       ResultsPage.ev_generateRoadmap Intermediate "Data Analyst"]).
Proof.
  split; [reflexivity|]. split.
  - eexists. split; [vm_compute; reflexivity|].
    split; [reflexivity|]. split; [reflexivity|]. cbn. lia.
  - eexists. split; [vm_compute; reflexivity|]. reflexivity.
Qed.

(** ** The evaluation prompt *)

Lemma contains_extend (needle hay pre post : string) :
  contains needle hay -> contains needle (pre ++ hay ++ post).
Proof.
  intros (a & b & ->). exists (pre ++ a), (b ++ post).
  now rewrite !append_assoc.
Qed.

Lemma forEach_body_line (acc : string * list GeminiAIService.InlineData)
      (m : TranscriptMessage) :
  exists tail,
    fst (GeminiAIService.forEach_body acc m) = fst acc ++ transcript_line m ++ tail.
Proof.
  destruct acc as [txt imgs]. unfold GeminiAIService.forEach_body, transcript_line.
  cbn [fst].
  destruct (speaker m); [exists ""; cbn [fst]; now rewrite !append_assoc, append_nil_r|].
  destruct (image m) as [img|];
    [|exists ""; cbn [fst]; now rewrite !append_assoc, append_nil_r].
  destruct (GeminiAIService.truthy_string img);
    [|exists ""; cbn [fst]; now rewrite !append_assoc, append_nil_r].
  destruct (nth_error _ 1) as [b|];
    [|exists ""; cbn [fst]; now rewrite !append_assoc, append_nil_r].
  destruct (GeminiAIService.truthy_string b);
    [|exists ""; cbn [fst]; now rewrite !append_assoc, append_nil_r].
  exists GeminiAIService.imageMarker. cbn [fst]. now rewrite !append_assoc.
Qed.

Lemma collect_extends (t : list TranscriptMessage) :
  forall acc, exists tail,
      fst (fold_left GeminiAIService.forEach_body t acc) = fst acc ++ tail.
Proof.
  induction t as [|m t IH]; intros acc; simpl.
  - exists "". now rewrite append_nil_r.
  - destruct (IH (GeminiAIService.forEach_body acc m)) as (tail & ->).
    destruct (forEach_body_line acc m) as (tl & ->).
    eexists. rewrite !append_assoc. reflexivity.
Qed.

Lemma collect_contains_line (t : list TranscriptMessage) (m : TranscriptMessage) :
  In m t ->
  forall acc,
    contains (transcript_line m) (fst (fold_left GeminiAIService.forEach_body t acc)).
Proof.
  induction t as [|x t IH]; intros Hin acc; [contradiction|].
  destruct Hin as [-> | Hin]; simpl.
  - destruct (collect_extends t (GeminiAIService.forEach_body acc m)) as (tail & ->).
    destruct (forEach_body_line acc m) as (tl & ->).
    exists (fst acc), (tl ++ tail). now rewrite !append_assoc.
  - now apply IH.
Qed.

(** Every message of the transcript has its line in the prompt. *)
Lemma prompt_contains_line (t : list TranscriptMessage) (g : string)
      (m : TranscriptMessage) :
  In m t -> contains (transcript_line m) (GeminiAIService.evaluation_prompt t g).
Proof.
  intros Hin. unfold GeminiAIService.evaluation_prompt.
  rewrite <- (append_assoc GeminiAIService.prompt_head g).
  rewrite <- (append_assoc _ GeminiAIService.prompt_mid).
  apply contains_extend.
  now apply collect_contains_line.
Qed.

Lemma exhausted_facts (a : nat) (c : InterviewPage.Component) :
  let closing := mkMsg ai InterviewPage.errorMessage None in
  let c' := Turn.exhausted a c in
  let ended := InterviewPage.run_callback InterviewPage.cb_setPage_results
                 (InterviewPage.speech_finished c') in
  InterviewPage.log c'
  = (InterviewPage.log c
     ++ [InterviewPage.ev_consoleError a;
         InterviewPage.ev_addMessageToTranscript closing;
         InterviewPage.ev_setCurrentAiResponse "";
         InterviewPage.ev_speak InterviewPage.errorMessage
           InterviewPage.cb_setPage_results])%list
  /\ InterviewPage.store c'
     = AppContext.addMessageToTranscript closing (InterviewPage.store c)
  /\ InterviewPage.isSpeaking c' = true
  /\ InterviewPage.onSpeechEnd c' = Some InterviewPage.cb_setPage_results
  /\ InterviewPage.store ended
     = AppContext.setPage results
         (AppContext.addMessageToTranscript closing (InterviewPage.store c)).
Proof.
  cbv zeta. unfold Turn.exhausted.
  cbn -[InterviewPage.errorMessage]. rewrite <- !app_assoc. cbn [app]. auto.
Qed.

(** C10.  When every attempt of a turn fails, [getNextAiMessage]
    returns having appended the closing line to the transcript as an
    ['ai'] message, then cleared the typing display, then called [speak]
    with the navigation to the results page as completion callback: the
    page is unchanged until playback ends.  Once it has ended the store
    still holds that transcript, and a results pipeline started on it
    first requests the evaluation of exactly that transcript, whose
    prompt contains the line written for the closing message. *)
Theorem closing_line_recorded_before_speech_and_evaluated :
  forall (provider : nat -> InterviewPage.Stream) (message : string)
         (c : InterviewPage.Component),
    (forall j, j <= maxRetries -> InterviewPage.drains (provider j) = false) ->
    let closing := mkMsg ai InterviewPage.errorMessage None in
    exists c0 c',
      InterviewPage.getNextAiMessage provider message c = Some c' /\
      InterviewPage.store c0 = InterviewPage.store c /\
      InterviewPage.log c'
        = (InterviewPage.log c0
           ++ [InterviewPage.ev_consoleError 3;
               InterviewPage.ev_addMessageToTranscript closing;
               InterviewPage.ev_setCurrentAiResponse "";
               InterviewPage.ev_speak InterviewPage.errorMessage
                 InterviewPage.cb_setPage_results])%list /\
      InterviewPage.transcript c' = (InterviewPage.transcript c ++ [closing])%list /\
      AppContext.page (InterviewPage.store c') = AppContext.page (InterviewPage.store c) /\
      InterviewPage.isSpeaking c' = true /\
      InterviewPage.onSpeechEnd c' = Some InterviewPage.cb_setPage_results /\
      let ended := InterviewPage.run_callback InterviewPage.cb_setPage_results
                     (InterviewPage.speech_finished c') in
      AppContext.page (InterviewPage.store ended) = results /\
      InterviewPage.transcript ended = (InterviewPage.transcript c ++ [closing])%list /\
      forall (p : ResultsPage.Provider) (Date_now : nat -> Z) (usr : User),
        AppContext.user_ (InterviewPage.store c) = Some usr ->
        AppContext.evaluation (InterviewPage.store c) = None ->
        exists rc rest,
          ResultsPage.runResultsPipeline p Date_now
            (ResultsPage.mount (InterviewPage.store ended)) = Some rc /\
          ResultsPage.log rc
            = ResultsPage.ev_generateEvaluation
                (InterviewPage.transcript c ++ [closing])%list (goal usr) :: rest /\
          contains (transcript_line closing)
            (GeminiAIService.evaluation_prompt
               (InterviewPage.transcript c ++ [closing])%list (goal usr)) /\
          transcript_line closing
            = "ai: " ++ InterviewPage.errorMessage ++ GeminiAIService.newline.
Proof.
  intros provider message c Hfail. cbv zeta.
  set (c0 := Turn.consumed provider message maxRetries
               (Turn.before_attempt provider message maxRetries c)).
  exists c0, (Turn.exhausted (S maxRetries) c0).
  split; [exact (getNextAiMessage_all_fail provider message c Hfail)|].
  assert (Hst : InterviewPage.store c0 = InterviewPage.store c)
    by (unfold c0; now rewrite consumed_store, before_attempt_store).
  destruct (exhausted_facts (S maxRetries) c0) as (Hlog & Hstore & Hsp & Hcb & Hend).
  split; [exact Hst|].
  split; [exact Hlog|].
  unfold InterviewPage.transcript.
  rewrite Hend, Hstore, Hst.
  cbn [AppContext.page AppContext.transcript AppContext.addMessageToTranscript
       AppContext.setPage].
  repeat (split; [reflexivity || assumption|]).
  intros p Date_now usr Hu He.
  unfold ResultsPage.runResultsPipeline, ResultsPage.fetchResults, ResultsPage.mount.
  cbn [ResultsPage.store AppContext.evaluation AppContext.user_ AppContext.transcript
       AppContext.setPage AppContext.addMessageToTranscript].
  rewrite He, Hu.
  destruct (AppContext.transcript (InterviewPage.store c) ++ [_])%list
    as [|m t] eqn:Ht; [now apply app_eq_nil in Ht as [_ ?]|].
  assert (Hin : In (mkMsg ai InterviewPage.errorMessage None) (m :: t))
    by (rewrite <- Ht; apply in_or_app; right; now left).
  pose proof (prompt_contains_line (m :: t) (goal usr) _ Hin) as Hprompt.
  assert (Hline : transcript_line (mkMsg ai InterviewPage.errorMessage None)
                  = "ai: " ++ InterviewPage.errorMessage ++ GeminiAIService.newline)
    by reflexivity.
  revert Hprompt Hline.
  generalize (transcript_line (mkMsg ai InterviewPage.errorMessage None)).
  generalize (GeminiAIService.evaluation_prompt (m :: t) (goal usr)).
  generalize ("ai: " ++ InterviewPage.errorMessage ++ GeminiAIService.newline).
  intros expected prompt line Hprompt Hline.
  pipeline_run;
    (eexists; eexists; split; [reflexivity|]; split; [reflexivity|];
     split; assumption).
Qed.

(** ** The turn-taking state machine *)

Section TurnTaking.
Import InterviewPage.

Lemma Status_eqb_refl (st : Status) : Status_eqb st st = true.
Proof. now destruct st. Qed.

Lemma length_snoc_nonzero {A} (l : list A) (x : A) :
  (length (l ++ [x]) =? 0) = false.
Proof. rewrite length_app. simpl. apply Nat.eqb_neq. lia. Qed.

Lemma length_snoc_changed {A} (l : list A) (x : A) :
  (length l =? length (l ++ [x])) = false.
Proof. rewrite length_app. simpl. apply Nat.eqb_neq. lia. Qed.

Lemma last_is_user_snoc (t : list TranscriptMessage) (m : TranscriptMessage) :
  last_is_user (t ++ [m]) = Speaker_eqb (speaker m) user.
Proof. unfold last_is_user. now rewrite rev_unit. Qed.

Lemma last_text_snoc (t : list TranscriptMessage) (m : TranscriptMessage) :
  last_text (t ++ [m]) = text m.
Proof. unfold last_text. now rewrite rev_unit. Qed.

Lemma spoken_by_snoc (sp : Speaker) (t : list TranscriptMessage)
      (m : TranscriptMessage) :
  spoken_by sp (t ++ [m])
  = spoken_by sp t + (if Speaker_eqb (speaker m) sp then 1 else 0).
Proof.
  unfold spoken_by. rewrite filter_app, length_app. simpl.
  now destruct (Speaker_eqb (speaker m) sp).
Qed.

(** No effect runs when neither the status nor the transcript changed. *)
Lemma effects_after_unchanged (c c' : Component) :
  status c' = status c -> transcript c' = transcript c ->
  effects_after c c' = [].
Proof.
  intros Hs Ht. unfold effects_after.
  now rewrite Hs, Ht, Status_eqb_refl, Nat.eqb_refl.
Qed.

(** A change of status away from ['thinking'] starts no turn. *)
Lemma effects_after_not_thinking (c c' : Component) :
  status c' <> thinking -> transcript c' = transcript c ->
  effects_after c c' = [].
Proof.
  intros Hs Ht. unfold effects_after, reply_effect.
  rewrite Ht, Nat.eqb_refl. cbn [negb].
  destruct (status c'); try congruence;
    cbn [Status_eqb andb]; now destruct (negb _ || false).
Qed.

(** An appended message starts a turn exactly when the candidate spoke
    it and the status is ['thinking']. *)
Lemma effects_after_snoc (c c' : Component) (m : TranscriptMessage) :
  transcript c' = (transcript c ++ [m])%list ->
  effects_after c c'
  = if Status_eqb (status c') thinking && Speaker_eqb (speaker m) user
    then [text m] else [].
Proof.
  intros Ht. unfold effects_after, opening_effect, reply_effect.
  rewrite Ht, length_snoc_changed, length_snoc_nonzero, last_is_user_snoc,
    last_text_snoc.
  rewrite andb_false_r, orb_true_r. cbn [negb andb app].
  assert (H : (0 <? length (transcript c ++ [m])) = true)
    by (apply Nat.ltb_lt; rewrite length_app; simpl; lia).
  rewrite H, andb_true_r. reflexivity.
Qed.

Lemma consumed_flags provider message (k : nat) (c : Component) :
  status (Turn.consumed provider message k c) = status c
  /\ isListening (Turn.consumed provider message k c) = isListening c.
Proof.
  unfold Turn.consumed.
  destruct (surface_flags (running (fragments (provider k)))
              (emit (ev_streamNextQuestion message) c)) as (-> & -> & _).
  now split.
Qed.

Lemma before_attempt_flags provider message (k : nat) (c : Component) :
  status (Turn.before_attempt provider message k c) = status c
  /\ isListening (Turn.before_attempt provider message k c) = isListening c.
Proof.
  induction k as [|k [IHs IHl]]; [now split|].
  cbn [Turn.before_attempt].
  destruct (consumed_flags provider message k
              (Turn.before_attempt provider message k c)) as (Hs & Hl).
  unfold Turn.retried. cbn -[Turn.consumed Turn.before_attempt backoff_delay].
  rewrite Hs, Hl. now split.
Qed.

(** What a settled turn leaves behind, whichever way it ended. *)
Lemma getNextAiMessage_effect provider message (c c' : Component) :
  getNextAiMessage provider message c = Some c' ->
  exists t,
    transcript c' = (transcript c ++ [mkMsg ai t None])%list
    /\ isListening c' = isListening c
    /\ (status c' = speaking \/ status c' = status c).
Proof.
  intros Hrun.
  destruct (getNextAiMessage_cases provider message c)
    as [(k & _ & _ & _ & E) | (_ & E)].
  - destruct (before_attempt_flags provider message k c) as (_ & Hl0).
    pose proof (before_attempt_store provider message k c) as Hst0.
    revert E Hl0 Hst0.
    generalize (Turn.before_attempt provider message k c). intros b E Hl0 Hst0.
    destruct (consumed_flags provider message k b) as (_ & Hl).
    pose proof (consumed_store provider message k b) as Hst.
    revert E Hl Hst.
    generalize (Turn.consumed provider message k b). intros d E Hl Hst.
    rewrite E in Hrun. injection Hrun as <-.
    exists (concat_all (fragments (provider k))).
    unfold transcript, Turn.succeeded. cbn -[concat_all].
    rewrite Hst, Hst0, Hl, Hl0. auto.
  - destruct (before_attempt_flags provider message maxRetries c) as (Hs0 & Hl0).
    pose proof (before_attempt_store provider message maxRetries c) as Hst0.
    revert E Hs0 Hl0 Hst0.
    generalize (Turn.before_attempt provider message maxRetries c).
    intros b E Hs0 Hl0 Hst0.
    destruct (consumed_flags provider message maxRetries b) as (Hs & Hl).
    pose proof (consumed_store provider message maxRetries b) as Hst.
    revert E Hs Hl Hst.
    generalize (Turn.consumed provider message maxRetries b). intros d E Hs Hl Hst.
    rewrite E in Hrun. injection Hrun as <-.
    exists errorMessage.
    unfold transcript, Turn.exhausted. cbn -[errorMessage].
    rewrite Hst, Hst0, Hl, Hl0, Hs, Hs0. auto.
Qed.

End TurnTaking.

Section TurnTakingInvariant.
Import InterviewPage.

Lemma mount_turn_taking (st : AppContext.Store) :
  AppContext.transcript st = [] -> turn_taking (mount st).
Proof.
  intros Ht. unfold mount, opening_effect, reply_effect, transcript.
  cbn [store status]. rewrite Ht. cbn [length Nat.eqb Nat.ltb Nat.leb andb].
  rewrite andb_false_r. cbn [Status_eqb andb app].
  constructor; cbn [comp inflight transcript store status isListening isSpeaking];
    unfold transcript; cbn [store]; rewrite ?Ht.
  - rewrite app_nil_r. unfold spoken_by. cbn [filter length].
    destruct (_ && _); simpl; lia.
  - auto.
  - discriminate.
  - discriminate.
Qed.

Lemma turn_taking_keep (c c' : Component) (pending : list string) :
  turn_taking (mkSession c pending) ->
  transcript c' = transcript c ->
  (transcript c = [] ->
   status c' = thinking /\ isListening c' = false /\ isSpeaking c' = false) ->
  turn_taking (mkSession c' (pending ++ [])).
Proof.
  intros [Hb He Hf Hs] Ht Hflags. cbn [comp inflight] in *.
  rewrite app_nil_r.
  constructor; cbn [comp inflight]; rewrite ?Ht; auto.
Qed.

Lemma turn_taking_ai (c c' : Component) (t : string)
      (running pending : list string) :
  turn_taking (mkSession c running) ->
  length running = S (length pending) ->
  transcript c' = (transcript c ++ [mkMsg ai t None])%list ->
  turn_taking (mkSession c' (pending ++ [])).
Proof.
  intros [Hb He Hf Hs] Hlen Ht. cbn [comp inflight] in *.
  rewrite Hlen in Hb. rewrite app_nil_r.
  constructor; cbn [comp inflight]; rewrite Ht.
  - rewrite !spoken_by_snoc. cbn [speaker Speaker_eqb]. lia.
  - intros H. now apply app_eq_nil in H as [_ ?].
  - intros m rest H. destruct (transcript c) as [|x l] eqn:E.
    + injection H as <- _. reflexivity.
    + injection H as <- _. eauto.
  - intros m r rest H. destruct (transcript c) as [|x [|y l]] eqn:E.
    + discriminate.
    + exfalso. pose proof (Hf x [] eq_refl) as Hx.
      unfold spoken_by in Hb. cbn [filter] in Hb. rewrite Hx in Hb.
      cbn in Hb. lia.
    + injection H as _ <- _. eauto.
Qed.

Lemma turn_taking_user (c c' : Component) (txt : string) (img : option string)
      (pending : list string) :
  turn_taking (mkSession c pending) ->
  isListening c = true ->
  transcript c' = (transcript c ++ [mkMsg user txt img])%list ->
  turn_taking (mkSession c' (pending ++ [txt])).
Proof.
  intros [Hb He Hf Hs] Hl Ht. cbn [comp inflight] in *.
  assert (Hne : transcript c <> [])
    by (intros E; destruct (He E) as (_ & Hl' & _); congruence).
  constructor; cbn [comp inflight]; rewrite Ht.
  - rewrite !spoken_by_snoc, length_app. cbn [speaker Speaker_eqb length]. lia.
  - intros H. now apply app_eq_nil in H as [_ ?].
  - intros m rest H. destruct (transcript c) as [|x l] eqn:E; [congruence|].
    injection H as <- _. eauto.
  - intros m r rest H. destruct (transcript c) as [|x [|y l]] eqn:E.
    + congruence.
    + injection H as _ <- _. reflexivity.
    + injection H as _ <- _. eauto.
Qed.

Lemma step_turn_taking (s s' : Session) (l : Label) :
  turn_taking s -> step s l s' -> turn_taking s'.
Proof.
  intros Hinv Hstep. destruct Hstep; unfold after_handler.
  - (* a turn settles *)
    destruct (getNextAiMessage_effect _ _ _ _ H) as (t & Ht & _ & _).
    rewrite (effects_after_snoc c c' _ Ht). cbn [speaker Speaker_eqb].
    rewrite andb_false_r. eapply turn_taking_ai; eauto.
    rewrite !length_app. simpl. lia.
  - (* playback ends *)
    assert (Hne : transcript c <> []).
    { intros E. destruct (tt_empty _ Hinv E) as (_ & _ & Hsp).
      cbn [comp] in Hsp. congruence. }
    assert (Ht : transcript (run_callback cb (speech_finished c)) = transcript c)
      by now destruct cb.
    assert (Heff : effects_after c (run_callback cb (speech_finished c)) = []).
    { destruct cb.
      - apply effects_after_not_thinking; [discriminate | exact Ht].
      - apply effects_after_unchanged; [reflexivity | exact Ht]. }
    rewrite Heff. apply (turn_taking_keep c); auto. intros E. contradiction.
  - (* microphone button *)
    assert (Hne : transcript c <> []).
    { intros E. destruct (tt_empty _ Hinv E) as (Hth & _ & _).
      cbn [comp] in Hth. unfold mic_disabled in H0. rewrite Hth in H0.
      cbn in H0. now rewrite orb_true_r in H0. }
    assert (Hs : status (handleMicClick started c) = status c)
      by (unfold handleMicClick; cbn; now destruct (isListening c)).
    assert (Ht : transcript (handleMicClick started c) = transcript c)
      by (unfold handleMicClick; cbn; now destruct (isListening c)).
    rewrite (effects_after_unchanged _ _ Hs Ht).
    apply (turn_taking_keep c); auto. intros E. contradiction.
  - (* capture stops *)
    rewrite effects_after_unchanged by reflexivity.
    apply (turn_taking_keep c); auto.
    intros E. destruct (tt_empty _ Hinv E) as (Hth & _ & Hsp).
    cbn [comp] in *. cbn. auto.
  - (* a finalized utterance *)
    assert (Ht : transcript (handleUserSpeech txt img c)
                 = (transcript c ++ [mkMsg user txt img])%list) by reflexivity.
    rewrite (effects_after_snoc _ _ _ Ht). cbn.
    eapply turn_taking_user; eauto.
  - (* finish button *)
    assert (Hne : transcript c <> []).
    { intros E. unfold finish_disabled in H0. rewrite E in H0. discriminate. }
    rewrite effects_after_not_thinking by (reflexivity || discriminate).
    apply (turn_taking_keep c); [exact Hinv | reflexivity | intros E; contradiction].
Qed.

Lemma reachable_turn_taking (st : AppContext.Store) (s : Session) :
  AppContext.transcript st = [] ->
  reachable (mount st) s -> turn_taking s.
Proof.
  intros Ht Hreach. induction Hreach.
  - now apply mount_turn_taking.
  - eapply step_turn_taking; eauto.
Qed.

End TurnTakingInvariant.

(** C8.  In every state an interview can reach from its start on an
    empty transcript, if the transcript does not begin with an
    interviewer utterance answered by a candidate utterance, then the
    Finish Interview button is disabled and the finish transition cannot
    be taken. *)
Theorem finish_requires_full_exchange :
  forall (st : AppContext.Store) (s : InterviewPage.Session),
    AppContext.transcript st = [] ->
    InterviewPage.reachable (InterviewPage.mount st) s ->
    InterviewPage.full_exchange
      (InterviewPage.transcript (InterviewPage.comp s)) = false ->
    InterviewPage.finish_disabled (InterviewPage.comp s) = true /\
    forall s', ~ InterviewPage.step s InterviewPage.l_finishClick s'.
Proof.
  intros st s Ht Hreach Hno.
  pose proof (reachable_turn_taking st s Ht Hreach) as [_ _ Hf Hs].
  assert (Hdis : InterviewPage.finish_disabled (InterviewPage.comp s) = true).
  { unfold InterviewPage.finish_disabled.
    destruct (InterviewPage.transcript (InterviewPage.comp s))
      as [|m [|r rest]] eqn:E; try reflexivity.
    exfalso. unfold InterviewPage.full_exchange in Hno.
    rewrite (Hf m (r :: rest) eq_refl), (Hs m r rest eq_refl) in Hno.
    discriminate. }
  split; [exact Hdis|].
  intros s' Hstep. inversion Hstep; subst. cbn [InterviewPage.comp] in Hdis.
  congruence.
Qed.

Section StalledOpening.
Import InterviewPage.

Lemma getNextAiMessage_exhausted_effect provider message (c c' : Component) :
  (forall j, j <= maxRetries -> drains (provider j) = false) ->
  getNextAiMessage provider message c = Some c' ->
  InterviewPage.transcript c'
  = (InterviewPage.transcript c ++ [mkMsg ai errorMessage None])%list
  /\ status c' = status c
  /\ isListening c' = isListening c
  /\ onSpeechEnd c' = Some cb_setPage_results.
Proof.
  intros Hfail Hrun.
  pose proof (getNextAiMessage_all_fail provider message c Hfail) as E.
  destruct (before_attempt_flags provider message maxRetries c) as (Hs0 & Hl0).
  pose proof (before_attempt_store provider message maxRetries c) as Hst0.
  revert E Hs0 Hl0 Hst0.
  generalize (Turn.before_attempt provider message maxRetries c).
  intros b E Hs0 Hl0 Hst0.
  destruct (consumed_flags provider message maxRetries b) as (Hs & Hl).
  pose proof (consumed_store provider message maxRetries b) as Hst.
  revert E Hs Hl Hst.
  generalize (Turn.consumed provider message maxRetries b). intros d E Hs Hl Hst.
  rewrite E in Hrun. injection Hrun as <-.
  unfold InterviewPage.transcript, Turn.exhausted. cbn -[errorMessage].
  rewrite Hst, Hst0, Hl, Hl0, Hs, Hs0. auto.
Qed.

Lemma stalled_step (s s' : Session) (l : Label) :
  stalled s -> step s l s' -> stalled s'.
Proof.
  intros [Ht Hs Hl Hcb Hin] Hstep. destruct Hstep; cbn [comp inflight] in *;
    unfold after_handler.
  - now destruct earlier.
  - destruct cb; [congruence|].
    rewrite effects_after_unchanged by reflexivity.
    constructor; cbn [comp inflight]; subst; auto. cbn. discriminate.
  - unfold mic_disabled in H0. rewrite Hs in H0. cbn in H0.
    now rewrite orb_true_r in H0.
  - rewrite effects_after_unchanged by reflexivity.
    constructor; cbn [comp inflight]; subst; auto.
  - congruence.
  - unfold finish_disabled in H0. rewrite Ht in H0. discriminate.
Qed.

(** When the opening turn runs out of attempts the closing line stays
    the only message, so the finish button never becomes enabled. *)
Lemma exhausted_opening_keeps_finish_disabled (st : AppContext.Store)
      (provider : nat -> Stream) (s1 s : Session) :
  AppContext.transcript st = [] ->
  (forall j, j <= maxRetries -> drains (provider j) = false) ->
  step (mount st) (l_aiTurn provider) s1 ->
  reachable s1 s ->
  transcript (comp s) = [mkMsg ai errorMessage None]
  /\ finish_disabled (comp s) = true.
Proof.
  intros Ht Hfail Hstep Hreach.
  assert (Hs1 : stalled s1).
  { remember (mount st) as s0 eqn:Hc. remember (l_aiTurn provider) as lab eqn:Hlab.
    destruct Hstep as [c message earlier later p c' Hrun | | | | |];
      try discriminate.
    injection Hlab as ->.
    destruct (getNextAiMessage_exhausted_effect _ _ _ _ Hfail Hrun)
      as (Htr & Hst & Hli & Hcb).
    unfold mount, opening_effect, reply_effect, InterviewPage.transcript in Hc.
    cbn [store status] in Hc. rewrite Ht in Hc. cbn in Hc.
    assert (Hc0 : c = mkComponent st thinking "" None false false None [])
      by congruence.
    assert (Hp : earlier = [] /\ later = []).
    { injection Hc as _ Hp. rewrite app_nil_r in Hp.
      destruct (isSome (AppContext.user_ st) && true && _) in Hp;
        destruct earlier as [|x [|y earlier]]; try discriminate.
      injection Hp as _ Hp. now split. }
    destruct Hp as (-> & ->). clear Hc.
    unfold after_handler. rewrite (effects_after_snoc _ _ _ Htr).
    cbn [speaker Speaker_eqb]. rewrite andb_false_r.
    constructor; cbn [comp inflight].
    - rewrite Htr, Hc0. unfold InterviewPage.transcript. cbn [store]. now rewrite Ht.
    - now rewrite Hst, Hc0.
    - now rewrite Hli, Hc0.
    - rewrite Hcb. discriminate.
    - reflexivity. }
  assert (Hs : stalled s).
  { induction Hreach; [assumption | eapply stalled_step; eauto]. }
  destruct Hs as [Htr _ _ _ _]. split; [exact Htr|].
  unfold finish_disabled. now rewrite Htr.
Qed.

End StalledOpening.

(** ** [parseInt] and the resume score *)


(** Up to [2^53] in magnitude an integer is its own number value. *)
Lemma Number_of_integer_exact (z : Z) :
  (Z.abs z <= 2 ^ 53)%Z -> Number_of_integer z = Finite (inject_Z z).
Proof.
  intros H. unfold Number_of_integer, nearest_double.
  destruct (Z.abs z <? 2 ^ 53)%Z eqn:E.
  - now rewrite Z.mul_comm, Z.abs_sgn.
  - apply Z.ltb_ge in E.
    assert (Ha : Z.abs z = (2 ^ 53)%Z) by lia.
    rewrite Ha.
    match goal with
    | |- match ?c with Some _ => _ | None => _ end = _ =>
        let v := eval vm_compute in c in change c with v
    end.
    cbv iota. rewrite <- (Z.abs_sgn z) at 2. rewrite Ha, Z.mul_comm. reflexivity.
Qed.


(** From [2^1024] on the number value is [Infinity]. *)
Lemma Number_of_integer_overflow (z : Z) :
  (2 ^ 1024 <= z)%Z -> Number_of_integer z = PosInfinity.
Proof.
  intros H. unfold Number_of_integer, nearest_double.
  assert (H53 : (2 ^ 53 < 2 ^ 1024)%Z) by (apply Z.pow_lt_mono_r; lia).
  assert (Hz : (0 < z)%Z) by (pose proof (Z.pow_pos_nonneg 2 53); lia).
  rewrite Z.abs_eq by lia.
  destruct (Z.ltb_spec z (2 ^ 53)); [lia|].
  destruct (Z.leb_spec (2 ^ 1024) z); [|lia].
  destruct (Z.ltb_spec z 0); [lia | reflexivity].
Qed.

Lemma or_zero_Number_of_integer (z : Z) :
  or_zero (Number_of_integer z) = Number_of_integer z.
Proof.
  unfold Number_of_integer.
  destruct (nearest_double (Z.abs z)) as [v|]; [|now destruct (z <? 0)%Z].
  unfold or_zero, falsy_number. cbn [inject_Z Qnum].
  destruct (Z.sgn z * v =? 0)%Z eqn:Z0; [|reflexivity].
  apply Z.eqb_eq in Z0. now rewrite Z0.
Qed.


Lemma get_set_same (key : string) (v : json) (obj : JsObject) :
  get_property key (set_property key v obj) = Some v.
Proof.
  induction obj as [|[k w] obj IH]; simpl.
  - now rewrite String.eqb_refl.
  - destruct (String.eqb k key) eqn:E; simpl; now rewrite E.
Qed.




(** A score sent as text never makes [scoreResume] throw. *)
Lemma gemini_scoreResume_of_text (Number_toString : JSNumber -> string)
      (payload : JsObject) (s : string) :
  get_property "score" payload = Some (JStr s) ->
  GeminiAIService.scoreResume Number_toString payload
  = Fulfilled (set_property "score" (JNum (or_zero (parseInt10 s))) payload).
Proof.
  intros E. unfold GeminiAIService.scoreResume. rewrite E. reflexivity.
Qed.



(** C6.  On the answer [{"score":"82",...}] the two implementations of
    [scoreResume] return different results: the Gemini client returns the
    number 82, the OpenAI client returns the string ["82"] as it came. *)
Theorem providers_disagree_on_string_score :
  GeminiAIService.scoreResume Payload.any_rendering Payload.score_string_82
  = Fulfilled [("score", JNum (Finite (inject_Z 82))); ("strengths", JStr "...");
               ("weaknesses", JStr "...")]
  /\ get_property "score" (OpenAIAIService.scoreResume Payload.score_string_82)
     = Some (JStr "82")
  /\ typeof_number
       (get_property "score" (OpenAIAIService.scoreResume Payload.score_string_82))
     = false
  /\ GeminiAIService.scoreResume Payload.any_rendering Payload.score_string_82
     <> Fulfilled (OpenAIAIService.scoreResume Payload.score_string_82).
Proof. repeat split; discriminate. Qed.

Lemma providers_agree_on_numeric_score (Number_toString : JSNumber -> string)
      (payload : JsObject) :
  typeof_number (get_property "score" payload) = true ->
  GeminiAIService.scoreResume Number_toString payload
  = Fulfilled (OpenAIAIService.scoreResume payload).
Proof. intros H. unfold GeminiAIService.scoreResume. now rewrite H. Qed.

(** Worked answers of the resume check. *)
Example gemini_score_examples :
  GeminiAIService.scoreResume Payload.any_rendering Payload.score_string_82
  = Fulfilled [("score", JNum (Finite (inject_Z 82))); ("strengths", JStr "...");
               ("weaknesses", JStr "...")]
  /\ GeminiAIService.scoreResume Payload.any_rendering Payload.score_string_high
     = Fulfilled [("score", JNum (Finite (inject_Z 0))); ("strengths", JStr "...");
                  ("weaknesses", JStr "...")]
  /\ parseInt10 "  -42px" = Finite (inject_Z (-42))
  /\ parseInt10 "82.9" = Finite (inject_Z 82)
  /\ parseInt10 "" = NaN
  /\ ToString Payload.any_rendering (JArr [JStr "82"; JNull; JBool true])
     = Fulfilled "82,,true".
Proof. repeat split. Qed.

(** A score that is an object or an array is converted to a string
    first: an object without a [toString] of its own reads as no number,
    one with such a property makes the conversion throw, and an array
    reads as its elements joined by commas. *)
Example gemini_score_object_examples :
  GeminiAIService.scoreResume Payload.any_rendering Sample2.score_plain_object
  = Fulfilled [("score", JNum (Finite (inject_Z 0))); ("strengths", JStr "...");
               ("weaknesses", JStr "...")]
  /\ GeminiAIService.scoreResume Payload.any_rendering Sample2.score_own_toString
     = Rejected
  /\ GeminiAIService.scoreResume Payload.any_rendering
       [("score", JArr [JStr "85"; JStr "100"])]
     = Fulfilled [("score", JNum (Finite (inject_Z 85)))]
  /\ GeminiAIService.scoreResume Payload.any_rendering
       [("score", JArr [JObj [("toString", JStr "85")]])]
     = Rejected.
Proof. repeat split. Qed.

(** [parseInt] returns a double: beyond [2^53] the integer read is
    rounded to the nearest one, ties to the even significand, and a run
    of 400 digits is beyond every double. *)
Example parseInt10_rounds_to_double :
  parseInt10 "9007199254740992" = Finite (inject_Z 9007199254740992)
  /\ parseInt10 "9007199254740993" = Finite (inject_Z 9007199254740992)
  /\ parseInt10 "9007199254740995" = Finite (inject_Z 9007199254740996)
  /\ parseInt10 "-9007199254740993" = Finite (inject_Z (-9007199254740992))
  /\ parseInt10 (nines 400) = PosInfinity
  /\ parseInt10 (String "-" (nines 400)) = NegInfinity
  /\ GeminiAIService.scoreResume Payload.any_rendering
       [("score", JStr (nines 400))]
     = Fulfilled [("score", JNum PosInfinity)].
Proof. repeat split; vm_compute; reflexivity. Qed.

(** ** Worked runs *)

(** A turn whose first stream breaks after one fragment and whose second
    stream yields three fragments. *)
Lemma streamed_turn_run :
  1 <= maxRetries
  /\ (forall j, j < 1 -> InterviewPage.drains (Sample.flaky_then_fine j) = false)
  /\ InterviewPage.drains (Sample.flaky_then_fine 1) = true
  /\ exists c',
      InterviewPage.getNextAiMessage Sample.flaky_then_fine "Start the interview."
        (InterviewPage.comp (InterviewPage.mount Sample.started)) = Some c'
      /\ InterviewPage.transcript c' = [mkMsg ai "Tell me about yourself." None].
Proof.
  assert (H1 : 1 <= maxRetries) by (unfold maxRetries; lia).
  assert (H2 : forall j, j < 1 ->
                         InterviewPage.drains (Sample.flaky_then_fine j) = false)
    by (intros [|j] Hj; [reflexivity | lia]).
  assert (H3 : InterviewPage.drains (Sample.flaky_then_fine 1) = true)
    by reflexivity.
  repeat (split; [assumption|]).
  destruct (streamed_turn_accumulates_in_order Sample.flaky_then_fine
              "Start the interview."
              (InterviewPage.comp (InterviewPage.mount Sample.started)) 1 H1 H2 H3)
    as (c0 & c' & Hrun & _ & _ & _ & _ & _ & Ht & _).
  exists c'. split; [exact Hrun | exact Ht].
Defined.

(** A results pipeline whose requests fail twice and then answer. *)
Lemma retry_schedule_run :
  AppContext.user_ (ResultsPage.store (ResultsPage.mount Sample.interviewed))
    = Some Sample.candidate
  /\ AppContext.transcript (ResultsPage.store (ResultsPage.mount Sample.interviewed))
     <> []
  /\ AppContext.evaluation (ResultsPage.store (ResultsPage.mount Sample.interviewed))
     = None
  /\ exists c' new,
      ResultsPage.runResultsPipeline Sample.recovers_third Sample.clock
        (ResultsPage.mount Sample.interviewed) = Some c'
      /\ ResultsPage.log c' = new
      /\ pipeline_timeline new
         = [tick_attempt; tick_wait 2000; tick_attempt; tick_wait 4000; tick_attempt]
      /\ ResultsPage.evaluation_calls new = 3.
Proof.
  assert (H1 : AppContext.user_
                 (ResultsPage.store (ResultsPage.mount Sample.interviewed))
               = Some Sample.candidate) by reflexivity.
  assert (H2 : AppContext.transcript
                 (ResultsPage.store (ResultsPage.mount Sample.interviewed)) <> [])
    by discriminate.
  assert (H3 : AppContext.evaluation
                 (ResultsPage.store (ResultsPage.mount Sample.interviewed)) = None)
    by reflexivity.
  repeat (split; [assumption|]).
  destruct retry_schedule_of_both_loops as (_ & Hpipe & _).
  destruct (Hpipe Sample.recovers_third Sample.clock
              (ResultsPage.mount Sample.interviewed) Sample.candidate H1 H2 H3)
    as (c' & new & Hrun & Hlog & Htl & Hcalls & _).
  exists c', new. repeat split; assumption.
Defined.

(** A results pipeline whose roadmap request never answers. *)
Lemma pipeline_exhausted_run :
  AppContext.user_ (ResultsPage.store (ResultsPage.mount Sample.interviewed))
    = Some Sample.candidate
  /\ AppContext.transcript (ResultsPage.store (ResultsPage.mount Sample.interviewed))
     <> []
  /\ AppContext.evaluation (ResultsPage.store (ResultsPage.mount Sample.interviewed))
     = None
  /\ (forall k, k <= maxRetries ->
                ResultsPage.attempt_succeeds Sample.roadmap_down k = false)
  /\ exists c',
      ResultsPage.runResultsPipeline Sample.roadmap_down Sample.clock
        (ResultsPage.mount Sample.interviewed) = Some c'
      /\ ResultsPage.render c' = ResultsPage.v_error ResultsPage.failureMessage
      /\ AppContext.roadmap (ResultsPage.store c') = []
      /\ AppContext.evaluation (ResultsPage.store c') = Some Sample.evaluation0.
Proof.
  assert (H1 : AppContext.user_
                 (ResultsPage.store (ResultsPage.mount Sample.interviewed))
               = Some Sample.candidate) by reflexivity.
  assert (H2 : AppContext.transcript
                 (ResultsPage.store (ResultsPage.mount Sample.interviewed)) <> [])
    by discriminate.
  assert (H3 : AppContext.evaluation
                 (ResultsPage.store (ResultsPage.mount Sample.interviewed)) = None)
    by reflexivity.
  assert (H4 : forall k, k <= maxRetries ->
                         ResultsPage.attempt_succeeds Sample.roadmap_down k = false)
    by (intros k _; reflexivity).
  repeat (split; [assumption|]).
  destruct (pipeline_exhausted_shows_failure Sample.roadmap_down Sample.clock
              (ResultsPage.mount Sample.interviewed) Sample.candidate H1 H2 H3 H4)
    as (c' & Hrun & _ & _ & Hrender & Hroad & Heval).
  exists c'. repeat split; assumption.
Defined.

(** The results page mounted again on a store that holds an evaluation. *)
Lemma pipeline_rerun_run :
  AppContext.evaluation (ResultsPage.store (ResultsPage.mount Sample.evaluated))
    = Some Sample.evaluation0
  /\ exists c',
      ResultsPage.runResultsPipeline Sample.recovers_third Sample.clock
        (ResultsPage.mount Sample.evaluated) = Some c'
      /\ ResultsPage.log c' = []
      /\ ResultsPage.store c' = Sample.evaluated.
Proof.
  assert (H : AppContext.evaluation
                (ResultsPage.store (ResultsPage.mount Sample.evaluated))
              = Some Sample.evaluation0) by reflexivity.
  split; [exact H|].
  destruct (pipeline_rerun_is_noop Sample.recovers_third Sample.clock
              (ResultsPage.mount Sample.evaluated) Sample.evaluation0 H)
    as (c' & Hrun & Hlog & _ & Hstore & _).
  exists c'. repeat split; assumption.
Defined.


(** The results page opened on a fresh store. *)
Lemma pipeline_without_user_run :
  AppContext.evaluation AppContext.initial = None
  /\ (AppContext.user_ AppContext.initial = None
      \/ AppContext.transcript AppContext.initial = [])
  /\ exists c',
      ResultsPage.runResultsPipeline Sample.recovers_third Sample.clock
        (ResultsPage.mount AppContext.initial) = Some c'
      /\ ResultsPage.log c' = []
      /\ ResultsPage.error c' = Some ResultsPage.noDataMessage.
Proof.
  assert (H1 : AppContext.evaluation AppContext.initial = None) by reflexivity.
  assert (H2 : AppContext.user_ AppContext.initial = None
               \/ AppContext.transcript AppContext.initial = [])
    by (left; reflexivity).
  repeat (split; [assumption|]).
  destruct (pipeline_requires_transcript_and_user Sample.recovers_third Sample.clock
              AppContext.initial) as (c' & Hrun & _ & Hgate).
  destruct (Hgate H1 H2) as (Hlog & Herr & _).
  exists c'. repeat split; assumption.
Defined.

(** The interview right after the opening question has been streamed. *)
Lemma finish_after_opening_question_run :
  AppContext.transcript Sample.started = []
  /\ exists s,
      InterviewPage.reachable (InterviewPage.mount Sample.started) s
      /\ InterviewPage.transcript (InterviewPage.comp s)
         = [mkMsg ai "Tell me about yourself." None]
      /\ InterviewPage.finish_disabled (InterviewPage.comp s) = true
      /\ forall s', ~ InterviewPage.step s InterviewPage.l_finishClick s'.
Proof.
  assert (H0 : AppContext.transcript Sample.started = []) by reflexivity.
  split; [exact H0|].
  assert (Hreach :
    InterviewPage.reachable (InterviewPage.mount Sample.started)
      (InterviewPage.after_handler
         (InterviewPage.comp (InterviewPage.mount Sample.started))
         (Turn.succeeded "Tell me about yourself."
            (Turn.consumed Sample.flaky_then_fine "Start the interview." 1
               (Turn.before_attempt Sample.flaky_then_fine "Start the interview." 1
                  (InterviewPage.comp (InterviewPage.mount Sample.started)))))
         [])).
  { eapply InterviewPage.reach_step; [apply InterviewPage.reach_start|].
    apply (InterviewPage.step_aiTurn
             (InterviewPage.comp (InterviewPage.mount Sample.started))
             "Start the interview." [] [] Sample.flaky_then_fine).
    reflexivity. }
  eexists. split; [exact Hreach|].
  split; [reflexivity|].
  apply (finish_requires_full_exchange Sample.started _ H0 Hreach).
  reflexivity.
Defined.

(** An opening turn in which the provider cannot be reached. *)
Lemma closing_line_run :
  (forall j, j <= maxRetries -> InterviewPage.drains (Sample.unreachable j) = false)
  /\ exists c',
      InterviewPage.getNextAiMessage Sample.unreachable "Start the interview."
        (InterviewPage.comp (InterviewPage.mount Sample.started)) = Some c'
      /\ InterviewPage.transcript c' = [mkMsg ai InterviewPage.errorMessage None]
      /\ AppContext.page (InterviewPage.store c') = interview.
Proof.
  assert (H : forall j, j <= maxRetries ->
                        InterviewPage.drains (Sample.unreachable j) = false)
    by (intros j _; reflexivity).
  split; [exact H|].
  destruct (closing_line_recorded_before_speech_and_evaluated Sample.unreachable
              "Start the interview."
              (InterviewPage.comp (InterviewPage.mount Sample.started)) H)
    as (c0 & c' & Hrun & _ & _ & Ht & Hpage & _).
  exists c'. repeat split; assumption.
Defined.

(* ===================================================================== *)
(** * Further properties of the code *)
(* ===================================================================== *)

(** ** The roadmap store, continued *)

Lemma toggleItem_twice (id0 : string) (it : RoadmapItem) :
  AppContext.toggleItem id0 (AppContext.toggleItem id0 it) = it.
Proof.
  unfold AppContext.toggleItem.
  destruct (String.eqb (id it) id0) eqn:E; cbn [id]; rewrite E; [|reflexivity].
  destruct it; cbn. now rewrite negb_involutive.
Qed.

(** X1.  Toggling the same identifier twice gives back the store as it
    was, whatever the roadmap holds, duplicates of the identifier
    included. *)
Theorem toggleTodo_twice_restores :
  forall (id0 : string) (s : AppContext.Store),
    AppContext.toggleTodo id0 (AppContext.toggleTodo id0 s) = s.
Proof.
  intros id0 s.
  assert (H : AppContext.toggleTodo_list id0
                (AppContext.toggleTodo_list id0 (AppContext.roadmap s))
              = AppContext.roadmap s).
  { unfold AppContext.toggleTodo_list. rewrite map_map.
    rewrite <- (map_id (AppContext.roadmap s)) at 2.
    apply map_ext, toggleItem_twice. }
  destruct s as [pg u ts tr ev r]. unfold AppContext.toggleTodo in *.
  cbn in *. now rewrite H.
Qed.

(** X2.  Toggling an identifier that no item carries changes nothing:
    the store is the one before. *)
Theorem toggleTodo_unknown_id_changes_nothing :
  forall (id0 : string) (s : AppContext.Store),
    ~ In id0 (map id (AppContext.roadmap s)) ->
    AppContext.toggleTodo id0 s = s.
Proof.
  intros id0 s Hnot.
  assert (H : AppContext.toggleTodo_list id0 (AppContext.roadmap s)
              = AppContext.roadmap s).
  { unfold AppContext.toggleTodo_list.
    induction (AppContext.roadmap s) as [|it r IH]; [reflexivity|].
    cbn [map]. rewrite IH by (intros Hin; apply Hnot; now right).
    unfold AppContext.toggleItem.
    destruct (String.eqb_spec (id it) id0) as [E|E]; [|reflexivity].
    exfalso. apply Hnot. now left. }
  unfold AppContext.toggleTodo. rewrite H. now destruct s.
Qed.

Lemma toggleItem_comm (a b : string) (it : RoadmapItem) :
  AppContext.toggleItem a (AppContext.toggleItem b it)
  = AppContext.toggleItem b (AppContext.toggleItem a it).
Proof.
  unfold AppContext.toggleItem.
  destruct (String.eqb (id it) a) eqn:Ea, (String.eqb (id it) b) eqn:Eb;
    cbn [id]; rewrite ?Ea, ?Eb; reflexivity.
Qed.

(** X3.  Toggles commute: the order in which two items are toggled does
    not matter. *)
Theorem toggleTodo_commutes :
  forall (a b : string) (s : AppContext.Store),
    AppContext.toggleTodo a (AppContext.toggleTodo b s)
    = AppContext.toggleTodo b (AppContext.toggleTodo a s).
Proof.
  intros a b s. unfold AppContext.toggleTodo, AppContext.setRoadmapState.
  cbn. f_equal.
  unfold AppContext.toggleTodo_list. rewrite !map_map.
  apply map_ext. intros it. apply toggleItem_comm.
Qed.

(** ** The setup form *)

Lemma InterviewType_eqb_spec (a b : InterviewType) :
  reflect (a = b) (InterviewType_eqb a b).
Proof. destruct a, b; constructor; congruence. Qed.

Lemma includes_In (t : InterviewType) (l : list InterviewType) :
  SetupPage.includes t l = true <-> In t l.
Proof.
  unfold SetupPage.includes. rewrite existsb_exists. split.
  - intros (x & Hin & E). now destruct (InterviewType_eqb_spec t x); subst.
  - intros Hin. exists t. split; [exact Hin|]. now destruct t.
Qed.

Lemma includes_toggle (t type : InterviewType) (prev : list InterviewType) :
  SetupPage.includes t (SetupPage.toggle_selection type prev)
  = xorb (SetupPage.includes t prev) (InterviewType_eqb t type).
Proof.
  unfold SetupPage.toggle_selection.
  destruct (SetupPage.includes type prev) eqn:Hin.
  - destruct (InterviewType_eqb_spec t type) as [->|Hne].
    + rewrite Hin. cbn.
      destruct (SetupPage.includes type (filter _ prev)) eqn:E; [|reflexivity].
      apply includes_In, filter_In in E as [_ E].
      now destruct type.
    + rewrite xorb_false_r.
      destruct (SetupPage.includes t prev) eqn:E.
      * apply includes_In. apply filter_In. split; [now apply includes_In|].
        destruct (InterviewType_eqb_spec t type); [contradiction | reflexivity].
      * destruct (SetupPage.includes t (filter _ prev)) eqn:E'; [|reflexivity].
        apply includes_In, filter_In in E' as [E' _].
        apply includes_In in E'. congruence.
  - unfold SetupPage.includes in *. rewrite existsb_app. cbn.
    rewrite orb_false_r.
    destruct (existsb (InterviewType_eqb t) prev) eqn:E;
      destruct (InterviewType_eqb_spec t type) as [->|Hne]; cbn; congruence.
Qed.

Lemma NoDup_toggle (type : InterviewType) (prev : list InterviewType) :
  NoDup prev -> NoDup (SetupPage.toggle_selection type prev).
Proof.
  intros Hnd. unfold SetupPage.toggle_selection.
  destruct (SetupPage.includes type prev) eqn:Hin.
  - now apply NoDup_filter.
  - apply NoDup_app; [exact Hnd | repeat constructor; intros [] | ].
    intros x Hx [<-|[]]. apply includes_In in Hx. congruence.
Qed.

(** X4.  Starting from an empty selection, whatever sequence of boxes is
    clicked, the selection never lists a round type twice, and a type is
    selected exactly when it was clicked an odd number of times. *)
Theorem selection_after_clicks :
  forall (clicks : list InterviewType) (t : InterviewType),
    NoDup (after_clicks clicks [])
    /\ SetupPage.includes t (after_clicks clicks []) = Nat.odd (clicks_on t clicks).
Proof.
  intros clicks t.
  assert (G : forall sel,
             NoDup sel ->
             NoDup (after_clicks clicks sel)
             /\ SetupPage.includes t (after_clicks clicks sel)
                = xorb (SetupPage.includes t sel) (Nat.odd (clicks_on t clicks))).
  { induction clicks as [|c clicks IH]; intros sel Hnd.
    - split; [exact Hnd|]. cbn. now rewrite xorb_false_r.
    - destruct (IH (SetupPage.toggle_selection c sel) (NoDup_toggle c sel Hnd))
        as (H1 & H2).
      unfold after_clicks in *. cbn [fold_left].
      split; [exact H1|]. rewrite H2.
      rewrite includes_toggle. unfold clicks_on. cbn [filter].
      destruct (InterviewType_eqb t c); cbn [length].
      + rewrite Nat.odd_succ, <- Nat.negb_odd.
        destruct (SetupPage.includes t sel), (Nat.odd _); reflexivity.
      + now rewrite xorb_false_r. }
  destruct (G [] (NoDup_nil _)) as (H1 & H2). split; [exact H1|].
  rewrite H2. reflexivity.
Qed.

Lemma trim_end_blank (s : string) :
  String.eqb (trim_end s) "" = blank s.
Proof.
  induction s as [|c s IH]; [reflexivity|].
  cbn [trim_end blank]. destruct (trim_end s) eqn:E.
  - cbn in IH. rewrite <- IH, andb_true_r. now destruct (is_whitespace c).
  - cbn in IH. rewrite <- IH, andb_false_r. reflexivity.
Qed.

Lemma blank_skip_whitespace (s : string) :
  blank (skip_whitespace s) = blank s.
Proof.
  induction s as [|c s IH]; [reflexivity|].
  cbn [skip_whitespace blank]. destruct (is_whitespace c) eqn:E; [exact IH|].
  cbn [blank]. now rewrite E.
Qed.

Lemma trim_blank (s : string) : String.eqb (trim s) "" = blank s.
Proof. unfold trim. now rewrite trim_end_blank, blank_skip_whitespace. Qed.

(** X5.  A submitted form starts an interview exactly when name and goal
    hold something other than white space and a round type is selected;
    otherwise the store is left as it was.  When it does on a cleared
    session, the interview page opens on the entered user and types with
    the status ['thinking'] and exactly one turn in flight, the opening
    one. *)
Theorem submit_starts_interview_when_form_is_valid :
  forall (f : SetupPage.Form) (s : AppContext.Store),
    SetupPage.canStart f
    = negb (blank (SetupPage.form_name f))
      && negb (blank (SetupPage.form_goal f))
      && negb (length (SetupPage.selectedTypes f) =? 0) /\
    (SetupPage.canStart f = false -> SetupPage.handleSubmit f s = s) /\
    (SetupPage.canStart f = true ->
     let st := SetupPage.handleSubmit f (AppContext.startNewInterview s) in
     AppContext.page st = interview /\
     AppContext.user_ st
       = Some (mkUser (SetupPage.form_name f) (SetupPage.form_goal f)) /\
     AppContext.interviewTypes st = SetupPage.selectedTypes f /\
     InterviewPage.inflight (InterviewPage.mount st) = ["Start the interview."] /\
     InterviewPage.status (InterviewPage.comp (InterviewPage.mount st))
       = InterviewPage.thinking).
Proof.
  intros f s. unfold SetupPage.handleSubmit. split; [|split].
  - unfold SetupPage.canStart. rewrite !trim_blank.
    now destruct (SetupPage.selectedTypes f).
  - now intros ->.
  - intros H. rewrite H. unfold SetupPage.canStart in H.
    apply andb_prop in H as [_ Ht]. apply Nat.ltb_lt in Ht.
    repeat split.
    unfold InterviewPage.mount, InterviewPage.opening_effect,
      InterviewPage.reply_effect, InterviewPage.transcript. cbn.
    destruct (SetupPage.selectedTypes f); [cbn in Ht; lia | reflexivity].
Qed.

(** ** The interview page, continued *)

Section InterviewMore.
Import InterviewPage.

Lemma step_transcript_grows (s s' : Session) (l : Label) :
  step s l s' ->
  exists added, transcript (comp s') = (transcript (comp s) ++ added)%list
                /\ Forall (fun m => speaker m = ai -> image m = None) added.
Proof.
  intros Hstep. destruct Hstep; unfold after_handler; cbn [comp].
  - destruct (getNextAiMessage_effect _ _ _ _ H) as (t & Ht & _).
    exists [mkMsg ai t None]. split; [exact Ht|]. now repeat constructor.
  - exists []. rewrite app_nil_r. split; [now destruct cb | constructor].
  - exists []. rewrite app_nil_r. split; [|constructor].
    unfold handleMicClick. cbn. now destruct (isListening c).
  - exists []. rewrite app_nil_r. split; [reflexivity | constructor].
  - exists [mkMsg user txt img]. split; [reflexivity|].
    repeat constructor. discriminate.
  - exists []. rewrite app_nil_r. split; [reflexivity | constructor].
Qed.

End InterviewMore.

(** X6.  The transcript is append-only: along any run of the interview
    page, from any state, the transcript of an earlier state is a prefix
    of the transcript of every later one. *)
Theorem transcript_is_append_only :
  forall (s0 s : InterviewPage.Session),
    InterviewPage.reachable s0 s ->
    exists added,
      InterviewPage.transcript (InterviewPage.comp s)
      = (InterviewPage.transcript (InterviewPage.comp s0) ++ added)%list.
Proof.
  intros s0 s Hreach. induction Hreach as [|s l s' _ (added & IH) Hstep].
  - exists []. now rewrite app_nil_r.
  - destruct (step_transcript_grows _ _ _ Hstep) as (more & Hm & _).
    exists (added ++ more)%list. now rewrite Hm, IH, app_assoc.
Qed.

(** X7.  Interviewer messages never carry an image: if that holds of the
    transcript the page is opened on, it holds of the transcript in every
    state the page can reach. *)
Theorem interviewer_messages_carry_no_image :
  forall (st : AppContext.Store) (s : InterviewPage.Session),
    no_interviewer_image (AppContext.transcript st) ->
    InterviewPage.reachable (InterviewPage.mount st) s ->
    no_interviewer_image (InterviewPage.transcript (InterviewPage.comp s)).
Proof.
  intros st s H0 Hreach. unfold no_interviewer_image in *.
  induction Hreach as [|s l s' _ IH Hstep]; [exact H0|].
  destruct (step_transcript_grows _ _ _ Hstep) as (more & -> & Hm).
  apply Forall_app. now split.
Qed.

(** X8.  Turns and utterances stay in step.  When the page opens on a
    user, at least one round type and an empty transcript, then in every
    reachable state the interviewer messages recorded plus the turns
    still in flight number one more than the candidate messages: the
    opening turn, and exactly one turn for each finalized utterance. *)
Theorem one_turn_per_utterance :
  forall (st : AppContext.Store) (u : User) (s : InterviewPage.Session),
    AppContext.user_ st = Some u ->
    AppContext.interviewTypes st <> [] ->
    AppContext.transcript st = [] ->
    InterviewPage.reachable (InterviewPage.mount st) s ->
    spoken_by ai (InterviewPage.transcript (InterviewPage.comp s))
    + length (InterviewPage.inflight s)
    = 1 + spoken_by user (InterviewPage.transcript (InterviewPage.comp s)).
Proof.
  intros st u s Hu Hty Ht Hreach.
  induction Hreach as [|s l s' _ IH Hstep].
  - unfold InterviewPage.mount, InterviewPage.opening_effect,
      InterviewPage.reply_effect, InterviewPage.transcript.
    cbn [InterviewPage.comp InterviewPage.inflight InterviewPage.store
         InterviewPage.status].
    rewrite Hu, Ht. destruct (AppContext.interviewTypes st); [congruence|].
    reflexivity.
  - destruct Hstep; unfold InterviewPage.after_handler in *;
      cbn [InterviewPage.comp InterviewPage.inflight] in *.
    + destruct (getNextAiMessage_effect _ _ _ _ H) as (t & Htr & _).
      rewrite (effects_after_snoc c c' _ Htr), Htr, !spoken_by_snoc.
      cbn [speaker Speaker_eqb]. rewrite andb_false_r, app_nil_r.
      rewrite !length_app in *. cbn [length] in *. lia.
    + assert (Htr : InterviewPage.transcript
                      (InterviewPage.run_callback cb
                         (InterviewPage.speech_finished c))
                    = InterviewPage.transcript c) by now destruct cb.
      assert (Heff : InterviewPage.effects_after c
                       (InterviewPage.run_callback cb
                          (InterviewPage.speech_finished c)) = []).
      { destruct cb.
        - apply effects_after_not_thinking; [discriminate | exact Htr].
        - apply effects_after_unchanged; [reflexivity | exact Htr]. }
      now rewrite Heff, Htr, app_nil_r.
    + assert (Hs : InterviewPage.status (InterviewPage.handleMicClick started c)
                   = InterviewPage.status c)
        by (unfold InterviewPage.handleMicClick; cbn;
            now destruct (InterviewPage.isListening c)).
      assert (Htr : InterviewPage.transcript (InterviewPage.handleMicClick started c)
                    = InterviewPage.transcript c)
        by (unfold InterviewPage.handleMicClick; cbn;
            now destruct (InterviewPage.isListening c)).
      now rewrite (effects_after_unchanged _ _ Hs Htr), Htr, app_nil_r.
    + rewrite effects_after_unchanged by reflexivity.
      now rewrite app_nil_r.
    + assert (Htr : InterviewPage.transcript (InterviewPage.handleUserSpeech txt img c)
                    = (InterviewPage.transcript c ++ [mkMsg user txt img])%list)
        by reflexivity.
      rewrite (effects_after_snoc _ _ _ Htr), Htr, !spoken_by_snoc.
      cbn. rewrite length_app. cbn. lia.
    + rewrite effects_after_not_thinking by (reflexivity || discriminate).
      now rewrite app_nil_r.
Qed.

Lemma spoken_app (l1 l2 : list InterviewPage.Event) :
  spoken (l1 ++ l2) = (spoken l1 ++ spoken l2)%list.
Proof.
  induction l1 as [|e l1 IH]; simpl; [reflexivity|].
  destruct e; simpl; now rewrite IH.
Qed.

Lemma spoken_surfacing (l : list string) :
  spoken (map InterviewPage.ev_setCurrentAiResponse l) = [].
Proof. induction l; simpl; auto. Qed.

Lemma consumed_quiet provider message (k : nat) (c : InterviewPage.Component) :
  spoken (InterviewPage.log (Turn.consumed provider message k c))
  = spoken (InterviewPage.log c)
  /\ InterviewPage.appended (InterviewPage.log (Turn.consumed provider message k c))
     = InterviewPage.appended (InterviewPage.log c).
Proof.
  rewrite consumed_log, spoken_app, appended_app. cbn.
  now rewrite spoken_surfacing, appended_surfacing, !app_nil_r.
Qed.

Lemma before_attempt_quiet provider message (k : nat) (c : InterviewPage.Component) :
  spoken (InterviewPage.log (Turn.before_attempt provider message k c))
  = spoken (InterviewPage.log c).
Proof.
  induction k as [|k IH]; [reflexivity|].
  cbn [Turn.before_attempt]. unfold Turn.retried.
  cbn -[Turn.consumed Turn.before_attempt backoff_delay InterviewPage.retryNotice].
  rewrite !spoken_app. cbn.
  destruct (consumed_quiet provider message k
              (Turn.before_attempt provider message k c)) as (-> & _).
  now rewrite IH, !app_nil_r.
Qed.

(** X9.  However the provider behaves, [getNextAiMessage] returns, and
    by then it has appended exactly one interviewer message, handed the
    text of that very message to [speak], once, so that playback is
    running, and cleared the typing display. *)
Theorem turn_speaks_what_it_records :
  forall (provider : nat -> InterviewPage.Stream) (message : string)
         (c : InterviewPage.Component),
    exists c' t,
      InterviewPage.getNextAiMessage provider message c = Some c' /\
      InterviewPage.transcript c'
        = (InterviewPage.transcript c ++ [mkMsg ai t None])%list /\
      InterviewPage.appended (InterviewPage.log c')
        = (InterviewPage.appended (InterviewPage.log c) ++ [mkMsg ai t None])%list /\
      spoken (InterviewPage.log c') = (spoken (InterviewPage.log c) ++ [t])%list /\
      InterviewPage.currentAiResponse c' = "" /\
      InterviewPage.isSpeaking c' = true.
Proof.
  intros provider message c.
  destruct (getNextAiMessage_cases provider message c)
    as [(k & _ & _ & _ & E) | (_ & E)].
  - pose proof (before_attempt_quiet provider message k c) as Hq0.
    pose proof (before_attempt_appended provider message k c) as Ha0.
    pose proof (before_attempt_store provider message k c) as Hst0.
    revert E Hq0 Ha0 Hst0.
    generalize (Turn.before_attempt provider message k c). intros b E Hq0 Ha0 Hst0.
    destruct (consumed_quiet provider message k b) as (Hq & Ha).
    pose proof (consumed_store provider message k b) as Hst.
    revert E Hq Ha Hst.
    generalize (Turn.consumed provider message k b). intros d E Hq Ha Hst.
    eexists. exists (InterviewPage.concat_all (InterviewPage.fragments (provider k))).
    split; [exact E|].
    unfold InterviewPage.transcript, Turn.succeeded.
    cbn -[InterviewPage.concat_all].
    rewrite !spoken_app, !appended_app, Hst, Hst0, Hq, Hq0, Ha, Ha0. cbn.
    now rewrite !app_nil_r.
  - pose proof (before_attempt_quiet provider message maxRetries c) as Hq0.
    pose proof (before_attempt_appended provider message maxRetries c) as Ha0.
    pose proof (before_attempt_store provider message maxRetries c) as Hst0.
    revert E Hq0 Ha0 Hst0.
    generalize (Turn.before_attempt provider message maxRetries c).
    intros b E Hq0 Ha0 Hst0.
    destruct (consumed_quiet provider message maxRetries b) as (Hq & Ha).
    pose proof (consumed_store provider message maxRetries b) as Hst.
    revert E Hq Ha Hst.
    generalize (Turn.consumed provider message maxRetries b). intros d E Hq Ha Hst.
    eexists. exists InterviewPage.errorMessage.
    split; [exact E|].
    unfold InterviewPage.transcript, Turn.exhausted.
    cbn -[InterviewPage.errorMessage].
    rewrite !spoken_app, !appended_app, Hst, Hst0, Hq, Hq0, Ha, Ha0. cbn.
    now rewrite !app_nil_r.
Qed.

Section StaleTranscript.
Import InterviewPage.

Lemma silent_step (t : list TranscriptMessage) (s s' : Session) (l : Label) :
  silent t s -> step s l s' -> silent t s'.
Proof.
  intros [Ht Hin Hrq Hl Hsp Hb] Hstep.
  destruct Hstep; cbn [comp inflight] in *; unfold after_handler.
  - now destruct earlier.
  - congruence.
  - exfalso. destruct Hb as [Hb|(_ & Hb & _)]; [|congruence].
    unfold mic_disabled in H0. rewrite Hb in H0. cbn in H0.
    now rewrite orb_true_r in H0.
  - rewrite effects_after_unchanged by reflexivity.
    constructor; cbn [comp inflight]; subst; auto.
  - congruence.
  - rewrite effects_after_not_thinking by (reflexivity || discriminate).
    unfold finish_disabled in H0. apply Nat.ltb_ge in H0. rewrite Ht in H0.
    constructor; cbn [comp inflight]; subst; auto.
    cbn. rewrite turn_timeline_app, Hrq. reflexivity.
Qed.

End StaleTranscript.

(** X10.  The page asks for a question only on an empty transcript or
    after a candidate message.  Opened on a transcript that is not empty
    and ends with an interviewer message, it starts no turn, and from
    then on the transcript never changes, no request is ever sent, and
    the microphone button cannot be used.  The status is ['thinking'] for
    as long as the page is shown; the one thing that changes it is the
    Finish button, which sets ['finished'] and leaves the page.  That
    button takes a transcript of two messages or more: on a shorter one
    the status stays ['thinking'] for good, on a longer one Finish can be
    clicked at once. *)
Theorem stale_transcript_blocks_the_interview :
  forall (st : AppContext.Store) (s : InterviewPage.Session),
    AppContext.transcript st <> [] ->
    InterviewPage.last_is_user (AppContext.transcript st) = false ->
    InterviewPage.reachable (InterviewPage.mount st) s ->
    InterviewPage.transcript (InterviewPage.comp s) = AppContext.transcript st /\
    InterviewPage.inflight s = [] /\
    turn_timeline (InterviewPage.log (InterviewPage.comp s)) = [] /\
    (forall started s', ~ InterviewPage.step s (InterviewPage.l_micClick started) s') /\
    (InterviewPage.status (InterviewPage.comp s) = InterviewPage.thinking
     \/ (InterviewPage.status (InterviewPage.comp s) = InterviewPage.finished
         /\ InterviewPage.on_interview_page (InterviewPage.comp s) = false
         /\ 2 <= length (AppContext.transcript st))) /\
    (InterviewPage.on_interview_page (InterviewPage.comp s) = true ->
     InterviewPage.status (InterviewPage.comp s) = InterviewPage.thinking) /\
    (length (AppContext.transcript st) < 2 ->
     InterviewPage.status (InterviewPage.comp s) = InterviewPage.thinking
     /\ forall s', ~ InterviewPage.step s InterviewPage.l_finishClick s') /\
    (2 <= length (AppContext.transcript st) ->
     AppContext.page st = interview ->
     exists s',
       InterviewPage.step (InterviewPage.mount st) InterviewPage.l_finishClick s'
       /\ InterviewPage.status (InterviewPage.comp s') = InterviewPage.finished
       /\ InterviewPage.on_interview_page (InterviewPage.comp s') = false).
Proof.
  intros st s Hne Hlast Hreach.
  assert (Hmount : InterviewPage.mount st
                   = InterviewPage.mkSession
                       (InterviewPage.mkComponent st InterviewPage.thinking ""
                          None false false None []) []).
  { unfold InterviewPage.mount, InterviewPage.opening_effect,
      InterviewPage.reply_effect, InterviewPage.transcript.
    cbn [InterviewPage.store InterviewPage.status].
    rewrite Hlast, andb_false_r.
    destruct (AppContext.transcript st) eqn:E; [congruence|].
    cbn [length Nat.eqb]. rewrite andb_false_r. reflexivity. }
  assert (H : silent (AppContext.transcript st) s).
  { induction Hreach as [|s l s' _ IH Hstep]; [|eapply silent_step; eauto].
    rewrite Hmount. constructor; cbn; auto. }
  destruct H as [Ht Hin Hrq Hl Hsp Hb].
  split; [exact Ht|]. split; [exact Hin|]. split; [exact Hrq|].
  split.
  { intros started s' Hstep. inversion Hstep; subst. cbn [InterviewPage.comp] in *.
    destruct Hb as [Hb|(_ & Hb & _)]; [|congruence].
    unfold InterviewPage.mic_disabled in *. rewrite Hb in *. cbn in *.
    match goal with H : _ || true = false |- _ => now rewrite orb_true_r in H end. }
  split; [exact Hb|].
  split.
  { intros Hpage. destruct Hb as [Hb|(_ & Hb & _)]; [exact Hb | congruence]. }
  split.
  { intros Hshort. split.
    - destruct Hb as [Hb|(_ & _ & Hlen)]; [exact Hb | lia].
    - intros s' Hstep. inversion Hstep; subst. cbn [InterviewPage.comp] in *.
      unfold InterviewPage.finish_disabled in *.
      match goal with
      | H : (length _ <? 2) = false |- _ => apply Nat.ltb_ge in H; rewrite Ht in H; lia
      end. }
  intros Hlong Hpage. rewrite Hmount.
  eexists. split.
  - apply InterviewPage.step_finishClick.
    + unfold InterviewPage.on_interview_page. cbn. now rewrite Hpage.
    + unfold InterviewPage.finish_disabled, InterviewPage.transcript.
      cbn [InterviewPage.store]. now apply Nat.ltb_ge.
  - split; reflexivity.
Qed.

(** ** The results page, continued *)

(** Item [i] of what [setRoadmap] stores is draft [i] with its five
    fields as they came, the identifier made from [i] and the clock, and
    [completed] set to [false]. *)
Lemma map_indexed_nth (Date_now : nat -> Z) (r : list RoadmapDraft) :
  forall (k i : nat) (d : RoadmapDraft),
    nth_error r i = Some d ->
    nth_error (AppContext.map_indexed Date_now k r) i
    = Some (mkItem (AppContext.todo_id (k + i) (Date_now (k + i)))
                   (d_title d) (d_description d) (d_keyConcepts d)
                   (d_project d) (d_resources d) false).
Proof.
  induction r as [|x r IH]; intros k [|i] d; cbn [nth_error AppContext.map_indexed];
    try discriminate.
  - intros [= <-]. now rewrite Nat.add_0_r.
  - intros H. rewrite (IH (S k) i d H). now rewrite Nat.add_succ_r.
Qed.

(** X11.  When attempt [k] is the first in which both requests are
    answered, the pipeline returns with the evaluation of that attempt in
    the store and, as roadmap, the drafts of that attempt: as many items
    as drafts, item [i] carrying the title, description, key concepts,
    project and resources of draft [i], the identifier
    [todo-i-<clock>] and [completed] set to [false].  No error is set,
    the loading flag is cleared, and the page renders that evaluation and
    roadmap.  User and transcript are untouched. *)
Theorem pipeline_success_stores_results :
  forall (p : ResultsPage.Provider) (Date_now : nat -> Z)
         (c : ResultsPage.Component) (usr : User) (k : nat)
         (e : Evaluation) (r : list RoadmapDraft),
    AppContext.user_ (ResultsPage.store c) = Some usr ->
    AppContext.transcript (ResultsPage.store c) <> [] ->
    AppContext.evaluation (ResultsPage.store c) = None ->
    k <= maxRetries ->
    (forall j, j < k -> ResultsPage.attempt_succeeds p j = false) ->
    ResultsPage.generateEvaluation p k = Fulfilled e ->
    ResultsPage.generateRoadmap p k = Fulfilled r ->
    exists c',
      ResultsPage.runResultsPipeline p Date_now c = Some c' /\
      AppContext.evaluation (ResultsPage.store c') = Some e /\
      AppContext.roadmap (ResultsPage.store c')
        = AppContext.roadmapWithIds Date_now r /\
      length (AppContext.roadmap (ResultsPage.store c')) = length r /\
      (forall i d,
          nth_error r i = Some d ->
          nth_error (AppContext.roadmap (ResultsPage.store c')) i
          = Some (mkItem (AppContext.todo_id i (Date_now i))
                         (d_title d) (d_description d) (d_keyConcepts d)
                         (d_project d) (d_resources d) false)) /\
      ResultsPage.error c' = None /\
      ResultsPage.isLoading c' = false /\
      ResultsPage.render c'
        = ResultsPage.v_results e (AppContext.roadmapWithIds Date_now r) /\
      AppContext.user_ (ResultsPage.store c') = Some usr /\
      AppContext.transcript (ResultsPage.store c')
        = AppContext.transcript (ResultsPage.store c).
Proof.
  intros p Date_now c usr k e r Hu Ht He Hk Hfail Hev Hrd.
  assert (Hitems : length (AppContext.roadmapWithIds Date_now r) = length r
                   /\ forall i d,
                       nth_error r i = Some d ->
                       nth_error (AppContext.roadmapWithIds Date_now r) i
                       = Some (mkItem (AppContext.todo_id i (Date_now i))
                                      (d_title d) (d_description d) (d_keyConcepts d)
                                      (d_project d) (d_resources d) false)).
  { split; [apply map_indexed_length|].
    intros i d Hd. exact (map_indexed_nth Date_now r 0 i d Hd). }
  destruct Hitems as (Hlen & Hnth).
  unfold ResultsPage.runResultsPipeline, ResultsPage.fetchResults.
  rewrite He, Hu.
  destruct (AppContext.transcript (ResultsPage.store c)) as [|m t] eqn:Etr;
    [congruence|].
  unfold maxRetries in Hk.
  destruct k as [|[|[|k]]]; try lia.
  - pipeline_simpl. rewrite Hev. pipeline_simpl. rewrite Hrd. pipeline_simpl.
    eexists. split; [reflexivity|]. cbn. rewrite Hu, Etr. auto 12.
  - pose proof (Hfail 0 ltac:(lia)) as F0.
    unfold ResultsPage.attempt_succeeds in F0.
    pipeline_simpl.
    destruct (ResultsPage.generateEvaluation p 0) eqn:E0; pipeline_simpl;
      [destruct (ResultsPage.generateRoadmap p 0) eqn:R0; [discriminate|];
       pipeline_simpl|];
      rewrite Hev; pipeline_simpl; rewrite Hrd; pipeline_simpl;
      (eexists; split; [reflexivity|]; cbn; rewrite Hu, Etr; auto 12).
  - pose proof (Hfail 0 ltac:(lia)) as F0.
    pose proof (Hfail 1 ltac:(lia)) as F1.
    unfold ResultsPage.attempt_succeeds in F0, F1.
    pipeline_simpl.
    destruct (ResultsPage.generateEvaluation p 0) eqn:E0; pipeline_simpl;
      [destruct (ResultsPage.generateRoadmap p 0) eqn:R0; [discriminate|];
       pipeline_simpl|];
      (destruct (ResultsPage.generateEvaluation p 1) eqn:E1; pipeline_simpl;
       [destruct (ResultsPage.generateRoadmap p 1) eqn:R1; [discriminate|];
        pipeline_simpl|]);
      rewrite Hev; pipeline_simpl; rewrite Hrd; pipeline_simpl;
      (eexists; split; [reflexivity|]; cbn; rewrite Hu, Etr; auto 12).
Qed.

(** ** The evaluation request, continued *)

Lemma split_comma_not_nil (s : string) : GeminiAIService.split_comma s <> [].
Proof.
  induction s as [|c s IH]; cbn; [discriminate|].
  destruct (Ascii.eqb c ","); [discriminate|].
  now destruct (GeminiAIService.split_comma s).
Qed.

Lemma split_comma_free (s : string) :
  comma_free s = true -> GeminiAIService.split_comma s = [s].
Proof.
  induction s as [|c s IH]; cbn; [reflexivity|].
  intros H. apply andb_prop in H as [Hc Hs]. apply negb_true_iff in Hc.
  now rewrite Hc, (IH Hs).
Qed.

Lemma split_comma_prefix (p rest : string) :
  comma_free p = true ->
  GeminiAIService.split_comma (p ++ String "," rest)
  = p :: GeminiAIService.split_comma rest.
Proof.
  induction p as [|c p IH]; cbn; [reflexivity|].
  intros H. apply andb_prop in H as [Hc Hp]. apply negb_true_iff in Hc.
  now rewrite Hc, (IH Hp).
Qed.

(** Every field [split(',')] returns is free of commas. *)
Lemma split_comma_fields (s : string) :
  Forall (fun f => comma_free f = true) (GeminiAIService.split_comma s).
Proof.
  induction s as [|c s IH]; cbn; [repeat constructor|].
  destruct (Ascii.eqb c ",") eqn:E; [constructor; [reflexivity | exact IH]|].
  destruct (GeminiAIService.split_comma s) as [|h t]; [repeat constructor; cbn; now rewrite E|].
  inversion IH; subst. constructor; [cbn; now rewrite E | assumption].
Qed.

Lemma forEach_body_spec (acc : string * list GeminiAIService.InlineData)
      (m : TranscriptMessage) :
  GeminiAIService.forEach_body acc m
  = match image_payload m with
    | Some b => (fst acc ++ transcript_line m ++ GeminiAIService.imageMarker,
                 (snd acc ++ [GeminiAIService.mkInlineData "image/jpeg" b])%list)
    | None => (fst acc ++ transcript_line m, snd acc)
    end.
Proof.
  destruct acc as [txt imgs].
  unfold GeminiAIService.forEach_body, image_payload, transcript_line. cbn [fst snd].
  destruct (speaker m); [rewrite ?append_assoc; reflexivity|].
  destruct (image m) as [img|]; [|rewrite ?append_assoc; reflexivity].
  destruct (GeminiAIService.truthy_string img); [|rewrite ?append_assoc; reflexivity].
  destruct (nth_error _ 1) as [b|]; [|rewrite ?append_assoc; reflexivity].
  destruct (GeminiAIService.truthy_string b); rewrite ?append_assoc; reflexivity.
Qed.

Lemma collect_spec (t : list TranscriptMessage) :
  forall acc,
    fold_left GeminiAIService.forEach_body t acc
    = (fst acc
       ++ InterviewPage.concat_all
            (map (fun m => transcript_line m
                           ++ match image_payload m with
                              | Some _ => GeminiAIService.imageMarker
                              | None => ""
                              end) t),
       (snd acc ++ map (GeminiAIService.mkInlineData "image/jpeg") (payloads t))%list).
Proof.
  induction t as [|m t IH]; intros acc; cbn [fold_left map InterviewPage.concat_all].
  - unfold payloads. cbn. rewrite append_nil_r, app_nil_r. now destruct acc.
  - rewrite IH, forEach_body_spec. unfold payloads. cbn [flat_map].
    destruct (image_payload m) as [b|]; cbn [fst snd].
    + rewrite map_app, <- !app_assoc, !append_assoc. reflexivity.
    + cbn [app map]. rewrite ?append_assoc. reflexivity.
Qed.

Lemma payloads_bound (t : list TranscriptMessage) :
  length (payloads t) <= spoken_by user t.
Proof.
  unfold payloads, spoken_by. induction t as [|m t IH]; [reflexivity|].
  cbn [flat_map filter]. rewrite length_app.
  unfold image_payload at 1.
  destruct (speaker m); cbn [Speaker_eqb length]; [lia|].
  destruct (image m) as [img|]; [|cbn; lia].
  destruct (GeminiAIService.truthy_string img); [|cbn; lia].
  destruct (nth_error _ 1) as [b|]; [|cbn; lia].
  destruct (GeminiAIService.truthy_string b); cbn; lia.
Qed.

(** X12.  The images sent with the evaluation request are, in
    transcript order, the base64 fields taken from candidate messages:
    each part is tagged [image/jpeg] and its data is not empty and holds
    no comma, and there are at most as many parts as candidate messages.
    When no message carries an image there is no image part and the
    transcript text is exactly one line per message. *)
Theorem evaluation_images_come_from_candidate_messages :
  forall (t : list TranscriptMessage),
    GeminiAIService.imageParts t
      = map (GeminiAIService.mkInlineData "image/jpeg") (payloads t) /\
    Forall (fun part =>
              GeminiAIService.mimeType part = "image/jpeg" /\
              GeminiAIService.data part <> "" /\
              comma_free (GeminiAIService.data part) = true)
           (GeminiAIService.imageParts t) /\
    length (GeminiAIService.imageParts t) <= spoken_by user t /\
    (Forall (fun m => image m = None) t ->
     GeminiAIService.imageParts t = [] /\
     GeminiAIService.transcriptText t
       = InterviewPage.concat_all (map transcript_line t)).
Proof.
  intros t.
  assert (Hparts : GeminiAIService.imageParts t
                   = map (GeminiAIService.mkInlineData "image/jpeg") (payloads t)).
  { unfold GeminiAIService.imageParts, GeminiAIService.collect.
    now rewrite collect_spec. }
  split; [exact Hparts|]. split; [|split].
  - rewrite Hparts. apply Forall_map. unfold payloads.
    apply Forall_flat_map. apply Forall_forall. intros m _.
    destruct (image_payload m) as [b|] eqn:E; [|constructor].
    repeat constructor; cbn.
    + unfold image_payload in E.
      destruct (speaker m); [discriminate|].
      destruct (image m) as [img|]; [|discriminate].
      destruct (GeminiAIService.truthy_string img); [|discriminate].
      destruct (nth_error _ 1) as [b'|]; [|discriminate].
      destruct (GeminiAIService.truthy_string b') eqn:Tb; [|discriminate].
      injection E as <-. now destruct b'.
    + unfold image_payload in E.
      destruct (speaker m); [discriminate|].
      destruct (image m) as [img|]; [|discriminate].
      destruct (GeminiAIService.truthy_string img); [|discriminate].
      destruct (nth_error _ 1) as [b'|] eqn:Hn; [|discriminate].
      destruct (GeminiAIService.truthy_string b'); [|discriminate].
      injection E as <-.
      apply nth_error_In in Hn.
      exact (proj1 (Forall_forall _ _) (split_comma_fields img) _ Hn).
  - rewrite Hparts, length_map. apply payloads_bound.
  - intros Hnone.
    assert (Hp : forall m, In m t -> image_payload m = None).
    { intros m Hin. unfold image_payload.
      rewrite (proj1 (Forall_forall _ _) Hnone m Hin). now destruct (speaker m). }
    split.
    + rewrite Hparts. unfold payloads.
      clear Hparts Hnone. induction t as [|m t IH]; [reflexivity|].
      cbn [flat_map]. rewrite (Hp m (or_introl eq_refl)). cbn.
      apply IH. intros x Hx. apply Hp. now right.
    + unfold GeminiAIService.transcriptText, GeminiAIService.collect.
      rewrite collect_spec. cbn [fst append]. f_equal.
      apply map_ext_in. intros m Hin. rewrite (Hp m Hin). apply append_nil_r.
Qed.

(** X13.  A candidate message whose image is a data URL, that is a
    prefix without comma, a comma, and a payload without comma that is
    not empty, adds exactly one image part, carrying the payload, after
    the parts of the earlier messages, and adds its line followed by the
    image marker to the transcript text. *)
Theorem data_url_payload_is_sent :
  forall (t : list TranscriptMessage) (txt prefix payload : string),
    comma_free prefix = true ->
    comma_free payload = true ->
    payload <> "" ->
    let m := mkMsg user txt (Some (prefix ++ String "," payload)) in
    GeminiAIService.imageParts (t ++ [m])
      = (GeminiAIService.imageParts t
         ++ [GeminiAIService.mkInlineData "image/jpeg" payload])%list /\
    GeminiAIService.transcriptText (t ++ [m])
      = GeminiAIService.transcriptText t ++ transcript_line m
        ++ GeminiAIService.imageMarker.
Proof.
  intros t txt prefix payload Hp Hb Hne m.
  assert (Hpay : image_payload m = Some payload).
  { unfold image_payload, m. cbn [speaker image].
    rewrite split_comma_prefix by exact Hp. rewrite split_comma_free by exact Hb.
    cbn [nth_error].
    assert (GeminiAIService.truthy_string (prefix ++ String "," payload) = true)
      as -> by now destruct prefix.
    now destruct payload. }
  unfold GeminiAIService.imageParts, GeminiAIService.transcriptText,
    GeminiAIService.collect.
  rewrite fold_left_app. cbn [fold_left].
  rewrite forEach_body_spec, Hpay. cbn [fst snd]. split; reflexivity.
Qed.

(** ** The resume score, continued *)

Lemma digits_prefix_render_then (d : Decimal.uint) (rest : string) :
  forall a : nat,
    digits_prefix (Some (Z.of_nat a)) (NilEmpty.string_of_uint d ++ rest)
    = digits_prefix (Some (Z.of_nat (Nat.of_uint_acc d a))) rest.
Proof.
  induction d; intros a; cbn [NilEmpty.string_of_uint Nat.of_uint_acc append];
    try reflexivity;
    cbn [digits_prefix];
    match goal with
    | |- context [digit_value ?ch] =>
        let v := eval vm_compute in (digit_value ch) in
        change (digit_value ch) with v
    end;
    cbv iota; rewrite <- IHd; do 2 f_equal; rewrite ?Nat.tail_mul_spec; lia.
Qed.

Lemma digits_prefix_stops (acc : option Z) (rest : string) :
  starts_with_digit rest = false -> digits_prefix acc rest = acc.
Proof.
  destruct rest as [|c rest]; [reflexivity|].
  cbn [starts_with_digit digits_prefix]. unfold is_digit, digit_value.
  now intros ->.
Qed.

Lemma skip_whitespace_blank (ws s : string) :
  blank ws = true -> skip_whitespace (ws ++ s) = skip_whitespace s.
Proof.
  induction ws as [|c ws IH]; [reflexivity|].
  cbn [blank append skip_whitespace]. intros H.
  apply andb_prop in H as [-> H]. auto.
Qed.

(** [parseInt] skips leading white space and stops at the first
    character that is not a digit. *)
Lemma parseInt10_embedded (ws rest : string) (n : nat) :
  blank ws = true ->
  starts_with_digit rest = false ->
  parseInt10 (ws ++ index_toString n ++ rest) = Number_of_integer (Z.of_nat n).
Proof.
  intros Hws Hrest. unfold parseInt10. rewrite skip_whitespace_blank by exact Hws.
  unfold index_toString, NilZero.string_of_uint.
  pose proof (DecimalNat.Unsigned.of_to n) as Hn.
  pose proof (to_uint_not_Nil n) as Hnil.
  unfold Nat.of_uint in Hn.
  destruct (Nat.to_uint n) as [|d|d|d|d|d|d|d|d|d|d]; [congruence|..];
    cbn [NilEmpty.string_of_uint Nat.of_uint_acc append skip_whitespace] in *;
    match goal with
    | |- context [is_whitespace ?ch] =>
        change (is_whitespace ch) with false
    end;
    cbv iota;
    match goal with
    | |- context [Ascii.eqb ?ch "-"] =>
        change (Ascii.eqb ch "-") with false;
        change (Ascii.eqb ch "+") with false
    end;
    cbv iota; cbn [digits_prefix];
    match goal with
    | |- context [digit_value ?ch] =>
        let v := eval vm_compute in (digit_value ch) in
        change (digit_value ch) with v
    end;
    cbv iota;
    match goal with
    | |- context [digits_prefix (Some ?z) _] =>
        let k := eval vm_compute in (Z.to_nat z) in
        change z with (Z.of_nat k)
    end;
    rewrite digits_prefix_render_then, digits_prefix_stops by exact Hrest;
    rewrite Z.mul_1_l; do 2 f_equal; exact Hn.
Qed.

Lemma set_property_missing (key : string) (v : json) (obj : JsObject) :
  get_property key obj = None ->
  set_property key v obj = (obj ++ [(key, v)])%list.
Proof.
  induction obj as [|[k w] obj IH]; cbn; [reflexivity|].
  destruct (String.eqb k key); [discriminate|].
  intros H. now rewrite IH.
Qed.

Lemma gemini_score_is_number (Number_toString : JSNumber -> string)
      (payload result : JsObject) :
  GeminiAIService.scoreResume Number_toString payload = Fulfilled result ->
  typeof_number (get_property "score" result) = true.
Proof.
  unfold GeminiAIService.scoreResume.
  destruct (typeof_number (get_property "score" payload)) eqn:E; cbn [negb].
  - now intros [= <-].
  - destruct (ToString_property _ _); [|discriminate].
    intros [= <-]. now rewrite get_set_same.
Qed.

(** X14.  Coercing twice is coercing once: applied to a result it
    returned, [scoreResume] of the Gemini client returns it unchanged,
    and does not throw. *)
Theorem gemini_scoreResume_idempotent :
  forall (Number_toString : JSNumber -> string) (payload result : JsObject),
    GeminiAIService.scoreResume Number_toString payload = Fulfilled result ->
    GeminiAIService.scoreResume Number_toString result = Fulfilled result.
Proof.
  intros nts payload result H. unfold GeminiAIService.scoreResume.
  now rewrite (gemini_score_is_number nts payload result H).
Qed.

(** X15.  When the answer has no [score] property, the Gemini client
    adds one with the value 0 after the properties that are there.  A
    [score] that is [null], a boolean, or an object without a property
    of its own called [toString] becomes 0 as well.  A [score] that is
    an object with such a property cannot be converted to a string:
    [scoreResume] throws. *)
Theorem gemini_score_missing_or_not_numeric_is_zero :
  forall (Number_toString : JSNumber -> string) (payload : JsObject),
    (get_property "score" payload = None ->
     GeminiAIService.scoreResume Number_toString payload
     = Fulfilled (payload ++ [("score", JNum (Finite (inject_Z 0)))])%list) /\
    (forall v,
        get_property "score" payload = Some v ->
        (v = JNull \/ (exists b, v = JBool b)
         \/ (exists f, v = JObj f /\ get_property "toString" f = None)) ->
        GeminiAIService.scoreResume Number_toString payload
        = Fulfilled (set_property "score" (JNum (Finite (inject_Z 0))) payload)) /\
    (forall f w,
        get_property "score" payload = Some (JObj f) ->
        get_property "toString" f = Some w ->
        GeminiAIService.scoreResume Number_toString payload = Rejected).
Proof.
  intros nts payload. unfold GeminiAIService.scoreResume. split; [|split].
  - intros H. rewrite H. cbn [typeof_number negb ToString_property].
    f_equal. now apply set_property_missing.
  - intros v H Hv. rewrite H.
    destruct Hv as [-> | [(b & ->) | (f & -> & Hf)]];
      cbn [typeof_number negb ToString_property ToString];
      [| destruct b | rewrite Hf]; reflexivity.
  - intros f w H Hf. rewrite H.
    cbn [typeof_number negb ToString_property ToString]. now rewrite Hf.
Qed.

(** X16.  A score sent as text is read like [parseInt] reads it: after
    any leading white space, a natural number written in decimal is
    read whatever follows it, as long as what follows does not begin
    with a digit; so a fraction is cut off, not rounded.  What is
    returned is the double for the number read: the number itself up to
    [2^53], the nearest double for a number of at most twenty digits, and
    [Infinity] from [2^1024] on. *)
Theorem gemini_score_reads_leading_number :
  forall (Number_toString : JSNumber -> string) (payload : JsObject)
         (ws rest : string) (n : nat),
    get_property "score" payload = Some (JStr (ws ++ index_toString n ++ rest)) ->
    blank ws = true ->
    starts_with_digit rest = false ->
    ((Z.of_nat n <= 2 ^ 53)%Z ->
     GeminiAIService.scoreResume Number_toString payload
     = Fulfilled (set_property "score" (JNum (Finite (inject_Z (Z.of_nat n))))
                               payload)) /\
    ((Z.of_nat n < 10 ^ 20)%Z ->
     GeminiAIService.scoreResume Number_toString payload
     = Fulfilled (set_property "score" (JNum (Number_of_integer (Z.of_nat n)))
                               payload)) /\
    ((2 ^ 1024 <= Z.of_nat n)%Z ->
     GeminiAIService.scoreResume Number_toString payload
     = Fulfilled (set_property "score" (JNum PosInfinity) payload)).
Proof.
  intros nts payload ws rest n H Hws Hrest.
  assert (Hres : GeminiAIService.scoreResume nts payload
                 = Fulfilled (set_property "score"
                                (JNum (Number_of_integer (Z.of_nat n))) payload)).
  { rewrite (gemini_scoreResume_of_text nts payload _ H).
    rewrite parseInt10_embedded by assumption.
    now rewrite or_zero_Number_of_integer. }
  split; [|split].
  - intros Hle. rewrite Hres, Number_of_integer_exact; [reflexivity|lia].
  - intros _. exact Hres.
  - intros Hge. now rewrite Hres, Number_of_integer_overflow.
Qed.

(** ** The OpenAI client: the event stream *)

Section Splitting.

Variable sep : ascii.

Lemma split_on_not_nil (s : string) : split_on sep s <> [].
Proof.
  induction s as [|c s IH]; cbn; [discriminate|].
  destruct (Ascii.eqb c sep); [discriminate|].
  now destruct (split_on sep s).
Qed.

Lemma last_cons_nonempty {A} (x : A) (l : list A) (d : A) :
  l <> [] -> last (x :: l) d = last l d.
Proof. destruct l; [congruence | reflexivity]. Qed.

Lemma removelast_cons_nonempty {A} (x : A) (l : list A) :
  l <> [] -> removelast (x :: l) = x :: removelast l.
Proof. destruct l; [congruence | reflexivity]. Qed.

Lemma last_app_nonempty {A} (l l' : list A) (d : A) :
  l' <> [] -> last (l ++ l') d = last l' d.
Proof.
  intros Hne. induction l as [|x l IH]; [reflexivity|].
  cbn [app]. rewrite last_cons_nonempty; [exact IH|].
  destruct l; [exact Hne | discriminate].
Qed.

(** Splitting a text that continues: the closed fields stay, and the
    open field is continued by what follows. *)
Lemma split_on_app (a b : string) :
  split_on sep (a ++ b)
  = (removelast (split_on sep a)
     ++ split_on sep (last (split_on sep a) "" ++ b))%list.
Proof.
  induction a as [|c a IH]; [reflexivity|].
  cbn [append split_on].
  pose proof (split_on_not_nil a) as Hne.
  destruct (Ascii.eqb c sep) eqn:E.
  - rewrite removelast_cons_nonempty, last_cons_nonempty by exact Hne.
    cbn [app]. now rewrite IH.
  - rewrite IH. destruct (split_on sep a) as [|h [|h' t]]; [congruence| |].
    + cbn [removelast last app append split_on]. rewrite E. reflexivity.
    + cbn [removelast last app]. reflexivity.
Qed.

Lemma split_on_fields (s : string) :
  Forall (fun f => free_of sep f = true) (split_on sep s).
Proof.
  induction s as [|c s IH]; cbn [split_on]; [repeat constructor|].
  destruct (Ascii.eqb c sep) eqn:E; [constructor; [reflexivity | exact IH]|].
  destruct (split_on sep s) as [|h t];
    [repeat constructor; cbn; now rewrite E|].
  inversion IH; subst. constructor; [cbn; now rewrite E | assumption].
Qed.

Lemma split_on_free (s : string) :
  free_of sep s = true -> split_on sep s = [s].
Proof.
  induction s as [|c s IH]; cbn; [reflexivity|].
  intros H. apply andb_prop in H as [Hc Hs]. apply negb_true_iff in Hc.
  now rewrite Hc, (IH Hs).
Qed.

Lemma split_on_last_free (s : string) :
  split_on sep (last (split_on sep s) "") = [last (split_on sep s) ""].
Proof.
  apply split_on_free.
  pose proof (split_on_fields s) as H. pose proof (split_on_not_nil s) as Hne.
  destruct (split_on sep s) as [|h t]; [congruence|].
  assert (Hin : In (last (h :: t) "") (h :: t)).
  { destruct (exists_last (l := h :: t) ltac:(discriminate)) as (l' & x & E).
    rewrite E. rewrite last_last. apply in_or_app. right. now left. }
  exact (proj1 (Forall_forall _ _) H _ Hin).
Qed.

End Splitting.

Lemma concat_all_app (a b : list string) :
  InterviewPage.concat_all (a ++ b)
  = InterviewPage.concat_all a ++ InterviewPage.concat_all b.
Proof.
  induction a as [|x a IH]; cbn; [reflexivity|]. now rewrite IH, append_assoc.
Qed.

Section EventStreamFacts.

Variable JSON_parse : string -> option json.
Variable Number_toString : JSNumber -> string.

Let for_lines := OpenAIAIService.for_lines JSON_parse Number_toString.
Let read_loop := OpenAIAIService.read_loop JSON_parse Number_toString.

Lemma complete_lines_app (a b : string) :
  complete_lines (a ++ b)
  = (complete_lines a ++ complete_lines (open_line a ++ b))%list.
Proof.
  unfold complete_lines, open_line. rewrite split_on_app.
  apply removelast_app, split_on_not_nil.
Qed.

Lemma open_line_app (a b : string) :
  open_line (a ++ b) = open_line (open_line a ++ b).
Proof.
  unfold open_line. rewrite split_on_app.
  apply last_app_nonempty, split_on_not_nil.
Qed.

Lemma complete_lines_open_line (a : string) : complete_lines (open_line a) = [].
Proof. unfold complete_lines, open_line. now rewrite split_on_last_free. Qed.

Lemma open_line_open_line (a : string) : open_line (open_line a) = open_line a.
Proof. unfold open_line. now rewrite split_on_last_free. Qed.

(** The accumulated reply is what it was plus the text of what the loop
    yielded. *)
(** What [fullResponse += content] adds does not depend on what
    [fullResponse] holds. *)
Lemma add_content_text (full : string) (content : json) :
  OpenAIAIService.add_content Number_toString full content
  = full ++ OpenAIAIService.add_content Number_toString "" content.
Proof.
  unfold OpenAIAIService.add_content.
  destruct (ToString Number_toString content); [reflexivity|].
  now rewrite append_nil_r.
Qed.

Lemma for_lines_fullResponse (lines : list string) :
  forall full,
    snd (for_lines lines full)
    = full ++ InterviewPage.concat_all
                (map (OpenAIAIService.add_content Number_toString "") (fst (for_lines lines full))).
Proof.
  subst for_lines.
  induction lines as [|line lines IH]; intros full; cbn [OpenAIAIService.for_lines].
  - cbn. now rewrite append_nil_r.
  - destruct (OpenAIAIService.on_line JSON_parse line).
    + cbn. now rewrite append_nil_r.
    + specialize (IH (OpenAIAIService.add_content Number_toString full content)).
      destruct (OpenAIAIService.for_lines _ _ lines _) as [ys f].
      cbn [fst snd map InterviewPage.concat_all] in *.
      now rewrite IH, add_content_text, append_assoc.
    + apply IH.
Qed.

Lemma for_lines_quiet (lines : list string) :
  quiet_after_done JSON_parse lines ->
  forall full, fst (for_lines lines full) = flat_map (line_yield JSON_parse) lines.
Proof.
  subst for_lines.
  induction lines as [|line lines IH]; intros Hq full;
    cbn [OpenAIAIService.for_lines flat_map]; [reflexivity|].
  cbn [quiet_after_done] in Hq. unfold is_done in Hq. unfold line_yield at 1.
  destruct (OpenAIAIService.on_line JSON_parse line).
  - cbn [fst app]. symmetry. clear IH.
    induction Hq as [|l ls Hl _ IHq]; [reflexivity|].
    cbn [flat_map]. now rewrite Hl, IHq.
  - specialize (IH Hq (OpenAIAIService.add_content Number_toString full content)).
    destruct (OpenAIAIService.for_lines _ _ lines _) as [ys f].
    cbn [fst] in *. now rewrite IH.
  - cbn [app]. now apply IH.
Qed.

Lemma silent_lines_quiet (b : list string) :
  Forall (fun l => line_yield JSON_parse l = []) b ->
  quiet_after_done JSON_parse b.
Proof.
  induction b as [|l b IH]; intros H; cbn; [exact I|].
  inversion H; subst. destruct (is_done JSON_parse l); auto.
Qed.

Lemma quiet_after_done_app (a b : list string) :
  quiet_after_done JSON_parse (a ++ b) ->
  quiet_after_done JSON_parse a /\ quiet_after_done JSON_parse b.
Proof.
  induction a as [|line a IH]; cbn [app quiet_after_done]; [auto|].
  destruct (is_done JSON_parse line).
  - intros H. apply Forall_app in H as [Ha Hb]. split; [exact Ha|].
    now apply silent_lines_quiet.
  - exact IH.
Qed.

Lemma read_loop_yields (reader : OpenAIAIService.Reader) :
  forall buffer full,
    complete_lines buffer = [] ->
    open_line buffer = buffer ->
    quiet_after_done JSON_parse (complete_lines (buffer ++ reader_text reader)) ->
    fst (read_loop reader buffer full)
    = flat_map (line_yield JSON_parse) (complete_lines (buffer ++ reader_text reader)).
Proof.
  subst read_loop.
  induction reader as [| |value rest IH]; intros buffer full Hc Ho Hq;
    cbn [OpenAIAIService.read_loop reader_text] in *.
  - now rewrite append_nil_r, Hc.
  - now rewrite append_nil_r, Hc.
  - rewrite <- append_assoc in Hq |- *.
    rewrite complete_lines_app in Hq |- *.
    apply quiet_after_done_app in Hq as [Hq1 Hq2].
    fold line_feed. fold (complete_lines (buffer ++ value)).
    fold (open_line (buffer ++ value)).
    pose proof (for_lines_quiet _ Hq1 full) as Hy. subst for_lines.
    destruct (OpenAIAIService.for_lines _ _ (complete_lines (buffer ++ value)) full)
      as [ys f].
    cbn [fst] in Hy.
    specialize (IH (open_line (buffer ++ value)) f
                   (complete_lines_open_line _) (open_line_open_line _) Hq2).
    destruct (OpenAIAIService.read_loop _ _ rest _ f) as [more outcome].
    cbn [fst] in *. rewrite flat_map_app. now rewrite Hy, IH.
Qed.

Lemma read_loop_outcome (reader : OpenAIAIService.Reader) :
  forall buffer full,
    snd (read_loop reader buffer full)
    = if reader_ends reader
      then Fulfilled
             (full ++ InterviewPage.concat_all
                        (map (OpenAIAIService.add_content Number_toString "")
                             (fst (read_loop reader buffer full))))
      else Rejected.
Proof.
  subst read_loop.
  induction reader as [| |value rest IH]; intros buffer full;
    cbn [OpenAIAIService.read_loop reader_ends].
  - cbn. now rewrite append_nil_r.
  - reflexivity.
  - pose proof (for_lines_fullResponse
                  (removelast (split_on (ascii_of_nat 10) (buffer ++ value))) full)
      as Hf. subst for_lines.
    destruct (OpenAIAIService.for_lines _ _ _ full) as [ys f].
    cbn [fst snd] in Hf.
    specialize (IH (last (split_on (ascii_of_nat 10) (buffer ++ value)) "") f).
    destruct (OpenAIAIService.read_loop _ _ rest _ f) as [more outcome].
    cbn [fst snd] in *. rewrite IH.
    destruct (reader_ends rest); [|reflexivity].
    now rewrite Hf, map_app, concat_all_app, append_assoc.
Qed.

End EventStreamFacts.

(** X17.  How the body is cut into chunks does not matter.  As long as
    no line after a [[DONE]] line carries content, what the generator
    yields is what the closed lines of the whole body contribute, in
    order, so two readers that deliver the same text yield the same; a
    last line that no line feed closes is never read, and a line that
    does not begin with [data: ] contributes nothing. *)
Theorem event_stream_ignores_chunking :
  forall (JSON_parse : string -> option json) (Number_toString : JSNumber -> string)
         (message : string) (h : list OpenAIAIService.OpenAIMessage)
         (r1 r2 : OpenAIAIService.Reader),
    h <> [] ->
    reader_text r1 = reader_text r2 ->
    quiet_after_done JSON_parse (complete_lines (reader_text r1)) ->
    OpenAIAIService.yielded
      (OpenAIAIService.streamNextQuestion JSON_parse Number_toString message
         (OpenAIAIService.fetch_response true (Some r1)) h)
    = flat_map (line_yield JSON_parse) (complete_lines (reader_text r1))
    /\ OpenAIAIService.yielded
         (OpenAIAIService.streamNextQuestion JSON_parse Number_toString message
            (OpenAIAIService.fetch_response true (Some r1)) h)
       = OpenAIAIService.yielded
           (OpenAIAIService.streamNextQuestion JSON_parse Number_toString message
              (OpenAIAIService.fetch_response true (Some r2)) h)
    /\ (forall line, String.prefix "data: " line = false ->
                     line_yield JSON_parse line = []).
Proof.
  intros JSON_parse nts message h r1 r2 Hne Htxt Hq.
  assert (Hy : forall r,
             quiet_after_done JSON_parse (complete_lines (reader_text r)) ->
             OpenAIAIService.yielded
               (OpenAIAIService.streamNextQuestion JSON_parse nts message
                  (OpenAIAIService.fetch_response true (Some r)) h)
             = flat_map (line_yield JSON_parse) (complete_lines (reader_text r))).
  { intros r Hr. unfold OpenAIAIService.streamNextQuestion.
    destruct h as [|m0 h0]; [congruence|]. cbn [length Nat.eqb].
    pose proof (read_loop_yields JSON_parse nts r "" "" eq_refl eq_refl Hr) as Hl.
    cbn [append] in Hl.
    destruct (OpenAIAIService.read_loop JSON_parse nts r "" "") as [ys [full|]];
      cbn [fst OpenAIAIService.yielded] in *; exact Hl. }
  split; [now apply Hy|]. split.
  - rewrite (Hy r1 Hq). rewrite Htxt in Hq. rewrite (Hy r2 Hq). now rewrite Htxt.
  - intros line Hp. unfold line_yield, OpenAIAIService.on_line. now rewrite Hp.
Qed.

Lemma streamNextQuestion_history_aux
      (JSON_parse : string -> option json) (Number_toString : JSNumber -> string)
      (message : string) (net : OpenAIAIService.FetchResult)
      (h : list OpenAIAIService.OpenAIMessage) :
  h <> [] ->
  let d := OpenAIAIService.streamNextQuestion JSON_parse Number_toString
             message net h in
  OpenAIAIService.requested d
    = Some (h ++ [OpenAIAIService.mkMessage OpenAIAIService.r_user message])%list /\
  OpenAIAIService.returned d = delivers net /\
  OpenAIAIService.history d
    = (h ++ OpenAIAIService.mkMessage OpenAIAIService.r_user message
         :: (if delivers net
             then [OpenAIAIService.mkMessage OpenAIAIService.r_assistant
                     (InterviewPage.concat_all
                        (map (OpenAIAIService.add_content Number_toString "")
                             (OpenAIAIService.yielded d)))]
             else []))%list.
Proof.
  intros Hne. cbv zeta. unfold OpenAIAIService.streamNextQuestion.
  destruct h as [|m0 h0]; [congruence|]. cbn [length Nat.eqb].
  destruct net as [|[|] [reader|]]; cbn [delivers];
    try (cbn; repeat split; now rewrite <- app_assoc).
  pose proof (read_loop_outcome JSON_parse Number_toString reader "" "") as Ho.
  destruct (OpenAIAIService.read_loop JSON_parse Number_toString reader "" "")
    as [ys out].
  cbn [fst snd] in Ho. subst out.
  destruct (reader_ends reader); cbn; repeat split; now rewrite <- app_assoc.
Qed.

(** X18.  What a drained generator leaves in the history.  On an empty
    history, that is before [startInterviewChat], it throws at once:
    nothing is yielded, nothing is sent and the history stays empty.
    Otherwise the request carries the history followed by the new user
    message; if the body is read to its end the history gains that user
    message and an assistant message whose content is the concatenation
    of everything yielded, a yielded value that cannot be converted to a
    string adding nothing; and if anything fails on the way it gains the
    user message alone. *)
Theorem streamNextQuestion_history :
  forall (JSON_parse : string -> option json) (Number_toString : JSNumber -> string)
         (message : string) (net : OpenAIAIService.FetchResult)
         (h : list OpenAIAIService.OpenAIMessage),
    let d := OpenAIAIService.streamNextQuestion JSON_parse Number_toString
               message net h in
    (h = [] -> d = OpenAIAIService.mkDrained [] false None []) /\
    (h <> [] ->
     OpenAIAIService.requested d
       = Some (h ++ [OpenAIAIService.mkMessage OpenAIAIService.r_user message])%list /\
     OpenAIAIService.returned d = delivers net /\
     OpenAIAIService.history d
       = (h ++ OpenAIAIService.mkMessage OpenAIAIService.r_user message
            :: (if delivers net
                then [OpenAIAIService.mkMessage OpenAIAIService.r_assistant
                        (InterviewPage.concat_all
                           (map (OpenAIAIService.add_content Number_toString "")
                                (OpenAIAIService.yielded d)))]
                else []))%list).
Proof.
  intros JSON_parse nts message net h. cbv zeta. split.
  - now intros ->.
  - intros Hne. exact (streamNextQuestion_history_aux JSON_parse nts message net h Hne).
Qed.

(** X19.  A failed attempt is not undone.  When a turn fails after the
    chat was started and the same message is sent again and goes
    through, the second request carries the user message twice, and the
    history ends with the message twice followed by the reply. *)
Theorem retry_repeats_the_user_message :
  forall (JSON_parse : string -> option json) (Number_toString : JSNumber -> string)
         (message : string) (net1 net2 : OpenAIAIService.FetchResult)
         (h : list OpenAIAIService.OpenAIMessage),
    h <> [] ->
    delivers net1 = false ->
    delivers net2 = true ->
    let first := OpenAIAIService.streamNextQuestion JSON_parse Number_toString
                   message net1 h in
    let second := OpenAIAIService.streamNextQuestion JSON_parse Number_toString
                    message net2 (OpenAIAIService.history first) in
    let said := OpenAIAIService.mkMessage OpenAIAIService.r_user message in
    OpenAIAIService.requested second = Some (h ++ [said; said])%list /\
    OpenAIAIService.history second
      = (h ++ [said; said;
               OpenAIAIService.mkMessage OpenAIAIService.r_assistant
                 (InterviewPage.concat_all
                    (map (OpenAIAIService.add_content Number_toString "")
                         (OpenAIAIService.yielded second)))])%list.
Proof.
  intros JSON_parse nts message net1 net2 h Hne H1 H2. cbv zeta.
  destruct (streamNextQuestion_history_aux JSON_parse nts message net1 h Hne)
    as (_ & _ & Hh1).
  rewrite H1 in Hh1.
  assert (Hne1 : OpenAIAIService.history
                   (OpenAIAIService.streamNextQuestion JSON_parse nts message net1 h)
                 <> [])
    by (rewrite Hh1; destruct h; discriminate).
  destruct (streamNextQuestion_history_aux JSON_parse nts message net2 _ Hne1)
    as (Hr2 & _ & Hh2).
  rewrite H2 in Hh2. rewrite Hr2, Hh2, Hh1.
  split; now rewrite <- !app_assoc.
Qed.

(** X20.  [startInterviewChat] starts afresh: whatever the history was,
    it becomes the system message alone.  After it, as long as every
    turn is read to its end, the history is that system message followed
    by one user message and one assistant message per turn, in turn
    order, the user messages being exactly the messages sent. *)
Theorem history_alternates_after_start :
  forall (JSON_parse : string -> option json) (Number_toString : JSNumber -> string)
         (goal : string) (types : list InterviewType)
         (old : list OpenAIAIService.OpenAIMessage)
         (turns : list (string * OpenAIAIService.FetchResult)),
    Forall (fun turn => delivers (snd turn) = true) turns ->
    let started := OpenAIAIService.startInterviewChat goal types old in
    let h := after_turns JSON_parse Number_toString turns started in
    started = [OpenAIAIService.mkMessage OpenAIAIService.r_system
                 (OpenAIAIService.systemPrompt goal types)] /\
    map OpenAIAIService.role h
      = OpenAIAIService.r_system
        :: flat_map (fun _ => [OpenAIAIService.r_user; OpenAIAIService.r_assistant])
                    turns /\
    map OpenAIAIService.content (filter is_user_message h) = map fst turns.
Proof.
  intros JSON_parse nts goal types old turns Hall. cbv zeta.
  split; [reflexivity|].
  unfold OpenAIAIService.startInterviewChat.
  set (sys := OpenAIAIService.mkMessage OpenAIAIService.r_system
                (OpenAIAIService.systemPrompt goal types)).
  assert (G : forall h,
             h <> [] ->
             map OpenAIAIService.role (after_turns JSON_parse nts turns h)
             = (map OpenAIAIService.role h
                ++ flat_map (fun _ => [OpenAIAIService.r_user;
                                       OpenAIAIService.r_assistant]) turns)%list
             /\ map OpenAIAIService.content
                  (filter is_user_message (after_turns JSON_parse nts turns h))
                = (map OpenAIAIService.content (filter is_user_message h)
                   ++ map fst turns)%list).
  { induction Hall as [|[m net] turns Hd _ IH]; intros h Hne.
    - cbn. now rewrite !app_nil_r.
    - cbn [snd] in Hd. unfold after_turns in *. cbn [fold_left fst snd].
      destruct (streamNextQuestion_history_aux JSON_parse nts m net h Hne)
        as (_ & _ & Hh).
      rewrite Hd in Hh.
      assert (Hne' : OpenAIAIService.history
                       (OpenAIAIService.streamNextQuestion JSON_parse nts m net h)
                     <> [])
        by (rewrite Hh; destruct h; discriminate).
      destruct (IH _ Hne') as (IH1 & IH2).
      rewrite IH1, IH2, Hh. cbn [flat_map map fst].
      rewrite !map_app, filter_app, map_app. cbn.
      now rewrite <- !app_assoc. }
  destruct (G [sys] ltac:(discriminate)) as (G1 & G2).
  split; [exact G1 | exact G2].
Qed.

(** ** The two clients side by side *)

Lemma join_lines (l : list string) :
  l <> [] ->
  join GeminiAIService.newline l ++ GeminiAIService.newline
  = InterviewPage.concat_all (map (fun x => x ++ GeminiAIService.newline) l).
Proof.
  induction l as [|x l IH]; [congruence|]. intros _.
  destruct l as [|y l].
  - cbn [join map InterviewPage.concat_all]. now rewrite append_nil_r.
  - change (join GeminiAIService.newline (x :: y :: l))
      with (x ++ GeminiAIService.newline ++ join GeminiAIService.newline (y :: l)).
    change (map (fun x0 => x0 ++ GeminiAIService.newline) (x :: y :: l))
      with ((x ++ GeminiAIService.newline)
              :: map (fun x0 => x0 ++ GeminiAIService.newline) (y :: l)).
    cbn [InterviewPage.concat_all].
    rewrite !append_assoc, IH by discriminate. reflexivity.
Qed.

(** X21.  Both clients write the transcript into the evaluation prompt
    as one [speaker: text] line per message, in order.  The OpenAI client
    joins the lines with line feeds and looks at no image; the Gemini
    client ends every line with a line feed, so on a transcript that is
    not empty and carries no image its text is the text of the OpenAI
    client followed by one line feed. *)
Theorem transcript_text_of_both_clients :
  forall (t : list TranscriptMessage),
    OpenAIAIService.transcriptText t
      = OpenAIAIService.transcriptText
          (map (fun m => mkMsg (speaker m) (text m) None) t) /\
    (t <> [] -> Forall (fun m => image m = None) t ->
     GeminiAIService.transcriptText t
     = OpenAIAIService.transcriptText t ++ GeminiAIService.newline).
Proof.
  intros t. split.
  - unfold OpenAIAIService.transcriptText. now rewrite map_map.
  - intros Hne Hnone.
    assert (Hp : forall m, In m t -> image_payload m = None).
    { intros m Hin. unfold image_payload.
      rewrite (proj1 (Forall_forall _ _) Hnone m Hin). now destruct (speaker m). }
    unfold GeminiAIService.transcriptText, GeminiAIService.collect,
      OpenAIAIService.transcriptText.
    rewrite collect_spec. cbn [fst append].
    rewrite join_lines by (destruct t; [congruence | discriminate]).
    rewrite map_map. f_equal. apply map_ext_in. intros m Hin.
    rewrite (Hp m Hin), append_nil_r. unfold transcript_line.
    now rewrite !append_assoc.
Qed.

(** X22.  Before [startInterviewChat] the Gemini client has no chat and
    every stream it returns throws before yielding.  A turn taken then is
    not cut short: it makes all three attempts, waiting 2000 ms and
    4000 ms, and ends with the closing line as the only message added. *)
Theorem turn_without_chat_runs_out_of_attempts :
  forall (sendMessageStream : GeminiAIService.Chat -> string -> InterviewPage.Stream)
         (message : string) (c : InterviewPage.Component),
    let provider := fun _ : nat =>
      GeminiAIService.streamNextQuestion None message sendMessageStream in
    InterviewPage.fragments (provider 0) = [] /\
    InterviewPage.drains (provider 0) = false /\
    exists c' new,
      InterviewPage.getNextAiMessage provider message c = Some c' /\
      InterviewPage.log c' = (InterviewPage.log c ++ new)%list /\
      turn_timeline new
        = [tick_attempt; tick_wait 2000; tick_attempt; tick_wait 4000; tick_attempt] /\
      InterviewPage.transcript c'
        = (InterviewPage.transcript c
           ++ [mkMsg ai InterviewPage.errorMessage None])%list.
Proof.
  intros send message c provider.
  split; [reflexivity|]. split; [reflexivity|].
  assert (Hfail : forall j, j <= maxRetries -> InterviewPage.drains (provider j) = false)
    by (intros j _; reflexivity).
  destruct (turn_schedule provider message c) as (c' & new & Hrun & Hlog & Htl).
  exists c', new. split; [exact Hrun|]. split; [exact Hlog|]. split.
  - rewrite Htl. reflexivity.
  - destruct (getNextAiMessage_exhausted_effect _ _ _ _ Hfail Hrun) as (Ht & _).
    exact Ht.
Qed.

(** ** The resume checker *)

(** X23.  A submit with a blank resume or job description does nothing:
    no request is made and the page state stays as it is.  Any other
    submit makes exactly one request, with no retry, and ends with the
    loading flag cleared and exactly one of result and error set.  On an
    answer that [scoreResume] returns, it is the result, which is what
    [scoreResume] returned and whose score is a number, and no error.
    On a failure of the request, or on an answer whose score makes the
    coercion throw, it is no result, not even an earlier one, and an
    error text that is not empty, whatever message the thrown value
    carries. *)
Theorem resume_submit_sets_result_or_error :
  forall (Number_toString : JSNumber -> string) (TypeError_message : string)
         (answer : ResumeCheckerPage.Answer) (c : ResumeCheckerPage.Component),
    let c' := ResumeCheckerPage.handleSubmit Number_toString TypeError_message
                answer c in
    ResumeCheckerPage.canSubmit c
      = negb (blank (ResumeCheckerPage.resume c))
        && negb (blank (ResumeCheckerPage.jobDescription c)) /\
    (ResumeCheckerPage.canSubmit c = false -> c' = c) /\
    (ResumeCheckerPage.canSubmit c = true ->
     ResumeCheckerPage.requests c' = S (ResumeCheckerPage.requests c) /\
     ResumeCheckerPage.isLoading c' = false /\
     match answer with
     | ResumeCheckerPage.answered payload =>
         match GeminiAIService.scoreResume Number_toString payload with
         | Fulfilled r =>
             ResumeCheckerPage.error c' = None /\
             ResumeCheckerPage.result c' = Some r /\
             typeof_number (get_property "score" r) = true
         | Rejected =>
             ResumeCheckerPage.result c' = None /\
             exists e, ResumeCheckerPage.error c' = Some e /\ e <> ""
         end
     | ResumeCheckerPage.failed message =>
         ResumeCheckerPage.result c' = None /\
         exists e, ResumeCheckerPage.error c' = Some e /\ e <> ""
     end).
Proof.
  intros nts msg answer c. cbv zeta. unfold ResumeCheckerPage.handleSubmit.
  split; [|split].
  - unfold ResumeCheckerPage.canSubmit. now rewrite !trim_blank.
  - now intros ->.
  - intros ->. cbn [negb].
    assert (Herr : forall m, ResumeCheckerPage.error_text m <> "").
    { intros m. unfold ResumeCheckerPage.error_text.
      destruct m as [[|ch m]|]; cbn; discriminate. }
    destruct answer as [payload|message].
    + destruct (GeminiAIService.scoreResume nts payload) as [r|] eqn:E;
        cbn -[ResumeCheckerPage.error_text].
      * repeat split. now apply (gemini_score_is_number nts payload).
      * repeat split. eexists. split; [reflexivity | apply Herr].
    + cbn -[ResumeCheckerPage.error_text].
      repeat split. eexists. split; [reflexivity | apply Herr].
Qed.

(** X24.  A [data: ] line whose payload parses to a frame of the shape
    [{choices: [{delta: {content: txt}}]}] yields [txt] as it is when
    [txt] is not empty and is skipped when it is; a payload that does not
    parse, or parses to a value without [choices], is skipped as well,
    and only a payload that trims to [[DONE]] ends the reading of the
    lines at hand. *)
Theorem data_line_yields_its_delta :
  forall (JSON_parse : string -> option json) (payload txt : string),
    trim payload <> "[DONE]" ->
    (JSON_parse payload = Some (delta_frame txt) ->
     OpenAIAIService.on_line JSON_parse ("data: " ++ payload)
     = match txt with
       | EmptyString => OpenAIAIService.act_skip
       | _ => OpenAIAIService.act_yield (JStr txt)
       end) /\
    (JSON_parse payload = None ->
     OpenAIAIService.on_line JSON_parse ("data: " ++ payload)
     = OpenAIAIService.act_skip) /\
    (forall j, JSON_parse payload = Some j -> property "choices" j = None ->
               OpenAIAIService.on_line JSON_parse ("data: " ++ payload)
               = OpenAIAIService.act_skip) /\
    (forall line, OpenAIAIService.on_line JSON_parse line = OpenAIAIService.act_break ->
                  String.prefix "data: " line = true
                  /\ trim (drop 6 line) = "[DONE]").
Proof.
  intros JSON_parse payload txt Hnd.
  assert (Hpre : forall k : OpenAIAIService.LineAction,
             OpenAIAIService.on_line JSON_parse ("data: " ++ payload)
             = match JSON_parse payload with
               | None => OpenAIAIService.act_skip
               | Some j =>
                   match OpenAIAIService.delta_content j with
                   | Fulfilled (Some content) =>
                       if truthy content then OpenAIAIService.act_yield content
                       else OpenAIAIService.act_skip
                   | _ => OpenAIAIService.act_skip
                   end
               end).
  { intros _. unfold OpenAIAIService.on_line.
    assert (String.prefix "data: " ("data: " ++ payload) = true) as ->
      by (cbn; now destruct payload).
    cbn [append drop].
    destruct (String.eqb_spec (trim payload) "[DONE]"); [contradiction|].
    reflexivity. }
  specialize (Hpre OpenAIAIService.act_skip).
  repeat split.
  - intros Hp. rewrite Hpre, Hp. cbn. now destruct txt.
  - intros Hp. now rewrite Hpre, Hp.
  - intros j Hp Hc. rewrite Hpre, Hp. unfold OpenAIAIService.delta_content.
    rewrite Hc. now destruct j.
  - unfold OpenAIAIService.on_line in H.
    destruct (String.prefix "data: " line); [reflexivity | discriminate].
  - unfold OpenAIAIService.on_line in H.
    destruct (String.prefix "data: " line); [|discriminate].
    destruct (String.eqb_spec (trim (drop 6 line)) "[DONE]"); [assumption|].
    destruct (JSON_parse (drop 6 line)) as [j|]; [|discriminate].
    destruct (OpenAIAIService.delta_content j) as [[content|]|]; try discriminate.
    destruct (truthy content); discriminate.
Qed.

(** ** Worked runs, continued *)

Lemma opening_answered :
  InterviewPage.reachable (InterviewPage.mount Sample.started)
    (InterviewPage.after_handler
       (InterviewPage.comp (InterviewPage.mount Sample.started))
       (Turn.succeeded "Tell me about yourself."
          (Turn.consumed Sample.flaky_then_fine "Start the interview." 1
             (Turn.before_attempt Sample.flaky_then_fine "Start the interview." 1
                (InterviewPage.comp (InterviewPage.mount Sample.started)))))
       []).
Proof.
  eapply InterviewPage.reach_step; [apply InterviewPage.reach_start|].
  apply (InterviewPage.step_aiTurn
           (InterviewPage.comp (InterviewPage.mount Sample.started))
           "Start the interview." [] [] Sample.flaky_then_fine).
  reflexivity.
Qed.

(** Toggling an identifier that the roadmap does not hold. *)
Lemma toggle_unknown_run :
  ~ In "todo-9-0" (map id (AppContext.roadmap Sample2.with_roadmap))
  /\ AppContext.toggleTodo "todo-9-0" Sample2.with_roadmap = Sample2.with_roadmap.
Proof.
  assert (H : ~ In "todo-9-0" (map id (AppContext.roadmap Sample2.with_roadmap)))
    by (intros [H|[]]; discriminate).
  split; [exact H|].
  exact (toggleTodo_unknown_id_changes_nothing "todo-9-0" Sample2.with_roadmap H).
Defined.

(** A valid form submitted on a cleared session. *)
Lemma submit_run :
  SetupPage.canStart Sample2.valid_form = true
  /\ InterviewPage.inflight
       (InterviewPage.mount
          (SetupPage.handleSubmit Sample2.valid_form
             (AppContext.startNewInterview Sample.evaluated)))
     = ["Start the interview."].
Proof.
  assert (H : SetupPage.canStart Sample2.valid_form = true) by reflexivity.
  split; [exact H|].
  destruct (submit_starts_interview_when_form_is_valid Sample2.valid_form
              Sample.evaluated) as (_ & _ & Hgo).
  destruct (Hgo H) as (_ & _ & _ & Hin & _). exact Hin.
Defined.

(** The transcript after the opening question, seen from the start. *)
Lemma append_only_run :
  InterviewPage.reachable (InterviewPage.mount Sample.started)
    (InterviewPage.after_handler
       (InterviewPage.comp (InterviewPage.mount Sample.started))
       (Turn.succeeded "Tell me about yourself."
          (Turn.consumed Sample.flaky_then_fine "Start the interview." 1
             (Turn.before_attempt Sample.flaky_then_fine "Start the interview." 1
                (InterviewPage.comp (InterviewPage.mount Sample.started)))))
       [])
  /\ exists added,
      [mkMsg ai "Tell me about yourself." None]
      = (InterviewPage.transcript
           (InterviewPage.comp (InterviewPage.mount Sample.started)) ++ added)%list.
Proof.
  split; [exact opening_answered|].
  exact (transcript_is_append_only _ _ opening_answered).
Defined.

Lemma no_image_run :
  no_interviewer_image (AppContext.transcript Sample.started)
  /\ no_interviewer_image [mkMsg ai "Tell me about yourself." None].
Proof.
  assert (H : no_interviewer_image (AppContext.transcript Sample.started))
    by constructor.
  split; [exact H|].
  exact (interviewer_messages_carry_no_image Sample.started _ H opening_answered).
Defined.

Lemma one_turn_run :
  AppContext.user_ Sample.started = Some Sample.candidate
  /\ AppContext.interviewTypes Sample.started <> []
  /\ AppContext.transcript Sample.started = []
  /\ spoken_by ai [mkMsg ai "Tell me about yourself." None] + 0
     = 1 + spoken_by user [mkMsg ai "Tell me about yourself." None].
Proof.
  assert (H1 : AppContext.user_ Sample.started = Some Sample.candidate)
    by reflexivity.
  assert (H2 : AppContext.interviewTypes Sample.started <> []) by discriminate.
  assert (H3 : AppContext.transcript Sample.started = []) by reflexivity.
  repeat (split; [assumption|]).
  exact (one_turn_per_utterance Sample.started Sample.candidate _ H1 H2 H3
           opening_answered).
Defined.

Lemma finish_on_stale_transcript :
  InterviewPage.reachable (InterviewPage.mount Sample2.stale_long)
    (InterviewPage.after_handler
       (InterviewPage.comp (InterviewPage.mount Sample2.stale_long))
       (InterviewPage.handleFinishInterview
          (InterviewPage.comp (InterviewPage.mount Sample2.stale_long)))
       []).
Proof.
  eapply InterviewPage.reach_step; [apply InterviewPage.reach_start|].
  apply (InterviewPage.step_finishClick
           (InterviewPage.comp (InterviewPage.mount Sample2.stale_long)) []);
    reflexivity.
Qed.

(** The interview page opened on a transcript that was not cleared, and
    the Finish button clicked. *)
Lemma stale_run :
  AppContext.transcript Sample2.stale_long <> []
  /\ InterviewPage.last_is_user (AppContext.transcript Sample2.stale_long) = false
  /\ exists s,
      InterviewPage.reachable (InterviewPage.mount Sample2.stale_long) s
      /\ InterviewPage.status (InterviewPage.comp s) = InterviewPage.finished
      /\ InterviewPage.transcript (InterviewPage.comp s)
         = [Sample.opening; Sample.reply; Sample.opening]
      /\ InterviewPage.inflight s = []
      /\ forall started s',
          ~ InterviewPage.step s (InterviewPage.l_micClick started) s'.
Proof.
  assert (H1 : AppContext.transcript Sample2.stale_long <> []) by discriminate.
  assert (H2 : InterviewPage.last_is_user (AppContext.transcript Sample2.stale_long)
               = false) by reflexivity.
  repeat (split; [assumption|]).
  eexists. split; [exact finish_on_stale_transcript|].
  destruct (stale_transcript_blocks_the_interview Sample2.stale_long _ H1 H2
              finish_on_stale_transcript) as (Htr & Hin & _ & Hmic & _).
  split; [reflexivity|]. split; [exact Htr|]. split; [exact Hin | exact Hmic].
Defined.

(** A pipeline that recovers in its third attempt. *)
Lemma pipeline_success_run :
  2 <= maxRetries
  /\ (forall j, j < 2 -> ResultsPage.attempt_succeeds Sample.recovers_third j = false)
  /\ ResultsPage.generateEvaluation Sample.recovers_third 2
     = Fulfilled Sample.evaluation0
  /\ ResultsPage.generateRoadmap Sample.recovers_third 2 = Fulfilled [Sample.draft0]
  /\ exists c',
      ResultsPage.runResultsPipeline Sample.recovers_third Sample.clock
        (ResultsPage.mount Sample.interviewed) = Some c'
      /\ AppContext.evaluation (ResultsPage.store c') = Some Sample.evaluation0
      /\ nth_error (AppContext.roadmap (ResultsPage.store c')) 0
         = Some (mkItem "todo-0-1700000000000"
                        (d_title Sample.draft0) (d_description Sample.draft0)
                        (d_keyConcepts Sample.draft0) (d_project Sample.draft0)
                        (d_resources Sample.draft0) false)
      /\ length (AppContext.roadmap (ResultsPage.store c')) = 1
      /\ ResultsPage.error c' = None.
Proof.
  assert (H1 : 2 <= maxRetries) by (unfold maxRetries; lia).
  assert (H2 : forall j, j < 2 ->
                         ResultsPage.attempt_succeeds Sample.recovers_third j = false)
    by (intros [|[|j]] Hj; [reflexivity | reflexivity | lia]).
  assert (H3 : ResultsPage.generateEvaluation Sample.recovers_third 2
               = Fulfilled Sample.evaluation0) by reflexivity.
  assert (H4 : ResultsPage.generateRoadmap Sample.recovers_third 2
               = Fulfilled [Sample.draft0]) by reflexivity.
  repeat (split; [assumption|]).
  destruct (pipeline_success_stores_results Sample.recovers_third Sample.clock
              (ResultsPage.mount Sample.interviewed) Sample.candidate 2
              Sample.evaluation0 [Sample.draft0]
              eq_refl ltac:(discriminate) eq_refl H1 H2 H3 H4)
    as (c' & Hrun & Hev & _ & Hlen & Hnth & Herr & _).
  exists c'. split; [exact Hrun|]. split; [exact Hev|].
  split; [exact (Hnth 0 Sample.draft0 eq_refl)|].
  split; [exact Hlen | exact Herr].
Defined.

(** A transcript without images. *)
Lemma no_images_run :
  Forall (fun m => image m = None) [Sample.opening]
  /\ GeminiAIService.imageParts [Sample.opening] = []
  /\ GeminiAIService.transcriptText [Sample.opening]
     = "ai: Tell me about a dataset you cleaned." ++ GeminiAIService.newline.
Proof.
  assert (H : Forall (fun m => image m = None) [Sample.opening])
    by (repeat constructor).
  split; [exact H|].
  destruct (evaluation_images_come_from_candidate_messages [Sample.opening])
    as (_ & _ & _ & Hnone).
  exact (Hnone H).
Defined.

(** The frame captured with the sample reply. *)
Lemma data_url_run :
  comma_free "data:image/jpeg;base64" = true
  /\ comma_free "QUJD" = true
  /\ "QUJD" <> ""
  /\ GeminiAIService.imageParts ([Sample.opening] ++ [Sample.reply])
     = [GeminiAIService.mkInlineData "image/jpeg" "QUJD"].
Proof.
  assert (H1 : comma_free "data:image/jpeg;base64" = true) by reflexivity.
  assert (H2 : comma_free "QUJD" = true) by reflexivity.
  assert (H3 : "QUJD" <> "") by discriminate.
  repeat (split; [assumption|]).
  destruct (data_url_payload_is_sent [Sample.opening]
              "I removed duplicate rows from a sales table."
              "data:image/jpeg;base64" "QUJD" H1 H2 H3) as (Hparts & _).
  exact Hparts.
Defined.

(** The coercion applied to what it returned for the string ["82"]. *)
Lemma idempotent_run :
  GeminiAIService.scoreResume Payload.any_rendering Payload.score_string_82
  = Fulfilled [("score", JNum (Finite (inject_Z 82))); ("strengths", JStr "...");
               ("weaknesses", JStr "...")]
  /\ GeminiAIService.scoreResume Payload.any_rendering
       [("score", JNum (Finite (inject_Z 82))); ("strengths", JStr "...");
        ("weaknesses", JStr "...")]
     = Fulfilled [("score", JNum (Finite (inject_Z 82))); ("strengths", JStr "...");
                  ("weaknesses", JStr "...")].
Proof.
  assert (H : GeminiAIService.scoreResume Payload.any_rendering
                Payload.score_string_82
              = Fulfilled [("score", JNum (Finite (inject_Z 82)));
                           ("strengths", JStr "..."); ("weaknesses", JStr "...")])
    by reflexivity.
  split; [exact H|].
  exact (gemini_scoreResume_idempotent Payload.any_rendering
           Payload.score_string_82 _ H).
Defined.

(** An answer whose score is an object with a [toString] property. *)
Lemma missing_score_run :
  get_property "score" Sample2.score_own_toString
    = Some (JObj [("toString", JNull)])
  /\ get_property "toString" [("toString", JNull)] = Some JNull
  /\ GeminiAIService.scoreResume Payload.any_rendering Sample2.score_own_toString
     = Rejected.
Proof.
  assert (H1 : get_property "score" Sample2.score_own_toString
               = Some (JObj [("toString", JNull)])) by reflexivity.
  assert (H2 : get_property "toString" [("toString", JNull)] = Some JNull)
    by reflexivity.
  repeat (split; [assumption|]).
  destruct (gemini_score_missing_or_not_numeric_is_zero Payload.any_rendering
              Sample2.score_own_toString) as (_ & _ & Hthrow).
  exact (Hthrow _ _ H1 H2).
Defined.

(** The score sent as [" 85/100"]. *)
Lemma score_of_100_run :
  get_property "score" Sample2.score_of_100
    = Some (JStr (" " ++ index_toString 85 ++ "/100"))
  /\ blank " " = true
  /\ starts_with_digit "/100" = false
  /\ (Z.of_nat 85 <= 2 ^ 53)%Z
  /\ GeminiAIService.scoreResume Payload.any_rendering Sample2.score_of_100
     = Fulfilled [("score", JNum (Finite (inject_Z 85))); ("strengths", JStr "...");
                  ("weaknesses", JStr "...")].
Proof.
  assert (H1 : get_property "score" Sample2.score_of_100
               = Some (JStr (" " ++ index_toString 85 ++ "/100"))) by reflexivity.
  assert (H2 : blank " " = true) by reflexivity.
  assert (H3 : starts_with_digit "/100" = false) by reflexivity.
  assert (H4 : (Z.of_nat 85 <= 2 ^ 53)%Z) by (vm_compute; discriminate).
  repeat (split; [assumption|]).
  destruct (gemini_score_reads_leading_number Payload.any_rendering
              Sample2.score_of_100 " " "/100" 85 H1 H2 H3) as (Hexact & _).
  exact (Hexact H4).
Defined.

(** The same reply read in one chunk and in three. *)
Lemma chunking_run :
  Sample2.chat_started <> []
  /\ reader_text Sample2.in_one_chunk = reader_text Sample2.in_three_chunks
  /\ quiet_after_done two_frames (complete_lines (reader_text Sample2.in_one_chunk))
  /\ OpenAIAIService.yielded
       (OpenAIAIService.streamNextQuestion two_frames Payload.any_rendering "Start"
          (OpenAIAIService.fetch_response true (Some Sample2.in_three_chunks))
          Sample2.chat_started)
     = [JStr "Hel"; JStr "lo"].
Proof.
  assert (H1 : Sample2.chat_started <> []) by discriminate.
  assert (H2 : reader_text Sample2.in_one_chunk
               = reader_text Sample2.in_three_chunks) by reflexivity.
  assert (H3 : quiet_after_done two_frames
                 (complete_lines (reader_text Sample2.in_one_chunk)))
    by (vm_compute; auto).
  repeat (split; [assumption|]).
  destruct (event_stream_ignores_chunking two_frames Payload.any_rendering "Start"
              Sample2.chat_started Sample2.in_one_chunk Sample2.in_three_chunks
              H1 H2 H3) as (Hy & Hsame & _).
  rewrite <- Hsame, Hy. reflexivity.
Defined.

(** The history after the first delivered reply. *)
Lemma history_run :
  Sample2.chat_started <> []
  /\ map OpenAIAIService.role
       (OpenAIAIService.history
          (OpenAIAIService.streamNextQuestion two_frames Payload.any_rendering "Start"
             (OpenAIAIService.fetch_response true (Some Sample2.in_one_chunk))
             Sample2.chat_started))
     = [OpenAIAIService.r_system; OpenAIAIService.r_user;
        OpenAIAIService.r_assistant].
Proof.
  assert (H1 : Sample2.chat_started <> []) by discriminate.
  split; [exact H1|].
  destruct (streamNextQuestion_history two_frames Payload.any_rendering "Start"
              (OpenAIAIService.fetch_response true (Some Sample2.in_one_chunk))
              Sample2.chat_started) as (_ & Hgo).
  destruct (Hgo H1) as (_ & _ & Hh).
  rewrite Hh. reflexivity.
Defined.

(** A rejected request followed by a delivered one. *)
Lemma retry_history_run :
  Sample2.chat_started <> []
  /\ delivers OpenAIAIService.fetch_rejected = false
  /\ delivers (OpenAIAIService.fetch_response true (Some Sample2.in_one_chunk)) = true
  /\ map OpenAIAIService.role
       (OpenAIAIService.history
          (OpenAIAIService.streamNextQuestion two_frames Payload.any_rendering "Start"
             (OpenAIAIService.fetch_response true (Some Sample2.in_one_chunk))
             (OpenAIAIService.history
                (OpenAIAIService.streamNextQuestion two_frames Payload.any_rendering
                   "Start" OpenAIAIService.fetch_rejected Sample2.chat_started))))
     = [OpenAIAIService.r_system; OpenAIAIService.r_user; OpenAIAIService.r_user;
        OpenAIAIService.r_assistant].
Proof.
  assert (H1 : Sample2.chat_started <> []) by discriminate.
  assert (H2 : delivers OpenAIAIService.fetch_rejected = false) by reflexivity.
  assert (H3 : delivers (OpenAIAIService.fetch_response true
                           (Some Sample2.in_one_chunk)) = true) by reflexivity.
  repeat (split; [assumption|]).
  destruct (retry_repeats_the_user_message two_frames Payload.any_rendering "Start"
              OpenAIAIService.fetch_rejected
              (OpenAIAIService.fetch_response true (Some Sample2.in_one_chunk))
              Sample2.chat_started H1 H2 H3) as (_ & Hh).
  rewrite Hh. reflexivity.
Defined.

(** Two delivered turns after the start of a chat. *)
Lemma alternation_run :
  Forall (fun turn => delivers (snd turn) = true)
    [("Start", OpenAIAIService.fetch_response true (Some Sample2.in_one_chunk));
     ("I cleaned a sales table.",
      OpenAIAIService.fetch_response true (Some Sample2.in_three_chunks))]
  /\ map OpenAIAIService.content
       (filter is_user_message
          (after_turns two_frames Payload.any_rendering
             [("Start",
               OpenAIAIService.fetch_response true (Some Sample2.in_one_chunk));
              ("I cleaned a sales table.",
               OpenAIAIService.fetch_response true (Some Sample2.in_three_chunks))]
             Sample2.chat_started))
     = ["Start"; "I cleaned a sales table."].
Proof.
  assert (H : Forall (fun turn => delivers (snd turn) = true)
                [("Start",
                  OpenAIAIService.fetch_response true (Some Sample2.in_one_chunk));
                 ("I cleaned a sales table.",
                  OpenAIAIService.fetch_response true
                    (Some Sample2.in_three_chunks))])
    by (repeat constructor).
  split; [exact H|].
  destruct (history_alternates_after_start two_frames Payload.any_rendering
              "Data Analyst" [technical] [] _ H) as (_ & _ & Hu).
  exact Hu.
Defined.

(** The transcript text of both clients for a transcript without images. *)
Lemma transcript_text_run :
  [Sample.opening] <> []
  /\ Forall (fun m => image m = None) [Sample.opening]
  /\ GeminiAIService.transcriptText [Sample.opening]
     = OpenAIAIService.transcriptText [Sample.opening] ++ GeminiAIService.newline.
Proof.
  assert (H1 : [Sample.opening] <> []) by discriminate.
  assert (H2 : Forall (fun m => image m = None) [Sample.opening])
    by (repeat constructor).
  repeat (split; [assumption|]).
  destruct (transcript_text_of_both_clients [Sample.opening]) as (_ & Hgo).
  exact (Hgo H1 H2).
Defined.

(** A filled-in form answered with a score that cannot be converted. *)
Lemma resume_submit_run :
  ResumeCheckerPage.canSubmit Sample2.filled_in = true
  /\ ResumeCheckerPage.result
       (ResumeCheckerPage.handleSubmit Payload.any_rendering ""
          (ResumeCheckerPage.answered Sample2.score_own_toString)
          Sample2.filled_in) = None
  /\ ResumeCheckerPage.error
       (ResumeCheckerPage.handleSubmit Payload.any_rendering ""
          (ResumeCheckerPage.answered Sample2.score_own_toString)
          Sample2.filled_in) = Some ResumeCheckerPage.defaultError
  /\ ResumeCheckerPage.isLoading
       (ResumeCheckerPage.handleSubmit Payload.any_rendering ""
          (ResumeCheckerPage.answered Sample2.score_own_toString)
          Sample2.filled_in) = false.
Proof.
  assert (H : ResumeCheckerPage.canSubmit Sample2.filled_in = true) by reflexivity.
  split; [exact H|].
  destruct (resume_submit_sets_result_or_error Payload.any_rendering ""
              (ResumeCheckerPage.answered Sample2.score_own_toString)
              Sample2.filled_in) as (_ & _ & Hgo).
  destruct (Hgo H) as (_ & Hload & Hres & _).
  split; [exact Hres|]. split; [reflexivity | exact Hload].
Defined.

(** The first frame of the sample reply. *)
Lemma data_line_run :
  trim frame_hel <> "[DONE]"
  /\ OpenAIAIService.on_line two_frames ("data: " ++ frame_hel)
     = OpenAIAIService.act_yield (JStr "Hel").
Proof.
  assert (H : trim frame_hel <> "[DONE]") by (vm_compute; discriminate).
  split; [exact H|].
  destruct (data_line_yields_its_delta two_frames frame_hel "Hel" H) as (Hy & _).
  exact (Hy eq_refl).
Defined.
